(** * maps-data: enrichment of a provider table with Google Places data

    A shallow embedding of [main.py].  The script reads a spreadsheet of
    health-care providers, resolves each row to a place identifier with up to
    three text queries, fetches the place details and a photo URL, writes the
    enriched table to a spreadsheet, drops two working columns, appends the
    table to PostgreSQL and writes a second spreadsheet.

    The embedding keeps the order of the source file: Python values and the
    operators used on them, exceptions, the outside world (HTTP, files,
    database, console) as an oracle over the history of events, the pandas
    operations that the script calls, then the eight functions of [main.py]
    under their own names, and finally the properties. *)

From Stdlib Require Import String ZArith Lia.
From stdpp Require Import base list strings pretty.
From Equations Require Import Equations.
From Equations.Prop Require Logic.

#[local] Unset Equations With Funext.

Open Scope string_scope.
Open Scope list_scope.

(** ** Python values *)

(** The objects that flow through the script: cells of the data frame and
    parsed JSON payloads.  A number is carried by the text that [str()]
    prints for it ([400], [-6.2], [nan]); the script never computes with
    numbers, it only prints them. *)
#[warnings="-register-all"]
Inductive pyval : Type :=
| PNone
| PBool (b : bool)
| PNum (text : string)
| PStr (s : string)
| PList (items : list pyval)
| PDict (entries : list (string * pyval)).

(** Exceptions (subclasses of [Exception]).  [ExternalError] stands for
    whatever the libraries raise on their own: [requests] on a network error
    or a timeout, [response.json()] on a body that is not JSON, pandas on a
    file it cannot read or write, psycopg2 and SQLAlchemy on a database
    failure. *)
Inductive exn : Type :=
| KeyError (key : string)
| IndexError
| TypeError (what : string)
| AttributeError (what : string)
| UnboundLocalError (var : string)
| ExternalError (what : string).

Inductive result (A : Type) : Type :=
| Ok (a : A)
| Raise (e : exn).
Arguments Ok {A} a.
Arguments Raise {A} e.

Definition rbind {A B} (r : result A) (k : A -> result B) : result B :=
  match r with
  | Ok a => k a
  | Raise e => Raise e
  end.

Declare Scope py_scope.
Delimit Scope py_scope with py.
Notation "x <- r ;;; k" := (rbind r (fun x => k))
  (at level 100, r at next level, right associativity) : py_scope.
Open Scope py_scope.

(** [x is None] *)
Definition is_none (v : pyval) : bool :=
  match v with
  | PNone => true
  | _ => false
  end.

(** [needle in hay] on two [str]: substring search. *)
Fixpoint str_contains (needle hay : string) : bool :=
  String.prefix needle hay ||
  match hay with
  | EmptyString => false
  | String _ rest => str_contains needle rest
  end.

(** [s == v] for a [str] on the left: true only for an equal [str]. *)
Definition str_eq_val (s : string) (v : pyval) : bool :=
  match v with
  | PStr t => String.eqb s t
  | _ => false
  end.

(** [s in container] for a [str] on the left.  On a list it is membership
    (an element equal to [s]), on a [str] it is substring search, on a dict
    it is key membership; the other values are not iterable. *)
Definition py_in (s : string) (container : pyval) : result bool :=
  match container with
  | PList items => Ok (existsb (str_eq_val s) items)
  | PStr hay => Ok (str_contains s hay)
  | PDict entries => Ok (existsb (fun kv => String.eqb s (fst kv)) entries)
  | PNone | PBool _ | PNum _ => Raise (TypeError "argument is not iterable")
  end.

(** [any(f(x) for x in xs)] over a generator: stops at the first true, and a
    fault in [f] surfaces when its element is reached. *)
Fixpoint py_any {A} (f : A -> result bool) (xs : list A) : result bool :=
  match xs with
  | [] => Ok false
  | x :: rest => b <- f x ;;; if b then Ok true else py_any f rest
  end.

(** [v[key]] with a [str] key. *)
Fixpoint assoc_lookup {V} (key : string) (entries : list (string * V)) : option V :=
  match entries with
  | [] => None
  | (k, v) :: rest => if String.eqb key k then Some v else assoc_lookup key rest
  end.

Definition getitem (v : pyval) (key : string) : result pyval :=
  match v with
  | PDict entries =>
      match assoc_lookup key entries with
      | Some x => Ok x
      | None => Raise (KeyError key)
      end
  | PList _ => Raise (TypeError "list indices must be integers or slices, not str")
  | PStr _ => Raise (TypeError "string indices must be integers")
  | PNone | PBool _ | PNum _ => Raise (TypeError "object is not subscriptable")
  end.

(** [v[i]] with a non-negative [int] index. *)
Definition getindex (v : pyval) (i : nat) : result pyval :=
  match v with
  | PList items =>
      match items !! i with
      | Some x => Ok x
      | None => Raise IndexError
      end
  | PStr s =>
      match String.get i s with
      | Some c => Ok (PStr (String c EmptyString))
      | None => Raise IndexError
      end
  | PDict _ => Raise (KeyError (pretty i))
  | PNone | PBool _ | PNum _ => Raise (TypeError "object is not subscriptable")
  end.

(** [len(v)] *)
Definition py_len (v : pyval) : result nat :=
  match v with
  | PList items => Ok (length items)
  | PStr s => Ok (String.length s)
  | PDict entries => Ok (length entries)
  | PNone | PBool _ | PNum _ => Raise (TypeError "object has no len()")
  end.

(** [a + b]: the script only ever adds [str] operands. *)
Definition py_add (a b : pyval) : result pyval :=
  match a, b with
  | PStr s, PStr t => Ok (PStr (s ++ t))
  | _, _ => Raise (TypeError "unsupported operand type(s) for +")
  end.

(** ** Type Classifier: [check_type_in_response] (main.py, lines 13-24) *)

Definition type_options : list string :=
  ["health"; "hospital"; "pharmacy"; "dentist"].

Definition check_type_in_response (store_type : pyval) : result bool :=
  py_any (fun type_option => py_in type_option store_type) type_options.

(** ** Data frames *)

(** A pandas [DataFrame] with the default [RangeIndex]: the number of rows and
    the columns in order, each with its cells. *)
Record DataFrame : Type := {
  nrows : nat;
  columns : list (string * list pyval)
}.

Definition column_names (df : DataFrame) : list string :=
  map fst (columns df).

(** [df[label]] *)
Definition df_getitem (df : DataFrame) (label : string) : result (list pyval) :=
  match assoc_lookup label (columns df) with
  | Some cells => Ok cells
  | None => Raise (KeyError label)
  end.

Fixpoint set_column (label : string) (cells : list pyval)
    (cols : list (string * list pyval)) : list (string * list pyval) :=
  match cols with
  | [] => [(label, cells)]
  | (k, old) :: rest =>
      if String.eqb k label then (k, cells) :: rest
      else (k, old) :: set_column label cells rest
  end.

(** [df[label] = series]: an existing column is replaced where it stands, a
    new one is added at the end. *)
Definition df_setitem (df : DataFrame) (label : string) (cells : list pyval) : DataFrame :=
  {| nrows := nrows df; columns := set_column label cells (columns df) |}.

(** [df[label] = scalar]: the scalar is broadcast over the rows. *)
Definition df_setitem_scalar (df : DataFrame) (label : string) (v : pyval) : DataFrame :=
  df_setitem df label (replicate (nrows df) v).

(** A row as [iterrows] yields it: a [Series] indexed by the column names.
    ([read_excel] gives every column one cell per row, so the default below
    is never used.) *)
Definition Series : Type := list (string * pyval).

Definition row_of (df : DataFrame) (index : nat) : Series :=
  map (fun col => (fst col, default PNone (snd col !! index))) (columns df).

(** [df.iterrows()]: the pairs (index label, row), built from the values the
    frame has when the iteration starts. *)
Definition iterrows (df : DataFrame) : list (nat * Series) :=
  map (fun index => (index, row_of df index)) (seq 0 (nrows df)).

(** [row[label]] *)
Definition series_getitem (row : Series) (label : string) : result pyval :=
  match assoc_lookup label row with
  | Some v => Ok v
  | None => Raise (KeyError label)
  end.

(** [df.at[index, label] = v] for a row label and a column that exist, which
    is the only way [main] calls it: labels come from [iterrows] over the
    same frame, columns are created just before the loop (lemma
    [assignments_hit_existing_cells]).  For a label it does not know pandas
    would enlarge the frame; that path is never taken, and the update of the
    model does nothing there. *)
Definition at_set (df : DataFrame) (index : nat) (label : string) (v : pyval) : DataFrame :=
  {| nrows := nrows df;
     columns := map (fun col => if String.eqb (fst col) label
                                then (fst col, <[index := v]> (snd col))
                                else col) (columns df) |}.

(** The cell in row [index] of column [label], if both exist. *)
Definition cell_at (df : DataFrame) (index : nat) (label : string) : option pyval :=
  match assoc_lookup label (columns df) with
  | Some cells => cells !! index
  | None => None
  end.

Definition has_column (df : DataFrame) (label : string) : bool :=
  existsb (String.eqb label) (column_names df).

(** [df.drop(columns=labels)]: a new frame without the listed columns;
    [KeyError] when one of them is not a column of the frame. *)
Definition drop_columns (df : DataFrame) (labels : list string) : result DataFrame :=
  match List.filter (fun l => negb (has_column df l)) labels with
  | [] => Ok {| nrows := nrows df;
                columns := List.filter (fun col => negb (existsb (String.eqb (fst col)) labels))
                                       (columns df) |}
  | missing :: _ => Raise (KeyError missing)
  end.

(** ** The outside world *)

(** What [requests.get] returns: the status code, the body as
    [response.json()] parses it ([None] when the body is not JSON, in which
    case [json()] raises), and the final request URL. *)
Record response : Type := {
  status_code : Z;
  json_body : option pyval;
  url : string
}.

(** Everything the script does to the outside world, in the order it does
    it. *)
Inductive event : Type :=
| EPrint (line : string)
| EGet (endpoint : string) (params : list (string * pyval))
| EReadExcel (path : string)
| EToExcel (path : string) (df : DataFrame)
| EConnect (dsn : string)
| ECursor
| EExecute (sql : string)
| ECommit
| ECreateEngine (db_url : string)
| EToSql (table : string) (df : DataFrame)
| ECursorClose
| EConnectionClose.

(** The world answers each call, and its answer may depend on everything
    that happened before (the history of events).  Nothing is assumed about
    the answers.  [getenv] is the process environment after [load_dotenv];
    [str_of_container] and [str_of_exn] are the texts the Python runtime
    prints for a list or dict and for an exception.  The script pins no
    version of pandas, and [astype(str)] depends on it:
    [missing_stays_missing] says whether the installed pandas keeps a
    missing cell missing there (pandas 3 and later) or renders it as text
    (earlier versions). *)
Record World : Type := {
  getenv : string -> pyval;
  http_get : list event -> string -> list (string * pyval) -> result response;
  read_excel : list event -> string -> result DataFrame;
  perform : list event -> event -> result unit;
  str_of_container : pyval -> string;
  str_of_exn : exn -> string;
  missing_stays_missing : bool
}.

(** The handles psycopg2 gives out; both are truthy objects. *)
Inductive db_object : Type :=
| ConnectionObject
| CursorObject.

(** The state of a run: the events so far, and the local variables of [main]
    that are assigned inside a [try] block or mutated in place, so that their
    value at the time of a fault is what the handler sees.  A handle that has
    not been assigned yet is [None] here (unbound, not Python's [None]);
    [data_frame] is not looked at before [main] assigns it. *)
Record state : Type := {
  trace : list event;
  data_frame : DataFrame;
  connection : option db_object;
  cursor : option db_object
}.

Definition with_trace (st : state) (t : list event) : state :=
  {| trace := t; data_frame := data_frame st;
     connection := connection st; cursor := cursor st |}.

Definition with_data_frame (st : state) (df : DataFrame) : state :=
  {| trace := trace st; data_frame := df;
     connection := connection st; cursor := cursor st |}.

Definition with_connection (st : state) (c : db_object) : state :=
  {| trace := trace st; data_frame := data_frame st;
     connection := Some c; cursor := cursor st |}.

Definition with_cursor (st : state) (c : db_object) : state :=
  {| trace := trace st; data_frame := data_frame st;
     connection := connection st; cursor := Some c |}.

Definition record_event (st : state) (ev : event) : state :=
  with_trace st (trace st ++ [ev]).

(** Statements: a state transformer that returns a value or raises, and in
    both cases hands on the state reached. *)
Definition M (A : Type) : Type := state -> result A * state.

Definition ret {A} (a : A) : M A := fun st => (Ok a, st).

Definition bind {A B} (m : M A) (k : A -> M B) : M B :=
  fun st =>
    match m st with
    | (Ok a, st') => k a st'
    | (Raise e, st') => (Raise e, st')
    end.

Definition lift {A} (r : result A) : M A := fun st => (r, st).

Notation "x <- m ;; k" := (bind m (fun x => k))
  (at level 100, m at next level, right associativity) : py_scope.
Notation "m ;; k" := (bind m (fun _ => k))
  (at level 100, right associativity) : py_scope.

(** [try: body except Exception as error: handler(error)] *)
Definition try_except {A} (body : M A) (handler : exn -> M A) : M A :=
  fun st =>
    match body st with
    | (Ok a, st') => (Ok a, st')
    | (Raise e, st') => handler e st'
    end.

(** [try: body finally: cleanup]: the cleanup always runs; a fault in it
    replaces the outcome of the body. *)
Definition try_finally {A} (body : M A) (cleanup : M unit) : M A :=
  fun st =>
    match body st with
    | (r, st') =>
        match cleanup st' with
        | (Ok _, st'') => (r, st'')
        | (Raise e, st'') => (Raise e, st'')
        end
    end.

(** [for x in items: body(x)] *)
Fixpoint for_in {A} (items : list A) (body : A -> M unit) : M unit :=
  match items with
  | [] => ret tt
  | x :: rest => body x ;; for_in rest body
  end.

Definition get_data_frame : M DataFrame := fun st => (Ok (data_frame st), st).

Definition set_data_frame (df : DataFrame) : M unit :=
  fun st => (Ok tt, with_data_frame st df).

(** Reading a local variable of [main]. *)
Definition read_local (name : string) (get : state -> option db_object) : M db_object :=
  fun st =>
    match get st with
    | Some v => (Ok v, st)
    | None => (Raise (UnboundLocalError name), st)
    end.

Section Script.

(** One run of the script against one world. *)
Variable W : World.

(** [str(v)], also what an f-string prints for [{v}]. *)
Definition py_str (v : pyval) : string :=
  match v with
  | PNone => "None"
  | PBool true => "True"
  | PBool false => "False"
  | PNum text => text
  | PStr s => s
  | PList _ | PDict _ => str_of_container W v
  end.

(** [print(line)] *)
Definition print (line : string) : M unit :=
  fun st => (Ok tt, record_event st (EPrint line)).

(** [requests.get(endpoint, params=params, timeout=10)]: the call is made,
    and the world either raises (network error, timeout) or hands back a
    response, whatever its status. *)
Definition requests_get (endpoint : string) (params : list (string * pyval)) : M response :=
  fun st => (http_get W (trace st) endpoint params, record_event st (EGet endpoint params)).

(** Any other call into a library that returns nothing of interest. *)
Definition call (ev : event) : M unit :=
  fun st => (perform W (trace st) ev, record_event st ev).

(** [pd.read_excel(path)] *)
Definition pd_read_excel (path : string) : M DataFrame :=
  fun st => (read_excel W (trace st) path, record_event st (EReadExcel path)).

(** [response.json()] *)
Definition response_json_of (r : response) : result pyval :=
  match json_body r with
  | Some v => Ok v
  | None => Raise (ExternalError "JSONDecodeError")
  end.

(** [response.status_code], where [response] may be Python's [None]. *)
Definition status_code_of (r : option response) : result Z :=
  match r with
  | Some r => Ok (status_code r)
  | None => Raise (AttributeError "'NoneType' object has no attribute 'status_code'")
  end.

(** [response.json()], where [response] may be Python's [None]. *)
Definition json_of (r : option response) : result pyval :=
  match r with
  | Some r => response_json_of r
  | None => Raise (AttributeError "'NoneType' object has no attribute 'json'")
  end.

(** ** [get_place_api] (main.py, lines 27-51) *)

Definition find_place_endpoint : string :=
  "https://maps.googleapis.com/maps/api/place/findplacefromtext/json".

Definition find_place_params (value api_key : pyval) : list (string * pyval) :=
  [("input", value);
   ("inputtype", PStr "textquery");
   ("fields", PStr "formatted_address,name,place_id,types");
   ("key", api_key)].

(** The event that a text query for [value] leaves in the history. *)
Definition find_place_call (api_key value : pyval) : event :=
  EGet find_place_endpoint (find_place_params value api_key).

Definition get_place_api (value api_key : pyval) : M (option response) :=
  let endpoint := find_place_endpoint in
  let params := find_place_params value api_key in
  if negb (is_none value) then
    response <- requests_get endpoint params ;;
    ret (Some response)
  else
    ret None.

(** ** Candidate Resolver: [get_place_id_from_text_query] (lines 54-97) *)

Definition max_retries : nat := 3.

(** Lines 71-79: the query text of an attempt. *)
Definition query_value (row_value : Series) (retry_count : nat) : result pyval :=
  let value := PNone in
  if Nat.eqb retry_count 0 then
    series_getitem row_value "alamat_parameter"
  else if Nat.eqb retry_count 1 then
    name <- series_getitem row_value "name" ;;;
    name_comma <- py_add name (PStr ", ") ;;;
    city <- series_getitem row_value "city" ;;;
    py_add name_comma city
  else if Nat.eqb retry_count 2 then
    series_getitem row_value "address"
  else
    Ok value.

(** Lines 88-93: the scan of the candidates, over the indices that
    [range(len(...))] gave.  The result is the value of [place_id] when the
    loop is left: the identifier of the first candidate that passes the
    check (then [break]), or the value it had before. *)
Fixpoint scan_candidates (response_json place_id : pyval) (indices : list nat)
    : result pyval :=
  match indices with
  | [] => Ok place_id
  | i :: rest =>
      candidates <- getitem response_json "candidates" ;;;
      candidate <- getindex candidates i ;;;
      types <- getitem candidate "types" ;;;
      hit <- check_type_in_response types ;;;
      if (hit : bool) then
        candidates <- getitem response_json "candidates" ;;;
        candidate <- getindex candidates i ;;;
        getitem candidate "place_id"
      else
        scan_candidates response_json place_id rest
  end.

(** Lines 84-93: what an attempt makes of the response it got. *)
Definition read_candidates (response : option response) (place_id : pyval)
    : result pyval :=
  status <- status_code_of response ;;;
  if Z.eqb status 200 then
    response_json <- json_of response ;;;
    candidates <- getitem response_json "candidates" ;;;
    n <- py_len candidates ;;;
    scan_candidates response_json place_id (seq 0 n)
  else
    Ok place_id.

(** Lines 71-93: the body of the [while] loop up to the increment. *)
Definition attempt (row_value : Series) (api_key place_id : pyval) (retry_count : nat)
    : M pyval :=
  value <- lift (query_value row_value retry_count) ;;
  response <- get_place_api value api_key ;;
  lift (read_candidates response place_id).

(** Lines 70-95: the [while] loop.  It ends because [retry_count] grows by
    one in every round and is bounded by [max_retries]. *)
Equations? while_retry (row_value : Series) (api_key place_id : pyval)
    (retry_count : nat) (st : state) : result pyval * state
    by wf (max_retries - retry_count) lt :=
  while_retry row_value api_key place_id retry_count st
    with Equations.Prop.Logic.inspect (is_none place_id && Nat.ltb retry_count max_retries) := {
    | exist _ true continue with attempt row_value api_key place_id retry_count st := {
        | pair (Ok found) st' =>
            while_retry row_value api_key found (retry_count + 1) st'
        | pair (Raise e) st' => (Raise e, st') }
    | exist _ false _ => (Ok place_id, st) }.
Proof.
  apply andb_prop in continue. destruct continue as [_ Hlt].
  apply Nat.ltb_lt in Hlt. lia.
Qed.

Definition get_place_id_from_text_query (row_value : Series) (api_key : pyval) : M pyval :=
  let place_id := PNone in
  let retry_count := 0 in
  while_retry row_value api_key place_id retry_count.

(** ** Detail Fetcher: [get_place_info_from_place_id] (lines 100-122) *)

Definition details_endpoint : string :=
  "https://maps.googleapis.com/maps/api/place/details/json".

Definition details_params (place_id api_key : pyval) : list (string * pyval) :=
  [("place_id", place_id);
   ("key", api_key);
   ("fields", PStr "url,photos,geometry")].

Definition get_place_info_from_place_id (place_id api_key : pyval) : M pyval :=
  let endpoint := details_endpoint in
  let params := details_params place_id api_key in
  response <- requests_get endpoint params ;;
  response_json <- lift (response_json_of response) ;;
  ret response_json.

(** ** Image URL Deriver: [get_image_url_from_photo_preference] (lines 125-146) *)

Definition photo_endpoint : string :=
  "https://maps.googleapis.com/maps/api/place/photo".

Definition photo_params (photo_reference api_key : pyval) : list (string * pyval) :=
  [("maxwidth", PNum "400");
   ("photo_reference", photo_reference);
   ("key", api_key)].

Definition get_image_url_from_photo_preference (photo_reference api_key : pyval) : M string :=
  let endpoint := photo_endpoint in
  let params := photo_params photo_reference api_key in
  response <- requests_get endpoint params ;;
  let image_url := url response in
  ret image_url.

(** ** Persistence Sink: [check_table_exits] and [insert_data] (lines 149-193) *)

(** The statement of lines 157-169, written on one line. *)
Definition create_table_query : string :=
  "CREATE TABLE IF NOT EXISTS public.list_rumah_sakit (id int8 NULL, province varchar(255) NULL, city varchar(255) NULL, name text NULL, address text NULL, map_url text NULL, latitude varchar(255) NULL, longitude varchar(255) NULL, image_url text NULL);".

(** The two arguments are objects that [main] has already bound. *)
Definition check_table_exits (connection cursor : db_object) : M unit :=
  call (EExecute create_table_query) ;;
  call ECommit.

Definition insert_data (data_frame : DataFrame) (db_url : string) : M unit :=
  let table_name := "list_rumah_sakit" in
  call (ECreateEngine db_url) ;;
  call (EToSql table_name data_frame).

(** ** Enrichment Pipeline: [main] (lines 196-290) *)

(** A missing cell, as pandas sees it ([isna]): [None] or NaN. *)
Definition is_missing (v : pyval) : bool :=
  match v with
  | PNone => true
  | PNum text => String.eqb text "nan"
  | _ => false
  end.

(** NaN, which is what pandas puts where a value is missing. *)
Definition missing : pyval := PNum "nan".

(** [series.astype(str)]: every cell becomes its [str()], except that a
    pandas which keeps missing cells missing leaves NaN there. *)
Definition astype_str (cells : list pyval) : list pyval :=
  map (fun v => if missing_stays_missing W && is_missing v then missing
                else PStr (py_str v)) cells.

Fixpoint result_all {A} (rs : list (result A)) : result (list A) :=
  match rs with
  | [] => Ok []
  | r :: rest => a <- r ;;; others <- result_all rest ;;; Ok (a :: others)
  end.

(** [series + scalar] and [series + series], cell by cell; pandas skips the
    missing cells, which stay missing.  The two series come from the same
    frame, so they have the same index. *)
Definition series_add_scalar (cells : list pyval) (v : pyval) : result (list pyval) :=
  result_all (map (fun c => if is_missing c then Ok missing else py_add c v) cells).

Definition series_add (cells others : list pyval) : result (list pyval) :=
  result_all (zip_with (fun c o => if is_missing c || is_missing o then Ok missing
                                   else py_add c o) cells others).

(** [data_frame.at[index, label] = v] on the frame that [main] holds. *)
Definition at_assign (index : nat) (label : string) (v : pyval) : M unit :=
  fun st => (Ok tt, with_data_frame st (at_set (data_frame st) index label v)).

(** Lines 212-223: the derived query string and the five empty columns. *)
Definition add_working_columns (df : DataFrame) : result DataFrame :=
  name <- df_getitem df "name" ;;;
  name_comma <- series_add_scalar (astype_str name) (PStr ", ") ;;;
  address <- df_getitem df "address" ;;;
  name_address <- series_add name_comma (astype_str address) ;;;
  name_address_comma <- series_add_scalar name_address (PStr ", ") ;;;
  city <- df_getitem df "city" ;;;
  alamat_parameter <- series_add name_address_comma (astype_str city) ;;;
  let df := df_setitem df "alamat_parameter" alamat_parameter in
  let df := df_setitem_scalar df "place_id" (PStr "") in
  let df := df_setitem_scalar df "map_url" (PStr "") in
  let df := df_setitem_scalar df "latitude" (PStr "") in
  let df := df_setitem_scalar df "longitude" (PStr "") in
  let df := df_setitem_scalar df "image_url" (PStr "") in
  Ok df.

(** Lines 237-246: the four values read out of the detail payload. *)
Definition extract_url (place_result : pyval) : result pyval :=
  result <- getitem place_result "result" ;;;
  getitem result "url".

Definition extract_coordinate (place_result : pyval) (axis : string) : result pyval :=
  result <- getitem place_result "result" ;;;
  geometry <- getitem result "geometry" ;;;
  location <- getitem geometry "location" ;;;
  getitem location axis.

Definition extract_photo_reference (place_result : pyval) : result pyval :=
  result <- getitem place_result "result" ;;;
  photos <- getitem result "photos" ;;;
  first <- getindex photos 0 ;;;
  getitem first "photo_reference".

(** Lines 228-249: the body of the [try] block for one row. *)
Definition enrich_row (api_key : pyval) (index : nat) (row : Series) : M unit :=
  name <- lift (series_getitem row "name") ;;
  print ("Processing address at index " ++ pretty index ++ ": " ++ py_str name) ;;
  found <- get_place_id_from_text_query row api_key ;;
  let place_id := PStr (py_str found) in
  at_assign index "place_id" place_id ;;
  place_result <- get_place_info_from_place_id place_id api_key ;;
  map_url <- lift (extract_url place_result) ;;
  at_assign index "map_url" (PStr (py_str map_url)) ;;
  lat <- lift (extract_coordinate place_result "lat") ;;
  at_assign index "latitude" (PStr (py_str lat)) ;;
  lng <- lift (extract_coordinate place_result "lng") ;;
  at_assign index "longitude" (PStr (py_str lng)) ;;
  photo_reference <- lift (extract_photo_reference place_result) ;;
  image_url <- get_image_url_from_photo_preference photo_reference api_key ;;
  at_assign index "image_url" (PStr image_url).

(** Lines 227-253: one round of the [for] loop, with its [try]/[except]. *)
Definition process_row (api_key : pyval) (item : nat * Series) : M unit :=
  let index := fst item in
  let row := snd item in
  try_except
    (enrich_row api_key index row)
    (fun error =>
       print ("Error processing address at index " ++ pretty index ++ ": "
              ++ str_of_exn W error)).

(** Lines 226-253: the [for] loop over [data_frame.iterrows()]. *)
Definition enrich_all (api_key : pyval) : M unit :=
  data_frame <- get_data_frame ;;
  for_in (iterrows data_frame) (process_row api_key).

Definition columns_to_delete : list string :=
  ["alamat_parameter"; "place_id"].

(** Lines 267-287: the database step with its [try]/[except]/[finally]. *)
Definition persist (db_url : string) : M unit :=
  try_finally
    (try_except
       (call (EConnect db_url) ;;
        (fun st => (Ok tt, with_connection st ConnectionObject)) ;;
        call ECursor ;;
        (fun st => (Ok tt, with_cursor st CursorObject)) ;;
        the_connection <- read_local "connection" connection ;;
        the_cursor <- read_local "cursor" cursor ;;
        check_table_exits the_connection the_cursor ;;
        data_frame <- get_data_frame ;;
        insert_data data_frame db_url)
       (fun error =>
          print ("Error while connecting to PostgreSQL: " ++ str_of_exn W error)))
    (the_cursor <- read_local "cursor" cursor ;;
     call ECursorClose ;;
     the_connection <- read_local "connection" connection ;;
     call EConnectionClose).

Definition main : M unit :=
  let api_key := getenv W "KEY" in
  let host_db := getenv W "DATABASE_HOST" in
  let name_db := getenv W "DATABASE_NAME" in
  let user_db := getenv W "DATABASE_USER" in
  let password_db := getenv W "DATABASE_PASSWORD" in
  data_frame <- pd_read_excel "list-provider.xlsx" ;;
  data_frame <- lift (add_working_columns data_frame) ;;
  set_data_frame data_frame ;;
  print "Mulai untuk mendapatkan latitude, longitude, google maps url & image url" ;;
  enrich_all api_key ;;
  print "Selesai mendapatkan latitude, longitude, google maps url & image url" ;;
  data_frame <- get_data_frame ;;
  call (EToExcel "output_file_selesai_belum.xlsx" data_frame) ;;
  data_frame <- lift (drop_columns data_frame columns_to_delete) ;;
  set_data_frame data_frame ;;
  let db_url : string :=
    ("postgresql://" ++ py_str user_db ++ ":" ++ py_str password_db
     ++ "@" ++ py_str host_db ++ "/" ++ py_str name_db)%string in
  persist db_url ;;
  data_frame <- get_data_frame ;;
  call (EToExcel "list-provider-end.xlsx" data_frame).

End Script.


(** * Vocabulary of the properties *)

(** ** The classifier *)

(** What the specification says the classifier tests: some label contains
    one of the recognised words as a substring. *)
Definition claimed_substring_match (labels : list string) : Prop :=
  exists label word, In label labels /\ In word type_options /\
                     str_contains word label = true.

(** What the code tests: some label is one of the recognised words. *)
Definition exact_match (labels : list string) : Prop :=
  exists label, In label labels /\ In label type_options.

(** [check_type_in_response(candidate["types"])], the test of line 91. *)
Definition qualifies (candidate : pyval) : result bool :=
  types <- getitem candidate "types" ;;;
  check_type_in_response types.

(** ** The resolver *)

(** What one attempt of the resolver yields when it queries [value] after
    the events [t]: the world's answer, read by lines 84-93. *)
Definition verdict (W : World) (api_key : pyval) (t : list event) (value : pyval)
    : result pyval :=
  response <- http_get W t find_place_endpoint (find_place_params value api_key) ;;;
  read_candidates (Some response) PNone.

(** A row of the data model: the three input fields are strings, and the
    derived column holds [alamat]. *)
Definition string_row (row : Series) (alamat name address city : string) : Prop :=
  series_getitem row "alamat_parameter" = Ok (PStr alamat) /\
  series_getitem row "name" = Ok (PStr name) /\
  series_getitem row "address" = Ok (PStr address) /\
  series_getitem row "city" = Ok (PStr city).

(** The derived query string of line 212, as Python builds it from left to
    right. *)
Definition alamat_of (name address city : string) : string :=
  (((name ++ ", ") ++ address) ++ ", ") ++ city.

(** The cells of a series after [astype(str)]: a text, or nothing where the
    cell is missing and stays so. *)
Definition render (W : World) (v : pyval) : option string :=
  if missing_stays_missing W && is_missing v then None else Some (py_str W v).

Definition cell_of (text : option string) : pyval :=
  match text with
  | Some s => PStr s
  | None => missing
  end.

(** The sum of two such cells. *)
Definition join (a b : option string) : option string :=
  match a, b with
  | Some s, Some t => Some (String.append s t)
  | _, _ => None
  end.

(** Line 212, cell by cell, in the order in which Python adds. *)
Definition derived_text (W : World) (name address city : pyval) : option string :=
  join (join (join (join (render W name) (Some ", ")) (render W address)) (Some ", "))
       (render W city).

(** The three query texts of a row, in the order of the attempts. *)
Definition query_texts (alamat name address city : string) : list pyval :=
  [PStr alamat; PStr ((name ++ ", ") ++ city); PStr address].

(** A response in which the resolver finds nothing to accept: a status other
    than 200, or a well-formed candidate list in which no candidate passes
    the classifier. *)
Definition no_qualifying_candidate (r : response) : Prop :=
  status_code r <> 200%Z \/
  exists body candidates,
    json_body r = Some body /\
    getitem body "candidates" = Ok (PList candidates) /\
    Forall (fun c => qualifies c = Ok false) candidates.

(** ** What a statement may change *)

(** A statement [m] keeps the relation [R] between the state it starts in
    and the state it ends in, whether it returns or raises. *)
Definition preserves {A} (R : state -> state -> Prop) (m : M A) : Prop :=
  forall st, R st (snd (m st)).

Definition console_or_http (ev : event) : Prop :=
  match ev with
  | EPrint _ | EGet _ _ => True
  | _ => False
  end.

(** Only lines on the console and HTTP requests were added to the history;
    the table and the handles are as they were. *)
Definition quiet (st st' : state) : Prop :=
  exists evs, st' = with_trace st (trace st ++ evs) /\ Forall console_or_http evs.

(** The five columns that the loop fills. *)
Definition output_columns : list string :=
  ["place_id"; "map_url"; "latitude"; "longitude"; "image_url"].

Definition output_cells (df : DataFrame) (index : nat) : list (option pyval) :=
  map (cell_at df index) output_columns.

(** As [quiet], except that the output cells of the rows in [rows] may have
    been assigned: the table has the same rows and columns, and every other
    cell is as it was. *)
Definition touches (rows : nat -> Prop) (st st' : state) : Prop :=
  connection st' = connection st /\
  cursor st' = cursor st /\
  (exists evs, trace st' = trace st ++ evs /\ Forall console_or_http evs) /\
  nrows (data_frame st') = nrows (data_frame st) /\
  column_names (data_frame st') = column_names (data_frame st) /\
  forall i c, ~ rows i \/ ~ In c output_columns ->
              cell_at (data_frame st') i c = cell_at (data_frame st) i c.

(** ** The stages of a row *)

(** Line 228: the progress line of a row. *)
Definition progress_line (W : World) (index : nat) (name : pyval) : event :=
  EPrint ("Processing address at index " ++ pretty index ++ ": " ++ py_str W name).

(** The first line that the loop prints for a row: the progress line, or
    the error line when the row has no name to print. *)
Definition row_banner (W : World) (item : nat * Series) : event :=
  match series_getitem (snd item) "name" with
  | Ok name => progress_line W (fst item) name
  | Raise e =>
      EPrint ("Error processing address at index " ++ pretty (fst item) ++ ": "
              ++ str_of_exn W e)
  end.

(** What the detail fetch of [place_id] yields after the events [t]. *)
Definition detail_answer (W : World) (api_key : pyval) (t : list event) (place_id : string)
    : result pyval :=
  response <- http_get W t details_endpoint (details_params (PStr place_id) api_key) ;;;
  response_json_of response.

(** What the photo request yields when it follows that detail fetch. *)
Definition image_answer (W : World) (api_key : pyval) (t : list event) (place_id : string)
    (photo_reference : pyval) : result string :=
  response <- http_get W (t ++ [EGet details_endpoint (details_params (PStr place_id) api_key)])
                       photo_endpoint (photo_params photo_reference api_key) ;;;
  Ok (url response).

(** The texts that the five stages of a row compute for place_id, map_url,
    latitude, longitude and image_url, given the outcome of the resolution
    and the state it ended in; a stage that cannot be reached or that fails
    is a fault. *)
Definition stage_values (W : World) (api_key : pyval) (resolved : result pyval * state)
    : list (result string) :=
  let t := trace (snd resolved) in
  let place_id := found <- fst resolved ;;; Ok (py_str W found) in
  let detail := pid <- place_id ;;; detail_answer W api_key t pid in
  [ place_id;
    (d <- detail ;;; v <- extract_url d ;;; Ok (py_str W v));
    (d <- detail ;;; v <- extract_coordinate d "lat" ;;; Ok (py_str W v));
    (d <- detail ;;; v <- extract_coordinate d "lng" ;;; Ok (py_str W v));
    (pid <- place_id ;;; d <- detail ;;; ref <- extract_photo_reference d ;;;
     image_answer W api_key t pid ref) ].

(** The fault with which a row's [try] block ends, if a stage raises. *)
Fixpoint first_fault (stages : list (result string)) : result unit :=
  match stages with
  | [] => Ok tt
  | Ok _ :: rest => first_fault rest
  | Raise e :: _ => Raise e
  end.

(** Cells that start empty: the values of the stages up to the first fault,
    and the empty string from there on. *)
Fixpoint fill (stages : list (result string)) : list pyval :=
  match stages with
  | [] => []
  | Ok v :: rest => PStr v :: fill rest
  | Raise _ :: rest => replicate (S (length rest)) (PStr "")
  end.

(** The same for any cells: a stage that succeeded has written its value
    into the cell (if the cell exists), and from the first stage that raised
    on, the cells are as they were. *)
Fixpoint overwrite (cells : list (option pyval)) (stages : list (result string))
    : list (option pyval) :=
  match cells, stages with
  | c :: cells', Ok v :: stages' =>
      match c with Some _ => Some (PStr v) | None => None end :: overwrite cells' stages'
  | _, _ => cells
  end.

(** The photo reference that line 246 reads, when the stages before it
    succeed. *)
Definition photo_stage (W : World) (api_key : pyval) (resolved : result pyval * state)
    : result pyval :=
  found <- fst resolved ;;;
  d <- detail_answer W api_key (trace (snd resolved)) (py_str W found) ;;;
  _ <- extract_url d ;;;
  _ <- extract_coordinate d "lat" ;;;
  _ <- extract_coordinate d "lng" ;;;
  extract_photo_reference d.

(** The calls that follow the resolution of a row. *)
Definition stage_calls (W : World) (api_key : pyval) (resolved : result pyval * state)
    : list event :=
  match fst resolved with
  | Ok found =>
      EGet details_endpoint (details_params (PStr (py_str W found)) api_key) ::
      match photo_stage W api_key resolved with
      | Ok ref => [EGet photo_endpoint (photo_params ref api_key)]
      | Raise _ => []
      end
  | Raise _ => []
  end.

(** The state in which the loop reaches row [i]. *)
Definition state_before_row (W : World) (api_key : pyval) (st : state) (i : nat) : state :=
  snd (for_in (take i (iterrows (data_frame st))) (process_row W api_key) st).

(** The resolution of row [i] as the loop runs it: after the rows before it,
    and after the progress line of the row. *)
Definition resolution_of (W : World) (api_key : pyval) (st : state) (i : nat) (name : pyval)
    : result pyval * state :=
  get_place_id_from_text_query W (row_of (data_frame st) i) api_key
    (record_event (state_before_row W api_key st i) (progress_line W i name)).

(** ** The whole run *)

Definition input_file : string := "list-provider.xlsx".

Definition first_snapshot : string := "output_file_selesai_belum.xlsx".

Definition final_export : string := "list-provider-end.xlsx".

(** Line 268: the connection string. *)
Definition db_url_of (W : World) : string :=
  "postgresql://" ++ py_str W (getenv W "DATABASE_USER") ++ ":"
  ++ py_str W (getenv W "DATABASE_PASSWORD") ++ "@"
  ++ py_str W (getenv W "DATABASE_HOST") ++ "/" ++ py_str W (getenv W "DATABASE_NAME").

(** The state in which [main] enters the loop, once the table is read and
    prepared. *)
Definition loop_start (st : state) (prepared : DataFrame) : state :=
  record_event
    (with_data_frame (record_event st (EReadExcel input_file)) prepared)
    (EPrint "Mulai untuk mendapatkan latitude, longitude, google maps url & image url").

(** The state in which [main] writes the first spreadsheet. *)
Definition loop_end (W : World) (st : state) (prepared : DataFrame) : state :=
  record_event (snd (enrich_all W (getenv W "KEY") (loop_start st prepared)))
    (EPrint "Selesai mendapatkan latitude, longitude, google maps url & image url").

(** The events of the database step: whatever is appended to the table is
    the frame [df], and no spreadsheet is read or written. *)
Definition persist_event (df : DataFrame) (ev : event) : Prop :=
  match ev with
  | EToSql _ d => d = df
  | EToExcel _ _ | EReadExcel _ | EGet _ _ => False
  | _ => True
  end.

(** Events that neither write a spreadsheet nor touch the database. *)
Definition harmless (ev : event) : Prop :=
  match ev with
  | EPrint _ | EGet _ _ | EReadExcel _ => True
  | _ => False
  end.

(** Events that come after the pruning: a frame that is appended or written
    is the pruned one, and the only spreadsheet written is the final one. *)
Definition after_drop (dropped : DataFrame) (ev : event) : Prop :=
  match ev with
  | EToSql _ d => d = dropped
  | EToExcel path d => path = final_export /\ d = dropped
  | EReadExcel _ | EGet _ _ => False
  | _ => True
  end.

(** The events of a run of [main]: it ends before the first spreadsheet, or
    it writes the enriched table there and ends, or it goes on with the
    pruned table. *)
Definition main_shape (evs : list event) : Prop :=
  Forall harmless evs \/
  exists pre enriched post,
    evs = pre ++ EToExcel first_snapshot enriched :: post /\
    Forall harmless pre /\
    (post = [] \/
     exists dropped,
       drop_columns enriched columns_to_delete = Ok dropped /\
       Forall (after_drop dropped) post).

(** * Sample runs *)

(** Concrete tables and worlds on which the properties below are
    exercised. *)
Module Sample.

(** Two providers; the first is the one of the end-to-end scenario. *)
Definition input : DataFrame :=
  {| nrows := 2;
     columns :=
       [("id", [PNum "1"; PNum "2"]);
        ("province", [PStr "DKI Jakarta"; PStr "Jawa Barat"]);
        ("city", [PStr "Jakarta"; PStr "Bandung"]);
        ("name", [PStr "Klinik Sehat"; PStr "Apotek Sejahtera"]);
        ("address", [PStr "Jl. Mawar 1"; PStr "Jl. Melati 2"])] |}.

Definition environment (name : string) : pyval :=
  match assoc_lookup name
          [("KEY", "test-key"); ("DATABASE_HOST", "localhost");
           ("DATABASE_NAME", "providers"); ("DATABASE_USER", "etl");
           ("DATABASE_PASSWORD", "secret")] with
  | Some v => PStr v
  | None => PNone
  end.

Definition render_exn (e : exn) : string :=
  match e with
  | KeyError key => "'" ++ key ++ "'"
  | IndexError => "list index out of range"
  | TypeError what | AttributeError what | ExternalError what => what
  | UnboundLocalError var => "local variable '" ++ var ++ "' referenced before assignment"
  end.

(** A world that answers each endpoint in a fixed way, whatever happened
    before, with a pandas that renders missing cells as text. *)
Definition world (find details photo : result response) (db : event -> result unit)
    : World :=
  {| getenv := environment;
     http_get := fun _ endpoint _ =>
       if String.eqb endpoint find_place_endpoint then find
       else if String.eqb endpoint details_endpoint then details
       else photo;
     read_excel := fun _ _ => Ok input;
     perform := fun _ ev => db ev;
     str_of_container := fun _ => "[...]";
     str_of_exn := render_exn;
     missing_stays_missing := false |}.

Definition ok_json (body : pyval) : result response :=
  Ok {| status_code := 200; json_body := Some body; url := "" |}.

Definition candidate (place_id : string) (types : list string) : pyval :=
  PDict [("formatted_address", PStr "Jakarta"); ("name", PStr "Klinik");
         ("place_id", PStr place_id); ("types", PList (map PStr types))].

(** One candidate that passes the classifier, after one that does not. *)
Definition found : result response :=
  ok_json (PDict [("candidates", PList [candidate "ChIJ-shop" ["store"; "point_of_interest"];
                                        candidate "ChIJ-klinik" ["health"]]);
                  ("status", PStr "OK")]).

(** Candidates, none of which passes the classifier. *)
Definition not_found : result response :=
  ok_json (PDict [("candidates", PList [candidate "ChIJ-gigi" ["dentist_office"]]);
                  ("status", PStr "OK")]).

Definition timeout : result response := Raise (ExternalError "ReadTimeout").

Definition detail (photos : list pyval) : result response :=
  ok_json (PDict [("result",
                   PDict [("url", PStr "https://maps.google.com/?cid=1");
                          ("geometry",
                           PDict [("location",
                                   PDict [("lat", PNum "-6.2"); ("lng", PNum "106.8")])]);
                          ("photos", PList photos)]);
                  ("status", PStr "OK")]).

Definition image : result response :=
  Ok {| status_code := 200; json_body := None;
        url := "https://maps.googleapis.com/maps/api/place/photo?maxwidth=400&photo_reference=abc&key=test-key" |}.

Definition db_up (ev : event) : result unit := Ok tt.

Definition db_down (ev : event) : result unit :=
  match ev with
  | EConnect _ => Raise (ExternalError "connection refused")
  | _ => Ok tt
  end.

(** Everything works. *)
Definition happy : World :=
  world found (detail [PDict [("photo_reference", PStr "abc")]]) image db_up.

(** No text query finds a health-care place. *)
Definition nothing_found : World :=
  world not_found (detail [PDict [("photo_reference", PStr "abc")]]) image db_up.

(** The text queries time out. *)
Definition unreachable : World := world timeout timeout timeout db_up.

(** The detail request times out. *)
Definition detail_down : World := world found timeout image db_up.

(** The place has no photo. *)
Definition no_photo : World := world found (detail []) image db_up.

(** The database refuses the connection. *)
Definition database_down : World :=
  world found (detail [PDict [("photo_reference", PStr "abc")]]) image db_down.

(** The state in which [main] starts: nothing has happened, and the locals
    are unbound. *)
Definition start : state :=
  {| trace := []; data_frame := {| nrows := 0; columns := [] |};
     connection := None; cursor := None |}.

(** The table as [main] prepares it (lines 212-223). *)
Definition prepared (W : World) : DataFrame :=
  match add_working_columns W input with
  | Ok df => df
  | Raise _ => input
  end.

(** The state in which the loop starts. *)
Definition at_loop (W : World) : state := loop_start start (prepared W).

Definition api_key : pyval := environment "KEY".

(** The table that [main] holds when it ends. *)
Definition exported (W : World) : DataFrame := data_frame (snd (main W start)).

End Sample.

(** * Vocabulary of the further properties *)

(** [word] occurs somewhere inside [text]. *)
Definition occurs_in (word text : string) : Prop :=
  exists before after, text = String.append before (String.append word after).

(** The calls of [requests.get] among some events.  (One call may be more
    than one HTTP request on the wire: [requests] follows redirects.) *)
Definition is_request (ev : event) : bool :=
  match ev with
  | EGet _ _ => true
  | _ => false
  end.

Definition requests (evs : list event) : list event := List.filter is_request evs.

(** The calls of [requests.get] on one endpoint. *)
Definition calls_to (endpoint : string) (evs : list event) : list event :=
  List.filter (fun ev => match ev with
                         | EGet target _ => String.eqb target endpoint
                         | _ => false
                         end) evs.

(** What [rows] rows may cost: three text queries, one detail request and
    one photo request each, and no other call of [requests.get]. *)
Definition within_budget (rows : nat) (evs : list event) : Prop :=
  length (calls_to "https://maps.googleapis.com/maps/api/place/findplacefromtext/json" evs)
    <= 3 * rows /\
  length (calls_to "https://maps.googleapis.com/maps/api/place/details/json" evs) <= rows /\
  length (calls_to "https://maps.googleapis.com/maps/api/place/photo" evs) <= rows /\
  length (requests evs) <= 5 * rows.

(** Lines 271-277 and 190-193: the calls of the database step before the
    cleanup, in the order of the source, for the frame [df] that is
    appended. *)
Definition database_steps (db_url : string) (df : DataFrame) : list event :=
  [EConnect db_url; ECursor; EExecute create_table_query; ECommit;
   ECreateEngine db_url; EToSql "list_rumah_sakit" df].

(** Lines 212-223: the three columns that the preparation reads. *)
Definition input_columns : list string := ["name"; "address"; "city"].

(** The columns that the preparation adds, in the order of lines 212-223. *)
Definition added_columns : list string := "alamat_parameter" :: output_columns.


(** The calls of [main] whose fault no handler catches. *)
Definition unguarded (ev : event) : Prop :=
  match ev with
  | EToExcel _ _ | ECursorClose | EConnectionClose => True
  | _ => False
  end.

(** The ways in which the run of [main] from [st] can end with the fault
    [e], each of them a fact about what the world answered in this run: the
    input file could not be read; the table that was read lacks one of the
    three input columns, and [e] is the [KeyError] of the first one it
    lacks; the last call of the run was the writing of a spreadsheet or the
    closing of a handle, and it raised [e]; or the connection or the cursor
    could not be made, the handler printed its line, and [e] is the fault of
    the cleanup reading the cursor that was never assigned. *)
Definition main_fault (W : World) (st : state) (e : exn) : Prop :=
  let t := trace (snd (main W st)) in
  read_excel W (trace st) input_file = Raise e \/
  (exists df0 before c after,
      read_excel W (trace st) input_file = Ok df0 /\
      input_columns = before ++ c :: after /\
      (forall b, In b before -> In b (column_names df0)) /\
      ~ In c (column_names df0) /\
      e = KeyError c) \/
  (exists pre ev, t = pre ++ [ev] /\ unguarded ev /\ perform W pre ev = Raise e) \/
  (e = UnboundLocalError "cursor" /\
   exists pre ev cause,
     t = pre ++ [ev; EPrint ("Error while connecting to PostgreSQL: " ++ str_of_exn W cause)] /\
     (ev = EConnect (db_url_of W) \/ ev = ECursor) /\
     perform W pre ev = Raise cause).

(** ** Further sample runs *)

Module Edge.

(** A provider whose name cell is empty in the spreadsheet: pandas reads it
    as NaN. *)
Definition nameless : DataFrame :=
  {| nrows := 1;
     columns :=
       [("id", [PNum "7"]);
        ("province", [PStr "Banten"]);
        ("city", [PStr "Serang"]);
        ("name", [PNum "nan"]);
        ("address", [PStr "Jl. Kenanga 3"])] |}.

(** A table without rows, and one without the city column. *)
Definition no_rows : DataFrame :=
  {| nrows := 0;
     columns := [("id", []); ("province", []); ("city", []); ("name", []); ("address", [])] |}.

Definition no_city : DataFrame :=
  {| nrows := 1;
     columns := [("name", [PStr "Klinik Sehat"]); ("address", [PStr "Jl. Mawar 1"])] |}.

(** The table as [main] prepares it (lines 212-223). *)
Definition prepare (W : World) (df : DataFrame) : DataFrame :=
  match add_working_columns W df with
  | Ok df1 => df1
  | Raise _ => df
  end.

(** The row of the provider without a name, as the loop sees it. *)
Definition nameless_row (W : World) : Series := row_of (prepare W nameless) 0.

(** The sample world with another input file. *)
Definition reading (df : DataFrame) (W : World) : World :=
  {| getenv := getenv W;
     http_get := http_get W;
     read_excel := fun _ _ => Ok df;
     perform := perform W;
     str_of_container := str_of_container W;
     str_of_exn := str_of_exn W;
     missing_stays_missing := missing_stays_missing W |}.

(** The sample world with a pandas that keeps missing cells missing. *)
Definition keeping_missing (W : World) : World :=
  {| getenv := getenv W;
     http_get := http_get W;
     read_excel := read_excel W;
     perform := perform W;
     str_of_container := str_of_container W;
     str_of_exn := str_of_exn W;
     missing_stays_missing := true |}.

(** A row as the resolver may be handed one: without the derived column,
    and with [None] in it. *)
Definition bare_row : Series :=
  [("name", PStr "Klinik Sehat"); ("address", PStr "Jl. Mawar 1"); ("city", PStr "Jakarta")].

Definition none_row : Series := ("alamat_parameter", PNone) :: bare_row.

(** A candidate without its list of types, before one that would pass. *)
Definition untyped_first : result response :=
  Sample.ok_json
    (PDict [("candidates",
             PList [PDict [("place_id", PStr "ChIJ-x")];
                    Sample.candidate "ChIJ-klinik" ["health"]]);
            ("status", PStr "OK")]).

Definition untyped : World :=
  Sample.world untyped_first Sample.timeout Sample.timeout Sample.db_up.

(** A database in which one call fails and every other succeeds. *)
Definition db_failing (bad : event -> bool) (ev : event) : result unit :=
  if bad ev then Raise (ExternalError "OperationalError") else Ok tt.

Definition is_execute (ev : event) : bool :=
  match ev with
  | EExecute _ => true
  | _ => false
  end.

Definition is_cursor_close (ev : event) : bool :=
  match ev with
  | ECursorClose => true
  | _ => false
  end.

Definition is_snapshot (ev : event) : bool :=
  match ev with
  | EToExcel path _ => String.eqb path first_snapshot
  | _ => false
  end.

(** The table cannot be created; the cursor cannot be closed; the first
    spreadsheet cannot be written. *)
Definition no_table : World :=
  Sample.world Sample.found (Sample.detail [PDict [("photo_reference", PStr "abc")]])
    Sample.image (db_failing is_execute).

Definition stuck_cursor : World :=
  Sample.world Sample.found (Sample.detail [PDict [("photo_reference", PStr "abc")]])
    Sample.image (db_failing is_cursor_close).

Definition disk_full : World :=
  Sample.world Sample.found (Sample.detail [PDict [("photo_reference", PStr "abc")]])
    Sample.image (db_failing is_snapshot).

End Edge.

(** * Properties *)

(** ** Type Classifier *)

Lemma py_any_in_list (items : list pyval) (options : list string) :
  py_any (fun o => py_in o (PList items)) options =
  Ok (existsb (fun o => existsb (str_eq_val o) items) options).
Proof.
  induction options as [|o rest IH]; simpl; [reflexivity|].
  destruct (existsb (str_eq_val o) items); simpl; [reflexivity|exact IH].
Qed.

Lemma existsb_str_eq_val (o : string) (labels : list string) :
  existsb (str_eq_val o) (map PStr labels) = true <-> In o labels.
Proof.
  rewrite existsb_exists. split.
  - intros [v [Hin Heq]]. apply in_map_iff in Hin as [l [<- Hl]].
    simpl in Heq. apply String.eqb_eq in Heq. subst. exact Hl.
  - intros Hin. exists (PStr o). split.
    + apply in_map. exact Hin.
    + simpl. apply String.eqb_refl.
Qed.

(** C1 (as the code has it): on a list of labels the classifier never
    raises; it answers true exactly when some label is equal to one of
    health, hospital, pharmacy, dentist, and false otherwise, so it answers
    false on the empty list. *)
Theorem check_type_in_response_exact (labels : list string) :
  (check_type_in_response (PList (map PStr labels)) = Ok true <-> exact_match labels) /\
  (check_type_in_response (PList (map PStr labels)) = Ok false <-> ~ exact_match labels) /\
  check_type_in_response (PList []) = Ok false.
Proof.
  assert (Hexact : existsb (fun o => existsb (str_eq_val o) (map PStr labels)) type_options
                   = true <-> exact_match labels).
  { rewrite existsb_exists. split.
    - intros [o [Ho Hex]]. exists o. split; [|exact Ho].
      apply existsb_str_eq_val. exact Hex.
    - intros [l [Hl Ho]]. exists l. split; [exact Ho|].
      apply existsb_str_eq_val. exact Hl. }
  unfold check_type_in_response. rewrite py_any_in_list.
  destruct (existsb (fun o => existsb (str_eq_val o) (map PStr labels)) type_options).
  - repeat split; try reflexivity.
    + intros _. apply Hexact. reflexivity.
    + discriminate.
    + intros Hno. exfalso. apply Hno, Hexact. reflexivity.
  - repeat split; try reflexivity.
    + discriminate.
    + intros Hyes. apply Hexact in Hyes. discriminate.
    + intros _ Hyes. apply Hexact in Hyes. discriminate.
Qed.

(** C1 (as stated) fails: the label dentist_office contains dentist, yet the
    classifier answers false on it. *)
Lemma check_type_in_response_not_substring :
  claimed_substring_match ["dentist_office"] /\
  check_type_in_response (PList (map PStr ["dentist_office"])) = Ok false.
Proof.
  split; [|reflexivity].
  exists "dentist_office", "dentist". simpl. repeat split; auto.
Qed.

(** ** Data frames *)

(** The row of a prepared table that the resolver receives. *)

Lemma lookup_map {A B} (f : A -> B) (l : list A) (i : nat) :
  map f l !! i = f <$> (l !! i).
Proof. revert i. induction l as [|x l IH]; intros [|i]; simpl; auto. Qed.

Lemma zip_with_lookup_Some {A B C} (f : A -> B -> C) l k i x y :
  l !! i = Some x -> k !! i = Some y -> zip_with f l k !! i = Some (f x y).
Proof. intros Hl Hk. rewrite lookup_zip_with, Hl, Hk. reflexivity. Qed.

Lemma assoc_lookup_set_column_eq label cells cols :
  assoc_lookup label (set_column label cells cols) = Some cells.
Proof.
  induction cols as [|[k old] rest IH]; simpl.
  - rewrite String.eqb_refl. reflexivity.
  - destruct (String.eqb_spec k label) as [->|Hne]; simpl.
    + rewrite String.eqb_refl. reflexivity.
    + destruct (String.eqb_spec label k) as [->|_]; [contradiction|exact IH].
Qed.

Lemma assoc_lookup_set_column_ne label other cells cols :
  other <> label ->
  assoc_lookup other (set_column label cells cols) = assoc_lookup other cols.
Proof.
  intros Hne. induction cols as [|[k old] rest IH]; simpl.
  - destruct (String.eqb_spec other label); [contradiction|reflexivity].
  - destruct (String.eqb_spec k label) as [->|Hk]; simpl.
    + destruct (String.eqb_spec other label); [contradiction|reflexivity].
    + destruct (String.eqb_spec other k); [reflexivity|exact IH].
Qed.

Lemma assoc_lookup_row_of df index label :
  assoc_lookup label (row_of df index) =
  (fun cells => default PNone (cells !! index)) <$> assoc_lookup label (columns df).
Proof.
  unfold row_of. induction (columns df) as [|[k cells] rest IH]; simpl; [reflexivity|].
  destruct (String.eqb label k); [reflexivity|exact IH].
Qed.

Lemma series_add_scalar_cells texts t :
  series_add_scalar (map cell_of texts) (PStr t) =
  Ok (map cell_of (map (fun text => join text (Some t)) texts)).
Proof.
  unfold series_add_scalar. induction texts as [|[s|] texts IH]; simpl; [reflexivity| |];
    rewrite IH; reflexivity.
Qed.

Lemma series_add_cells texts others :
  series_add (map cell_of texts) (map cell_of others) =
  Ok (map cell_of (zip_with join texts others)).
Proof.
  unfold series_add. revert others.
  induction texts as [|[s|] texts IH]; intros [|[t|] others]; simpl; try reflexivity;
    rewrite IH; reflexivity.
Qed.

Lemma astype_str_map W cells : astype_str W cells = map cell_of (map (render W) cells).
Proof.
  unfold astype_str, render. rewrite map_map. apply map_ext. intros v.
  destruct (missing_stays_missing W && is_missing v); reflexivity.
Qed.

Lemma render_text W s : render W (PStr s) = Some s.
Proof. unfold render. cbn. rewrite andb_false_r. reflexivity. Qed.

Lemma cell_at_getitem df i label v :
  cell_at df i label = Some v ->
  exists cells,
    df_getitem df label = Ok cells /\ cells !! i = Some v /\
    assoc_lookup label (columns df) = Some cells.
Proof.
  unfold cell_at, df_getitem.
  destruct (assoc_lookup label (columns df)) as [cells|]; [|discriminate].
  intros H. exists cells. auto.
Qed.

(** Lines 212-218: the row that [iterrows] yields from the prepared table
    holds the three input cells as they were read, and the derived cell
    built from them. *)
Lemma prepared_cells W df df' i name address city :
  add_working_columns W df = Ok df' ->
  cell_at df i "name" = Some name ->
  cell_at df i "address" = Some address ->
  cell_at df i "city" = Some city ->
  series_getitem (row_of df' i) "alamat_parameter" =
    Ok (cell_of (derived_text W name address city)) /\
  series_getitem (row_of df' i) "name" = Ok name /\
  series_getitem (row_of df' i) "address" = Ok address /\
  series_getitem (row_of df' i) "city" = Ok city.
Proof.
  intros Hadd Hn Ha Hc.
  apply cell_at_getitem in Hn as (ns & Hns & Hni & Hnl).
  apply cell_at_getitem in Ha as (ads & Hads & Hai & Hal).
  apply cell_at_getitem in Hc as (cs & Hcs & Hci & Hcl).
  unfold add_working_columns in Hadd.
  rewrite Hns, Hads, Hcs in Hadd. cbn [rbind] in Hadd.
  rewrite !astype_str_map in Hadd.
  rewrite series_add_scalar_cells in Hadd. cbn [rbind] in Hadd.
  rewrite series_add_cells in Hadd. cbn [rbind] in Hadd.
  rewrite series_add_scalar_cells in Hadd. cbn [rbind] in Hadd.
  rewrite series_add_cells in Hadd. cbn [rbind] in Hadd.
  injection Hadd as <-.
  unfold series_getitem. rewrite !assoc_lookup_row_of.
  unfold df_setitem_scalar, df_setitem. cbn [columns nrows].
  repeat split; repeat (rewrite assoc_lookup_set_column_ne by discriminate).
  - rewrite assoc_lookup_set_column_eq. cbn [fmap option_fmap option_map].
    rewrite lookup_map.
    rewrite (zip_with_lookup_Some _ _ _ i
               (join (join (join (render W name) (Some ", ")) (render W address)) (Some ", "))
               (render W city)).
    + reflexivity.
    + rewrite lookup_map.
      rewrite (zip_with_lookup_Some _ _ _ i (join (render W name) (Some ", "))
                 (render W address)).
      * reflexivity.
      * rewrite !lookup_map, Hni. reflexivity.
      * rewrite lookup_map, Hai. reflexivity.
    + rewrite lookup_map, Hci. reflexivity.
  - rewrite Hnl. cbn. rewrite Hni. reflexivity.
  - rewrite Hal. cbn. rewrite Hai. reflexivity.
  - rewrite Hcl. cbn. rewrite Hci. reflexivity.
Qed.

(** Where the three input cells of a row are strings, the derived cell is
    the string joined from them. *)
Lemma prepared_row W df df' i name address city :
  add_working_columns W df = Ok df' ->
  cell_at df i "name" = Some (PStr name) ->
  cell_at df i "address" = Some (PStr address) ->
  cell_at df i "city" = Some (PStr city) ->
  string_row (row_of df' i) (alamat_of name address city) name address city.
Proof.
  intros Hadd Hn Ha Hc.
  destruct (prepared_cells W df df' i _ _ _ Hadd Hn Ha Hc) as (Halamat & H).
  split; [|exact H].
  rewrite Halamat. unfold derived_text. rewrite !render_text. reflexivity.
Qed.

(** ** Candidate Resolver *)

Section Resolver.

Variable W : World.

(** One round of the [while] loop. *)
Lemma while_retry_step row_value api_key place_id retry_count st :
  while_retry W row_value api_key place_id retry_count st =
  if is_none place_id && Nat.ltb retry_count max_retries then
    match attempt W row_value api_key place_id retry_count st with
    | (Ok found, st') => while_retry W row_value api_key found (retry_count + 1) st'
    | (Raise e, st') => (Raise e, st')
    end
  else (Ok place_id, st).
Proof.
  rewrite while_retry_equation_1.
  destruct (Equations.Prop.Logic.inspect
              (is_none place_id && Nat.ltb retry_count max_retries)) as [[] E];
    simp while_retry.
  - destruct (attempt W row_value api_key place_id retry_count st) as [[found|e] st'];
      simp while_retry; rewrite E; reflexivity.
  - rewrite E. reflexivity.
Qed.

Lemma while_retry_done row_value api_key place_id retry_count st :
  is_none place_id && Nat.ltb retry_count max_retries = false ->
  while_retry W row_value api_key place_id retry_count st = (Ok place_id, st).
Proof. intros H. rewrite while_retry_step, H. reflexivity. Qed.

(** An attempt with a query text issues exactly one call and hands the
    world's answer to lines 84-93. *)
Lemma attempt_run row_value api_key retry_count value st :
  query_value row_value retry_count = Ok value ->
  value <> PNone ->
  attempt W row_value api_key PNone retry_count st =
  (verdict W api_key (trace st) value, record_event st (find_place_call api_key value)).
Proof.
  intros Hq Hv. unfold attempt, get_place_api, verdict, requests_get, lift, ret, bind.
  rewrite Hq. destruct value; try congruence; simpl;
    destruct (http_get W (trace st) _ _); reflexivity.
Qed.

Lemma record_event_twice st a b :
  record_event (record_event st a) b = with_trace st (trace st ++ [a; b]).
Proof. unfold record_event, with_trace. simpl. rewrite <- app_assoc. reflexivity. Qed.

(** The scan accepts the first candidate that passes the classifier. *)
Lemma scan_candidates_hit body p0 done pre c post pid :
  getitem body "candidates" = Ok (PList (done ++ pre ++ c :: post)) ->
  Forall (fun x => qualifies x = Ok false) pre ->
  qualifies c = Ok true ->
  getitem c "place_id" = Ok pid ->
  scan_candidates body p0 (seq (length done) (length pre + S (length post))) = Ok pid.
Proof.
  intros Hc Hpre Hq Hpid. revert done Hc.
  induction Hpre as [|x pre Hx Hpre IH]; intros done Hc; simpl.
  - rewrite Hc. simpl. rewrite lookup_app_r by lia. rewrite Nat.sub_diag. simpl.
    unfold qualifies in Hq.
    destruct (getitem c "types") as [tys|]; simpl in *; [|discriminate].
    rewrite Hq. simpl. exact Hpid.
  - rewrite Hc. simpl. rewrite lookup_app_r by lia. rewrite Nat.sub_diag. simpl.
    unfold qualifies in Hx.
    destruct (getitem x "types") as [tys|]; simpl in *; [|discriminate].
    rewrite Hx. simpl.
    specialize (IH (done ++ [x])). rewrite length_app in IH. simpl in IH.
    rewrite Nat.add_1_r in IH. apply IH. rewrite <- app_assoc. exact Hc.
Qed.

Lemma scan_candidates_miss body p0 done rest :
  getitem body "candidates" = Ok (PList (done ++ rest)) ->
  Forall (fun x => qualifies x = Ok false) rest ->
  scan_candidates body p0 (seq (length done) (length rest)) = Ok p0.
Proof.
  intros Hc Hrest. revert done Hc.
  induction Hrest as [|x rest Hx Hrest IH]; intros done Hc; simpl; [reflexivity|].
  rewrite Hc. simpl. rewrite lookup_app_r by lia. rewrite Nat.sub_diag. simpl.
  unfold qualifies in Hx.
  destruct (getitem x "types") as [tys|]; simpl in *; [|discriminate].
  rewrite Hx. simpl.
  specialize (IH (done ++ [x])). rewrite length_app in IH. simpl in IH.
  rewrite Nat.add_1_r in IH. apply IH. rewrite <- app_assoc. exact Hc.
Qed.

Lemma read_candidates_hit r p0 body pre c post pid :
  status_code r = 200%Z ->
  json_body r = Some body ->
  getitem body "candidates" = Ok (PList (pre ++ c :: post)) ->
  Forall (fun x => qualifies x = Ok false) pre ->
  qualifies c = Ok true ->
  getitem c "place_id" = Ok pid ->
  read_candidates (Some r) p0 = Ok pid.
Proof.
  intros Hs Hj Hc Hpre Hq Hpid. unfold read_candidates. simpl.
  rewrite Hs. simpl. unfold response_json_of. rewrite Hj. simpl.
  rewrite Hc. simpl. rewrite length_app. simpl.
  apply (scan_candidates_hit body p0 [] pre c post pid); assumption.
Qed.

Lemma read_candidates_miss r p0 :
  no_qualifying_candidate r ->
  read_candidates (Some r) p0 = Ok p0.
Proof.
  intros [Hs | (body & cs & Hj & Hc & Hall)]; unfold read_candidates; simpl.
  - destruct (Z.eqb_spec (status_code r) 200); [contradiction|reflexivity].
  - destruct (Z.eqb (status_code r) 200); [|reflexivity].
    unfold response_json_of. rewrite Hj. simpl. rewrite Hc. simpl.
    apply (scan_candidates_miss body p0 [] cs); assumption.
Qed.

Lemma result_eq_none (v : result pyval) : v = Ok PNone \/ v <> Ok PNone.
Proof. destruct v as [[]|]; (left; reflexivity) || (right; discriminate). Qed.

(** The whole resolver on a row of strings, in terms of the three verdicts:
    it stops at the first verdict that is a fault or an identifier. *)
Lemma resolver_run row api_key alamat name address city st :
  string_row row alamat name address city ->
  let q0 := PStr alamat in
  let q1 := PStr ((name ++ ", ") ++ city) in
  let q2 := PStr address in
  let ask := find_place_call api_key in
  let t0 := trace st in
  let v0 := verdict W api_key t0 q0 in
  let v1 := verdict W api_key (t0 ++ [ask q0]) q1 in
  let v2 := verdict W api_key (t0 ++ [ask q0; ask q1]) q2 in
  get_place_id_from_text_query W row api_key st =
  match v0 with
  | Ok PNone =>
      match v1 with
      | Ok PNone => (v2, with_trace st (t0 ++ [ask q0; ask q1; ask q2]))
      | _ => (v1, with_trace st (t0 ++ [ask q0; ask q1]))
      end
  | _ => (v0, with_trace st (t0 ++ [ask q0]))
  end.
Proof.
  intros (Ha & Hn & Had & Hc). intros.
  unfold get_place_id_from_text_query.
  rewrite while_retry_step. simpl.
  rewrite (attempt_run row api_key 0 q0); [|exact Ha|discriminate].
  fold t0 ask. fold v0.
  destruct v0 as [found0|e0]; [|reflexivity].
  destruct (is_none found0) eqn:E0.
  2:{ rewrite while_retry_done by (rewrite E0; reflexivity).
      destruct found0; try discriminate; reflexivity. }
  destruct found0; try discriminate. clear E0.
  rewrite while_retry_step. simpl.
  rewrite (attempt_run row api_key 1 q1).
  2:{ unfold query_value. simpl. rewrite Hn, Hc. reflexivity. }
  2:{ discriminate. }
  simpl trace. fold t0 ask. fold v1.
  destruct v1 as [found1|e1]; [|rewrite record_event_twice; reflexivity].
  destruct (is_none found1) eqn:E1.
  2:{ rewrite while_retry_done by (rewrite E1; reflexivity).
      rewrite record_event_twice.
      destruct found1; try discriminate; reflexivity. }
  destruct found1; try discriminate. clear E1.
  rewrite while_retry_step. simpl.
  rewrite (attempt_run row api_key 2 q2); [|exact Had|discriminate].
  simpl trace. rewrite <- app_assoc. simpl. fold t0 ask. fold v2.
  assert (Hst : record_event (record_event (record_event st (ask q0)) (ask q1)) (ask q2)
                = with_trace st (t0 ++ [ask q0; ask q1; ask q2])).
  { unfold record_event, with_trace. simpl. rewrite <- !app_assoc. reflexivity. }
  rewrite Hst.
  destruct v2 as [found2|e2]; [|reflexivity].
  rewrite while_retry_done; [reflexivity|].
  simpl. apply andb_false_r.
Qed.

End Resolver.

Lemma verdict_hit W api_key t value r body pre c post pid :
  http_get W t find_place_endpoint (find_place_params value api_key) = Ok r ->
  status_code r = 200%Z ->
  json_body r = Some body ->
  getitem body "candidates" = Ok (PList (pre ++ c :: post)) ->
  Forall (fun x => qualifies x = Ok false) pre ->
  qualifies c = Ok true ->
  getitem c "place_id" = Ok pid ->
  verdict W api_key t value = Ok pid.
Proof.
  intros Hget Hs Hj Hc Hpre Hq Hpid. unfold verdict. rewrite Hget. simpl.
  eapply read_candidates_hit; eassumption.
Qed.

Lemma verdict_miss W api_key t value r :
  http_get W t find_place_endpoint (find_place_params value api_key) = Ok r ->
  no_qualifying_candidate r ->
  verdict W api_key t value = Ok PNone.
Proof.
  intros Hget Hno. unfold verdict. rewrite Hget. simpl.
  apply read_candidates_miss. exact Hno.
Qed.

(** The verdict of an attempt, for each kind of answer of the world. *)
Lemma verdict_cases W api_key t value :
  let answer := http_get W t find_place_endpoint (find_place_params value api_key) in
  let v := verdict W api_key t value in
  (forall r, answer = Ok r -> no_qualifying_candidate r -> v = Ok PNone) /\
  (forall e, answer = Raise e -> v = Raise e) /\
  (forall r, answer = Ok r -> status_code r = 200%Z -> json_body r = None ->
             v = Raise (ExternalError "JSONDecodeError")) /\
  (forall r body e, answer = Ok r -> status_code r = 200%Z -> json_body r = Some body ->
                    getitem body "candidates" = Raise e -> v = Raise e).
Proof.
  intros answer v. subst answer v. repeat split.
  - intros r Hans Hno. eapply verdict_miss; eassumption.
  - intros e Hans. unfold verdict. rewrite Hans. reflexivity.
  - intros r Hans Hs Hj. unfold verdict, read_candidates. rewrite Hans. cbn.
    rewrite Hs. cbn. unfold response_json_of. rewrite Hj. reflexivity.
  - intros r body e Hans Hs Hj Hc. unfold verdict, read_candidates. rewrite Hans. cbn.
    rewrite Hs. cbn. unfold response_json_of. rewrite Hj. cbn. rewrite Hc. reflexivity.
Qed.

(** The attempts that the resolver issues: every one but the last had the
    verdict [None], and the verdict of the last one is the result; only the
    third attempt can be the last with the verdict [None]. *)
Lemma resolver_verdicts W row api_key alamat name address city st :
  string_row row alamat name address city ->
  let queries := query_texts alamat name address city in
  let calls := map (find_place_call api_key) queries in
  let out := get_place_id_from_text_query W row api_key st in
  exists n,
    1 <= n <= 3 /\
    snd out = with_trace st (trace st ++ take n calls) /\
    forall k value,
      k < n ->
      queries !! k = Some value ->
      let v := verdict W api_key (trace st ++ take k calls) value in
      (k + 1 < n /\ v = Ok PNone) \/
      (k + 1 = n /\ fst out = v /\ (v = Ok PNone -> k = 2)).
Proof.
  intros Hrow queries calls out.
  pose proof (resolver_run W row api_key _ _ _ _ st Hrow) as Hrun.
  cbv zeta in Hrun. subst out.
  destruct (result_eq_none (verdict W api_key (trace st) (PStr alamat))) as [E0|E0].
  2:{ exists 1.
      assert (Hout : get_place_id_from_text_query W row api_key st =
                     (verdict W api_key (trace st) (PStr alamat),
                      with_trace st (trace st ++ take 1 calls))).
      { rewrite Hrun. destruct (verdict W api_key (trace st) (PStr alamat)) as [[]|];
          try reflexivity. congruence. }
      rewrite Hout. split; [lia|]. split; [reflexivity|].
      intros k value Hk Hq. assert (k = 0) as -> by lia. injection Hq as <-.
      simpl take. rewrite app_nil_r. right. repeat split. intros H. contradiction. }
  rewrite E0 in Hrun.
  destruct (result_eq_none
              (verdict W api_key (trace st ++ [find_place_call api_key (PStr alamat)])
                 (PStr ((name ++ ", ") ++ city)))) as [E1|E1].
  2:{ exists 2.
      assert (Hout : get_place_id_from_text_query W row api_key st =
                     (verdict W api_key (trace st ++ [find_place_call api_key (PStr alamat)])
                        (PStr ((name ++ ", ") ++ city)),
                      with_trace st (trace st ++ take 2 calls))).
      { rewrite Hrun.
        destruct (verdict W api_key (trace st ++ [find_place_call api_key (PStr alamat)])
                    (PStr ((name ++ ", ") ++ city))) as [[]|]; try reflexivity. congruence. }
      rewrite Hout. split; [lia|]. split; [reflexivity|].
      intros k value Hk Hq.
      destruct k as [|[|k]]; [| |lia]; injection Hq as <-; simpl take.
      - rewrite app_nil_r. left. split; [lia|exact E0].
      - right. repeat split. intros H. contradiction. }
  rewrite E1 in Hrun.
  exists 3. rewrite Hrun. split; [lia|]. split; [reflexivity|].
  intros k value Hk Hq.
  destruct k as [|[|[|k]]]; [| | |lia]; injection Hq as <-; simpl take.
  - rewrite app_nil_r. left. split; [lia|exact E0].
  - left. split; [lia|exact E1].
  - right. repeat split.
Qed.

(** C2: a row of the prepared table is queried at most three times.  Each
    query is a GET on the find-place endpoint whose input parameter is, in
    this order, the derived string (name, address, city joined by comma and
    space), then name and city, then the address alone; the other
    parameters are the input type, the fields and the key.  Whenever an
    attempt that was issued gets a status-200 answer whose candidate list
    has a first candidate passing the classifier, the resolver takes the
    identifier of that candidate: it returns it and issues no further
    attempt (a null identifier counts as nothing found: the next attempt is
    issued, or the result is [None] after the third). *)
Theorem resolver_query_ladder W df df' i name address city api_key st :
  add_working_columns W df = Ok df' ->
  cell_at df i "name" = Some (PStr name) ->
  cell_at df i "address" = Some (PStr address) ->
  cell_at df i "city" = Some (PStr city) ->
  let row := row_of df' i in
  let queries :=
    [PStr ((((name ++ ", ") ++ address) ++ ", ") ++ city);
     PStr ((name ++ ", ") ++ city);
     PStr address] in
  let endpoint := "https://maps.googleapis.com/maps/api/place/findplacefromtext/json" in
  let params := fun value =>
    [("input", value);
     ("inputtype", PStr "textquery");
     ("fields", PStr "formatted_address,name,place_id,types");
     ("key", api_key)] in
  let calls := map (fun value => EGet endpoint (params value)) queries in
  let out := get_place_id_from_text_query W row api_key st in
  exists n,
    1 <= n <= 3 /\
    snd out = with_trace st (trace st ++ take n calls) /\
    forall k value r body pre c post pid,
      k < n ->
      queries !! k = Some value ->
      http_get W (trace st ++ take k calls) endpoint (params value) = Ok r ->
      status_code r = 200%Z ->
      json_body r = Some body ->
      getitem body "candidates" = Ok (PList (pre ++ c :: post)) ->
      Forall (fun x => qualifies x = Ok false) pre ->
      qualifies c = Ok true ->
      getitem c "place_id" = Ok pid ->
      (pid <> PNone -> fst out = Ok pid /\ n = k + 1) /\
      (pid = PNone -> k + 1 < n \/ (k = 2 /\ fst out = Ok PNone)).
Proof.
  intros Hadd Hn Ha Hc row queries endpoint params calls out.
  pose proof (prepared_row W df df' i name address city Hadd Hn Ha Hc) as Hrow.
  destruct (resolver_verdicts W row api_key _ _ _ _ st Hrow) as (n & Hbound & Hsnd & Hv).
  exists n. split; [exact Hbound|]. split; [exact Hsnd|].
  intros k value r body pre c post pid Hk Hq Hget Hs Hj Hcs Hpre Hqc Hpid.
  subst out calls queries endpoint params.
  assert (Hhit : verdict W api_key
                   (trace st ++ take k (map (find_place_call api_key)
                                           (query_texts (alamat_of name address city)
                                              name address city))) value = Ok pid)
    by exact (verdict_hit W api_key _ value r body pre c post pid
                Hget Hs Hj Hcs Hpre Hqc Hpid).
  destruct (Hv k value Hk Hq) as [[Hlt Hnone]|(Hlast & Hout & Hthird)].
  - split.
    + intros Hne. exfalso. apply Hne. rewrite Hhit in Hnone. injection Hnone as ->.
      reflexivity.
    + intros _. left. exact Hlt.
  - split.
    + intros _. split; [|symmetry; exact Hlast]. rewrite Hout. exact Hhit.
    + intros ->. right. split; [apply Hthird; exact Hhit|]. rewrite Hout. exact Hhit.
Qed.

(** C4 (as the code has it): in the resolver, a response with a status other
    than 200 is treated like a response without a qualifying candidate: the
    next attempt is issued, or after the third attempt the result is [None].
    A fault raised by the call itself (network error, timeout) and a
    malformed payload (a body that is not JSON, or one without the candidate
    list) are not handled there: the resolver makes no further attempt and
    the fault leaves it. *)
Theorem resolver_fault_handling W row api_key alamat name address city st :
  string_row row alamat name address city ->
  let queries := query_texts alamat name address city in
  let calls := map (find_place_call api_key) queries in
  let out := get_place_id_from_text_query W row api_key st in
  exists n,
    1 <= n <= 3 /\
    snd out = with_trace st (trace st ++ take n calls) /\
    forall k value,
      k < n ->
      queries !! k = Some value ->
      let answer := http_get W (trace st ++ take k calls) find_place_endpoint
                             (find_place_params value api_key) in
      (forall r, answer = Ok r -> no_qualifying_candidate r ->
                 k + 1 < n \/ (k = 2 /\ fst out = Ok PNone)) /\
      (forall e, answer = Raise e -> fst out = Raise e /\ n = k + 1) /\
      (forall r, answer = Ok r -> status_code r = 200%Z -> json_body r = None ->
                 fst out = Raise (ExternalError "JSONDecodeError") /\ n = k + 1) /\
      (forall r body e, answer = Ok r -> status_code r = 200%Z -> json_body r = Some body ->
                        getitem body "candidates" = Raise e ->
                        fst out = Raise e /\ n = k + 1).
Proof.
  intros Hrow queries calls out.
  destruct (resolver_verdicts W row api_key _ _ _ _ st Hrow) as (n & Hn & Hsnd & Hv).
  exists n. split; [exact Hn|]. split; [exact Hsnd|].
  intros k value Hk Hq answer. subst answer out calls queries.
  destruct (verdict_cases W api_key
              (trace st ++ take k (map (find_place_call api_key)
                                       (query_texts alamat name address city))) value)
    as (A & B & C & D).
  specialize (Hv k value Hk Hq). cbv zeta in Hv.
  destruct Hv as [[Hlt Hnone]|(Hlast & Hout & Hthird)];
    (split; [intros r Hans Hno
            |split; [intros e Hans
                    |split; [intros r Hans Hs Hj|intros r body e Hans Hs Hj Hc]]]).
  - left. exact Hlt.
  - rewrite (B e Hans) in Hnone. discriminate.
  - rewrite (C r Hans Hs Hj) in Hnone. discriminate.
  - rewrite (D r body e Hans Hs Hj Hc) in Hnone. discriminate.
  - right. specialize (A r Hans Hno). split; [apply Hthird; exact A|congruence].
  - rewrite Hout. split; [apply (B e Hans)|lia].
  - rewrite Hout. split; [apply (C r Hans Hs Hj)|lia].
  - rewrite Hout. split; [apply (D r body e Hans Hs Hj Hc)|lia].
Qed.

(** ** Effects of the statements *)

Section Preserves.

Context (R : state -> state -> Prop) `{!PreOrder R}.

Lemma preserves_ret {A} (a : A) : preserves R (ret a).
Proof. intros st. reflexivity. Qed.

Lemma preserves_lift {A} (r : result A) : preserves R (lift r).
Proof. intros st. reflexivity. Qed.

Lemma preserves_bind {A B} (m : M A) (k : A -> M B) :
  preserves R m -> (forall a, preserves R (k a)) -> preserves R (bind m k).
Proof.
  intros Hm Hk st. unfold bind. specialize (Hm st).
  destruct (m st) as [[a|e] st']; simpl in *; [|exact Hm].
  etransitivity; [exact Hm|apply Hk].
Qed.

Lemma preserves_try_except {A} (body : M A) (handler : exn -> M A) :
  preserves R body -> (forall e, preserves R (handler e)) ->
  preserves R (try_except body handler).
Proof.
  intros Hb Hh st. unfold try_except. specialize (Hb st).
  destruct (body st) as [[a|e] st']; simpl in *; [exact Hb|].
  etransitivity; [exact Hb|apply Hh].
Qed.

Lemma preserves_for_in {A} (items : list A) (body : A -> M unit) :
  (forall x, preserves R (body x)) -> preserves R (for_in items body).
Proof.
  intros Hb. induction items as [|x rest IH]; simpl.
  - apply preserves_ret.
  - apply preserves_bind; [apply Hb|intros _; exact IH].
Qed.

(** The [while] loop keeps what its body keeps; by induction on the rounds
    that are left. *)
Lemma preserves_while_retry W row_value api_key :
  (forall place_id retry_count,
      preserves R (attempt W row_value api_key place_id retry_count)) ->
  forall place_id retry_count,
    preserves R (while_retry W row_value api_key place_id retry_count).
Proof.
  intros Hatt place_id retry_count.
  remember (max_retries - retry_count) as fuel eqn:Hfuel.
  revert place_id retry_count Hfuel.
  induction fuel as [fuel IH] using lt_wf_ind.
  intros place_id retry_count Hfuel st.
  rewrite while_retry_step.
  destruct (is_none place_id && Nat.ltb retry_count max_retries) eqn:E; [|reflexivity].
  apply andb_prop in E as [_ Hlt]. apply Nat.ltb_lt in Hlt.
  specialize (Hatt place_id retry_count st).
  destruct (attempt W row_value api_key place_id retry_count st) as [[found|e] st'];
    simpl in *; [|exact Hatt].
  etransitivity; [exact Hatt|].
  eapply (IH (max_retries - (retry_count + 1))); [lia|reflexivity].
Qed.

End Preserves.

#[local] Instance quiet_preorder : PreOrder quiet.
Proof.
  split.
  - intros st. exists []. split; [|constructor]. destruct st. unfold with_trace. simpl.
    rewrite app_nil_r. reflexivity.
  - intros a b c (e1 & -> & H1) (e2 & -> & H2). exists (e1 ++ e2). split.
    + unfold with_trace. simpl. rewrite app_assoc. reflexivity.
    + apply Forall_app. split; assumption.
Qed.

Lemma quiet_event st ev : console_or_http ev -> quiet st (record_event st ev).
Proof. intros H. exists [ev]. split; [reflexivity|]. constructor; [exact H|constructor]. Qed.

Section Quiet.
Variable W : World.

Lemma quiet_print line : preserves quiet (print line).
Proof. intros st. apply quiet_event. exact I. Qed.

Lemma quiet_requests_get endpoint params : preserves quiet (requests_get W endpoint params).
Proof. intros st. apply quiet_event. exact I. Qed.

Ltac preserve :=
  repeat first
    [ apply preserves_ret; exact _
    | apply preserves_lift; exact _
    | apply preserves_bind; [exact _| |intros ?]
    | apply preserves_try_except; [exact _| |intros ?]
    | apply preserves_for_in; [exact _|intros ?]
    | assumption ].

Lemma quiet_get_place_api value api_key : preserves quiet (get_place_api W value api_key).
Proof.
  unfold get_place_api. destruct (negb (is_none value)); preserve.
  apply quiet_requests_get.
Qed.

Lemma quiet_attempt row_value api_key place_id retry_count :
  preserves quiet (attempt W row_value api_key place_id retry_count).
Proof. unfold attempt. preserve. apply quiet_get_place_api. Qed.

Lemma quiet_resolver row_value api_key :
  preserves quiet (get_place_id_from_text_query W row_value api_key).
Proof.
  unfold get_place_id_from_text_query. apply preserves_while_retry; [exact _|].
  intros. apply quiet_attempt.
Qed.

Lemma quiet_details place_id api_key :
  preserves quiet (get_place_info_from_place_id W place_id api_key).
Proof. unfold get_place_info_from_place_id. preserve. apply quiet_requests_get. Qed.

Lemma quiet_image photo_reference api_key :
  preserves quiet (get_image_url_from_photo_preference W photo_reference api_key).
Proof. unfold get_image_url_from_photo_preference. preserve. apply quiet_requests_get. Qed.

End Quiet.


Lemma assoc_lookup_at_set df i l v c :
  assoc_lookup c (columns (at_set df i l v)) =
  if String.eqb c l then (fun cells => <[i := v]> cells) <$> assoc_lookup c (columns df)
  else assoc_lookup c (columns df).
Proof.
  unfold at_set. simpl. induction (columns df) as [|[k cells] rest IH]; simpl.
  - destruct (String.eqb c l); reflexivity.
  - destruct (String.eqb_spec k l) as [->|Hkl]; simpl.
    + destruct (String.eqb_spec c l) as [->|Hcl]; [reflexivity|].
      rewrite IH. destruct (String.eqb_spec c l); [contradiction|reflexivity].
    + destruct (String.eqb_spec c k) as [->|Hck].
      * destruct (String.eqb_spec k l); [contradiction|reflexivity].
      * exact IH.
Qed.

(** Reading a cell after an assignment to the same row. *)
Lemma cell_at_at_set df i l v c :
  cell_at (at_set df i l v) i c =
  if String.eqb c l then
    match cell_at df i c with Some _ => Some v | None => None end
  else cell_at df i c.
Proof.
  unfold cell_at. rewrite assoc_lookup_at_set.
  destruct (String.eqb c l); [|reflexivity].
  destruct (assoc_lookup c (columns df)) as [cells|]; simpl; [|reflexivity].
  destruct (cells !! i) as [old|] eqn:E.
  - apply list_lookup_insert_eq. apply lookup_lt_Some in E. exact E.
  - apply lookup_ge_None in E. apply lookup_ge_None. rewrite length_insert. exact E.
Qed.

Lemma cell_at_at_set_other df i l v j c :
  j <> i \/ c <> l ->
  cell_at (at_set df i l v) j c = cell_at df j c.
Proof.
  intros H. unfold cell_at. rewrite assoc_lookup_at_set.
  destruct (String.eqb_spec c l) as [->|Hcl]; [|reflexivity].
  destruct H as [H|H]; [|contradiction].
  destruct (assoc_lookup l (columns df)) as [cells|]; simpl; [|reflexivity].
  apply list_lookup_insert_ne. auto.
Qed.

Lemma column_names_at_set df i l v : column_names (at_set df i l v) = column_names df.
Proof.
  unfold column_names, at_set. simpl. rewrite map_map. apply map_ext.
  intros [k cells]. simpl. destruct (String.eqb k l); reflexivity.
Qed.

#[local] Instance touches_preorder rows : PreOrder (touches rows).
Proof.
  split.
  - intros st. repeat split; auto. exists []. rewrite app_nil_r. split; [reflexivity|constructor].
  - intros a b c (Hc1 & Hk1 & (e1 & Ht1 & He1) & Hn1 & Hs1 & Hcell1)
                 (Hc2 & Hk2 & (e2 & Ht2 & He2) & Hn2 & Hs2 & Hcell2).
    repeat split; try congruence.
    + exists (e1 ++ e2). split.
      * rewrite Ht2, Ht1, app_assoc. reflexivity.
      * apply Forall_app. split; assumption.
    + intros i col H. rewrite Hcell2, Hcell1; auto.
Qed.

Lemma quiet_touches rows st st' : quiet st st' -> touches rows st st'.
Proof.
  intros (evs & -> & Hev). repeat split; auto. exists evs. split; [reflexivity|exact Hev].
Qed.

Lemma preserves_weaken {A} (R R' : state -> state -> Prop) (m : M A) :
  (forall st st', R st st' -> R' st st') -> preserves R m -> preserves R' m.
Proof. intros Hsub Hm st. apply Hsub, Hm. Qed.

Lemma touches_at_assign (rows : nat -> Prop) index label v :
  rows index -> In label output_columns ->
  preserves (touches rows) (at_assign index label v).
Proof.
  intros Hrow Hlabel st. unfold at_assign. simpl. repeat split; auto.
  - exists []. rewrite app_nil_r. split; [reflexivity|constructor].
  - apply column_names_at_set.
  - intros i c H. apply cell_at_at_set_other.
    destruct H as [H|H].
    + left. intros ->. contradiction.
    + right. intros ->. contradiction.
Qed.

Section Rows.
Variable W : World.

Lemma touches_enrich_row (rows : nat -> Prop) api_key index row :
  rows index -> preserves (touches rows) (enrich_row W api_key index row).
Proof.
  intros Hrow. unfold enrich_row.
  repeat first
    [ apply preserves_lift; exact _
    | apply touches_at_assign; [exact Hrow|simpl; tauto]
    | apply (preserves_weaken quiet);
      [apply quiet_touches
      |first [apply quiet_print | apply quiet_resolver
             | apply quiet_details | apply quiet_image]]
    | apply preserves_bind; [exact _| |intros ?] ].
Qed.

Lemma touches_process_row (rows : nat -> Prop) api_key item :
  rows (fst item) -> preserves (touches rows) (process_row W api_key item).
Proof.
  intros Hrow. unfold process_row. apply preserves_try_except; [exact _| |intros e].
  - apply touches_enrich_row. exact Hrow.
  - apply (preserves_weaken quiet); [apply quiet_touches|apply quiet_print].
Qed.

(** Lines 251-253: the handler catches every fault of the row. *)
Lemma process_row_ok api_key item st : fst (process_row W api_key item st) = Ok tt.
Proof.
  unfold process_row, try_except.
  destruct (enrich_row W api_key (fst item) (snd item) st) as [[[]|e] st']; reflexivity.
Qed.

End Rows.

(** Running one statement of a sequence. *)
Lemma bind_run {A B} (m : M A) (k : A -> M B) st :
  bind m k st =
  match m st with
  | (Ok a, st') => k a st'
  | (Raise e, st') => (Raise e, st')
  end.
Proof. reflexivity. Qed.

Ltac run_step :=
  rewrite bind_run;
  cbn [lift print at_assign ret requests_get rbind fst snd
       data_frame trace connection cursor record_event with_trace with_data_frame].

Section Cells.
Variable W : World.

(** Lines 228-249 for a row that has a name: the outcome of the [try]
    block, the output cells of the row and the calls made, in terms of the
    stages. *)
Lemma enrich_row_run api_key index row name st :
  series_getitem row "name" = Ok name ->
  let resolved :=
    get_place_id_from_text_query W row api_key (record_event st (progress_line W index name)) in
  let out := enrich_row W api_key index row st in
  fst out = first_fault (stage_values W api_key resolved) /\
  output_cells (data_frame (snd out)) index =
    overwrite (output_cells (data_frame st) index) (stage_values W api_key resolved) /\
  trace (snd out) = trace (snd resolved) ++ stage_calls W api_key resolved.
Proof.
  intros Hname resolved out. subst out.
  pose proof (quiet_resolver W row api_key (record_event st (progress_line W index name)))
    as (evs & Hquiet & _).
  fold resolved in Hquiet.
  unfold enrich_row.
  run_step. rewrite Hname.
  run_step. run_step.
  fold (progress_line W index name). fold resolved.
  unfold stage_calls, photo_stage, stage_values, detail_answer, image_answer.
  destruct resolved as [[found|e] s2]; cbn [fst snd rbind] in *.
  2:{ subst s2. unfold output_cells. simpl. rewrite app_nil_r.
      auto. }
  assert (Hdf : data_frame s2 = data_frame st) by (subst s2; reflexivity).
  clear Hquiet.
  run_step. run_step. unfold get_place_info_from_place_id. run_step.
  destruct (http_get W (trace s2) details_endpoint
              (details_params (PStr (py_str W found)) api_key)) as [resp|e];
    cbn [rbind].
  2:{ cbn. unfold output_cells. simpl. rewrite !cell_at_at_set. simpl.
      rewrite Hdf. auto. }
  run_step.
  destruct (response_json_of resp) as [d|e]; cbn [rbind ret].
  2:{ cbn. unfold output_cells. simpl. rewrite !cell_at_at_set. simpl.
      rewrite Hdf. auto. }
  run_step.
  destruct (extract_url d) as [u|e]; cbn [rbind].
  2:{ cbn. unfold output_cells. simpl. rewrite !cell_at_at_set. simpl.
      rewrite Hdf. auto. }
  run_step. run_step.
  destruct (extract_coordinate d "lat") as [la|e]; cbn [rbind].
  2:{ cbn. unfold output_cells. simpl. rewrite !cell_at_at_set. simpl.
      rewrite Hdf. auto. }
  run_step. run_step.
  destruct (extract_coordinate d "lng") as [lo|e]; cbn [rbind].
  2:{ cbn. unfold output_cells. simpl. rewrite !cell_at_at_set. simpl.
      rewrite Hdf. auto. }
  run_step. run_step.
  destruct (extract_photo_reference d) as [ref|e]; cbn [rbind].
  2:{ cbn. unfold output_cells. simpl. rewrite !cell_at_at_set. simpl.
      rewrite Hdf. auto. }
  run_step. unfold get_image_url_from_photo_preference. run_step.
  destruct (http_get W _ photo_endpoint (photo_params ref api_key)) as [img|e];
    cbn [rbind].
  2:{ cbn. unfold output_cells. simpl. rewrite !cell_at_at_set. simpl.
      rewrite Hdf, <- app_assoc. auto. }
  cbn. unfold output_cells. simpl. rewrite !cell_at_at_set. simpl.
  rewrite Hdf, <- app_assoc. auto.
Qed.

(** The handler of a row keeps the state in which the fault was raised and
    adds one line to the console. *)
Lemma process_row_run api_key index row st :
  process_row W api_key (index, row) st =
  match enrich_row W api_key index row st with
  | (Ok u, st') => (Ok u, st')
  | (Raise e, st') =>
      (Ok tt, record_event st'
                (EPrint ("Error processing address at index " ++ pretty index ++ ": "
                         ++ str_of_exn W e)))
  end.
Proof. reflexivity. Qed.

Lemma process_row_frame api_key index row st :
  data_frame (snd (process_row W api_key (index, row) st)) =
  data_frame (snd (enrich_row W api_key index row st)).
Proof.
  rewrite process_row_run.
  destruct (enrich_row W api_key index row st) as [[u|e] st']; reflexivity.
Qed.

End Cells.

(** ** The loop over the rows *)

Lemma for_in_ok {A} (items : list A) (body : A -> M unit) st :
  (forall x st, fst (body x st) = Ok tt) ->
  fst (for_in items body st) = Ok tt.
Proof.
  intros Hok. revert st. induction items as [|x rest IH]; intros st; simpl; [reflexivity|].
  rewrite bind_run. specialize (Hok x st).
  destruct (body x st) as [[[]|e] st']; simpl in Hok; [apply IH|discriminate].
Qed.

Lemma for_in_app {A} (l1 l2 : list A) (body : A -> M unit) st :
  (forall x st, fst (body x st) = Ok tt) ->
  for_in (l1 ++ l2) body st = for_in l2 body (snd (for_in l1 body st)).
Proof.
  intros Hok. revert st. induction l1 as [|x rest IH]; intros st; simpl; [reflexivity|].
  rewrite !bind_run. specialize (Hok x st).
  destruct (body x st) as [[[]|e] st']; simpl in Hok; [apply IH|discriminate].
Qed.

Lemma preserves_for_in_In {A} (R : state -> state -> Prop) `{!PreOrder R}
    (items : list A) (body : A -> M unit) :
  (forall x, In x items -> preserves R (body x)) -> preserves R (for_in items body).
Proof.
  induction items as [|x rest IH]; intros Hb; simpl.
  - apply preserves_ret. exact _.
  - apply preserves_bind; [exact _|apply Hb; left; reflexivity|].
    intros _. apply IH. intros y Hy. apply Hb. right. exact Hy.
Qed.

Lemma iterrows_lookup df i :
  i < nrows df -> iterrows df !! i = Some (i, row_of df i).
Proof.
  intros Hi. unfold iterrows. rewrite lookup_map, lookup_seq_lt by exact Hi. reflexivity.
Qed.

Lemma iterrows_lookup_fst df j item :
  iterrows df !! j = Some item -> fst item = j.
Proof.
  unfold iterrows. rewrite lookup_map. intros H.
  destruct (seq 0 (nrows df) !! j) as [k|] eqn:E; [|discriminate].
  apply lookup_seq in E as [-> _]. injection H as <-. reflexivity.
Qed.

Section Loop.
Variable W : World.

(** Row [i] in the loop: the rows before it leave its cells alone, and so
    do the rows after it. *)
Lemma enrich_all_row api_key st i :
  i < nrows (data_frame st) ->
  let df := data_frame st in
  let before := state_before_row W api_key st i in
  let after := snd (process_row W api_key (i, row_of df i) before) in
  let final := snd (enrich_all W api_key st) in
  (forall c, cell_at (data_frame before) i c = cell_at df i c) /\
  (forall c, cell_at (data_frame final) i c = cell_at (data_frame after) i c) /\
  (exists later, trace final = trace after ++ later).
Proof.
  intros Hi df before after final.
  pose proof (iterrows_lookup df i Hi) as Hitem.
  pose proof (take_drop_middle _ _ _ Hitem) as Hsplit.
  assert (Hbefore : touches (fun j => j <> i) st before).
  { subst before. unfold state_before_row.
    apply (fun H => preserves_for_in_In (touches (fun j => j <> i))
                      (take i (iterrows (data_frame st))) (process_row W api_key) H st).
    intros item Hin. apply touches_process_row.
    apply list_elem_of_In, list_elem_of_lookup in Hin as [j Hj].
    apply lookup_take_Some in Hj as [Hj Hlt].
    apply iterrows_lookup_fst in Hj. lia. }
  assert (Hfinal : final = snd (for_in (drop (S i) (iterrows df)) (process_row W api_key) after)).
  { subst final after before. unfold state_before_row, enrich_all.
    rewrite bind_run. cbn [get_data_frame]. fold df.
    rewrite <- Hsplit at 1.
    rewrite for_in_app by (intros; apply process_row_ok).
    cbn [for_in]. rewrite bind_run.
    pose proof (process_row_ok W api_key (i, row_of df i)
                  (snd (for_in (take i (iterrows df)) (process_row W api_key) st))) as Hok.
    destruct (process_row W api_key (i, row_of df i)
                (snd (for_in (take i (iterrows df)) (process_row W api_key) st)))
      as [[[]|e] s]; simpl in Hok; [reflexivity|discriminate]. }
  assert (Hlater : touches (fun j => j <> i) after final).
  { rewrite Hfinal.
    apply (fun H => preserves_for_in_In (touches (fun j => j <> i))
                      (drop (S i) (iterrows df)) (process_row W api_key) H after).
    intros item Hin. apply touches_process_row.
    apply list_elem_of_In, list_elem_of_lookup in Hin as [j Hj].
    rewrite lookup_drop in Hj. apply iterrows_lookup_fst in Hj. lia. }
  destruct Hbefore as (_ & _ & _ & _ & _ & Hcb).
  destruct Hlater as (_ & _ & (later & Hl & _) & _ & _ & Hcl).
  repeat split.
  - intros c. apply Hcb. left. intros H. apply H. reflexivity.
  - intros c. apply Hcl. left. intros H. apply H. reflexivity.
  - exists later. exact Hl.
Qed.

End Loop.

(** ** Rows in the enriched table *)

Section Rows_in_the_table.

Variable W : World.

Lemma touches_enrich_all api_key : preserves (touches (fun _ => True)) (enrich_all W api_key).
Proof.
  unfold enrich_all. apply preserves_bind; [exact _| |intros df].
  - intros st. reflexivity.
  - apply preserves_for_in; [exact _|]. intros item.
    apply touches_process_row. exact I.
Qed.

Lemma enrich_all_ok api_key st : fst (enrich_all W api_key st) = Ok tt.
Proof.
  unfold enrich_all. rewrite bind_run. cbn [get_data_frame].
  apply for_in_ok. intros. apply process_row_ok.
Qed.

Lemma overwrite_defaults a b c d e :
  overwrite (replicate 5 (Some (PStr ""))) [a; b; c; d; e] = map Some (fill [a; b; c; d; e]).
Proof. destruct a, b, c, d, e; reflexivity. Qed.

(** What the loop leaves in row [i], and what it does after resolving it. *)
Lemma row_in_final api_key st i name :
  i < nrows (data_frame st) ->
  series_getitem (row_of (data_frame st) i) "name" = Ok name ->
  let resolved := resolution_of W api_key st i name in
  let row_out :=
    enrich_row W api_key i (row_of (data_frame st) i) (state_before_row W api_key st i) in
  let final := snd (enrich_all W api_key st) in
  fst row_out = first_fault (stage_values W api_key resolved) /\
  output_cells (data_frame (snd row_out)) i =
    overwrite (output_cells (data_frame st) i) (stage_values W api_key resolved) /\
  trace (snd row_out) = trace (snd resolved) ++ stage_calls W api_key resolved /\
  output_cells (data_frame final) i = output_cells (data_frame (snd row_out)) i /\
  exists later, trace final = trace (snd row_out) ++ later.
Proof.
  intros Hi Hname resolved row_out final.
  destruct (enrich_all_row W api_key st i Hi) as (Hbefore & Hafter & later & Hlater).
  destruct (enrich_row_run W api_key i (row_of (data_frame st) i) name
              (state_before_row W api_key st i) Hname) as (Hfst & Hcells & Htrace).
  fold (resolution_of W api_key st i name) in Hfst, Hcells, Htrace.
  fold resolved in Hfst, Hcells, Htrace. fold row_out in Hfst, Hcells, Htrace.
  assert (Hsame : output_cells (data_frame (state_before_row W api_key st i)) i =
                  output_cells (data_frame st) i).
  { unfold output_cells. apply map_ext. intros c. apply Hbefore. }
  rewrite Hsame in Hcells.
  repeat split; try assumption.
  - unfold output_cells. apply map_ext. intros c. fold final in Hafter.
    rewrite Hafter, process_row_frame. reflexivity.
  - fold final in Hlater. rewrite Hlater, process_row_run. fold row_out.
    destruct row_out as [[u|e] st']; simpl.
    + exists later. reflexivity.
    + eexists. rewrite <- app_assoc. reflexivity.
Qed.

End Rows_in_the_table.

(** C3: when each of the three attempts of a row gets a response without a
    qualifying candidate, the resolver makes exactly the three calls and
    returns [None], and the enriched table holds the text None in the
    place_id cell of that row. *)
Theorem exhausted_resolution_stores_None W api_key st i alamat name address city :
  i < nrows (data_frame st) ->
  string_row (row_of (data_frame st) i) alamat name address city ->
  is_Some (cell_at (data_frame st) i "place_id") ->
  let before := state_before_row W api_key st i in
  let t := trace before ++ [progress_line W i (PStr name)] in
  let queries := query_texts alamat name address city in
  let calls := map (find_place_call api_key) queries in
  (forall k value,
      queries !! k = Some value ->
      exists r,
        http_get W (t ++ take k calls) find_place_endpoint
                 (find_place_params value api_key) = Ok r /\
        no_qualifying_candidate r) ->
  resolution_of W api_key st i (PStr name) = (Ok PNone, with_trace before (t ++ calls)) /\
  py_str W PNone = "None" /\
  cell_at (data_frame (snd (enrich_all W api_key st))) i "place_id" = Some (PStr "None").
Proof.
  intros Hi Hrow [old Hcell] before t queries calls Hworld.
  assert (Hres : resolution_of W api_key st i (PStr name) =
                 (Ok PNone, with_trace before (t ++ calls))).
  { unfold resolution_of. fold before.
    rewrite (resolver_run W _ api_key alamat name address city _ Hrow).
    cbn [trace record_event with_trace]. fold t.
    destruct (Hworld 0 _ eq_refl) as (r0 & Hg0 & Hn0).
    destruct (Hworld 1 _ eq_refl) as (r1 & Hg1 & Hn1).
    destruct (Hworld 2 _ eq_refl) as (r2 & Hg2 & Hn2).
    simpl in Hg0, Hg1, Hg2. rewrite app_nil_r in Hg0.
    rewrite (verdict_miss W api_key _ _ r0 Hg0 Hn0).
    rewrite (verdict_miss W api_key _ _ r1 Hg1 Hn1).
    rewrite (verdict_miss W api_key _ _ r2 Hg2 Hn2).
    reflexivity. }
  split; [exact Hres|]. split; [reflexivity|].
  destruct Hrow as (_ & Hname & _).
  destruct (row_in_final W api_key st i (PStr name) Hi Hname)
    as (_ & Hcells & _ & Hfinal & _).
  rewrite Hcells in Hfinal. rewrite Hres in Hfinal.
  unfold output_cells, stage_values in Hfinal. cbn [map fst rbind overwrite output_columns] in Hfinal.
  rewrite Hcell in Hfinal. injection Hfinal as Hfinal _. exact Hfinal.
Qed.

(** A row in the enriched table: its five output cells hold the values of
    the stages up to the first one that raised and the empty string from
    there on, and its other cells are as they were. *)
Lemma row_after_the_loop W api_key st i name :
  i < nrows (data_frame st) ->
  series_getitem (row_of (data_frame st) i) "name" = Ok name ->
  output_cells (data_frame st) i = replicate 5 (Some (PStr "")) ->
  let resolved := resolution_of W api_key st i name in
  let final := data_frame (snd (enrich_all W api_key st)) in
  nrows final = nrows (data_frame st) /\
  (forall c, ~ In c output_columns -> cell_at final i c = cell_at (data_frame st) i c) /\
  output_cells final i = map Some (fill (stage_values W api_key resolved)) /\
  (forall found e,
      fst resolved = Ok found ->
      detail_answer W api_key (trace (snd resolved)) (py_str W found) = Raise e ->
      output_cells final i =
      [Some (PStr (py_str W found)); Some (PStr ""); Some (PStr "");
       Some (PStr ""); Some (PStr "")]).
Proof.
  intros Hi Hname Hcells resolved final.
  destruct (touches_enrich_all W api_key st) as (_ & _ & _ & Hn & _ & Hother).
  destruct (row_in_final W api_key st i name Hi Hname)
    as (_ & Hrow & _ & Hfinal & _).
  fold resolved in Hrow. rewrite Hrow, Hcells in Hfinal.
  assert (Hfill : output_cells final i = map Some (fill (stage_values W api_key resolved))).
  { subst final. rewrite Hfinal. apply overwrite_defaults. }
  repeat split.
  - exact Hn.
  - intros c Hc. apply Hother. right. exact Hc.
  - exact Hfill.
  - intros found e Hfound Hdetail. rewrite Hfill. unfold stage_values.
    rewrite Hfound. cbn [rbind]. rewrite Hdetail. reflexivity.
Qed.

(** C9: a row whose resolution is exhausted is not skipped: right after the
    resolution a GET is sent to the details endpoint whose place_id
    parameter is the text None (with the key and the fields url, photos,
    geometry). *)
Theorem exhausted_row_still_fetches_details W api_key st i name :
  i < nrows (data_frame st) ->
  series_getitem (row_of (data_frame st) i) "name" = Ok name ->
  let resolved := resolution_of W api_key st i name in
  fst resolved = Ok PNone ->
  exists later,
    trace (snd (enrich_all W api_key st)) =
    trace (snd resolved)
    ++ EGet "https://maps.googleapis.com/maps/api/place/details/json"
            [("place_id", PStr "None");
             ("key", api_key);
             ("fields", PStr "url,photos,geometry")]
       :: later.
Proof.
  intros Hi Hname resolved Hnone.
  destruct (row_in_final W api_key st i name Hi Hname)
    as (_ & _ & Htrace & _ & later & Hlater).
  fold resolved in Htrace. rewrite Hlater, Htrace.
  unfold stage_calls. rewrite Hnone. cbn [py_str].
  eexists. rewrite <- app_assoc. reflexivity.
Qed.

(** C10: when the detail payload has a url and both coordinates but an
    empty photo list, indexing the first photo raises only after place_id,
    map_url, latitude and longitude have been written; the enriched table
    keeps them, image_url stays empty, and no photo request is made. *)
Theorem empty_photos_keep_coordinates W api_key st i name found d u la lo res :
  i < nrows (data_frame st) ->
  series_getitem (row_of (data_frame st) i) "name" = Ok name ->
  output_cells (data_frame st) i = replicate 5 (Some (PStr "")) ->
  let resolved := resolution_of W api_key st i name in
  fst resolved = Ok found ->
  detail_answer W api_key (trace (snd resolved)) (py_str W found) = Ok d ->
  extract_url d = Ok u ->
  extract_coordinate d "lat" = Ok la ->
  extract_coordinate d "lng" = Ok lo ->
  getitem d "result" = Ok res ->
  getitem res "photos" = Ok (PList []) ->
  let row_out :=
    enrich_row W api_key i (row_of (data_frame st) i) (state_before_row W api_key st i) in
  let written :=
    [Some (PStr (py_str W found)); Some (PStr (py_str W u)); Some (PStr (py_str W la));
     Some (PStr (py_str W lo)); Some (PStr "")] in
  fst row_out = Raise IndexError /\
  output_cells (data_frame (snd row_out)) i = written /\
  trace (snd row_out) =
    trace (snd resolved)
    ++ [EGet details_endpoint (details_params (PStr (py_str W found)) api_key)] /\
  output_cells (data_frame (snd (enrich_all W api_key st))) i = written.
Proof.
  intros Hi Hname Hcells resolved Hfound Hdetail Hu Hla Hlo Hres Hphotos row_out written.
  destruct (row_in_final W api_key st i name Hi Hname)
    as (Hfst & Hrow & Htrace & Hfinal & _).
  fold resolved in Hfst, Hrow, Htrace. fold row_out in Hfst, Hrow, Htrace, Hfinal.
  assert (Hphoto : extract_photo_reference d = Raise IndexError).
  { unfold extract_photo_reference. rewrite Hres. cbn [rbind]. rewrite Hphotos. reflexivity. }
  assert (Hstages : stage_values W api_key resolved =
                    [Ok (py_str W found); Ok (py_str W u); Ok (py_str W la);
                     Ok (py_str W lo); Raise IndexError]).
  { unfold stage_values. rewrite Hfound. cbn [rbind]. rewrite Hdetail. cbn [rbind].
    rewrite Hu, Hla, Hlo, Hphoto. reflexivity. }
  rewrite Hstages in Hfst, Hrow. rewrite Hcells in Hrow.
  repeat split.
  - exact Hfst.
  - exact Hrow.
  - rewrite Htrace. unfold stage_calls, photo_stage. rewrite Hfound. cbn [rbind].
    rewrite Hdetail. cbn [rbind]. rewrite Hu, Hla, Hlo, Hphoto. reflexivity.
  - rewrite Hfinal. exact Hrow.
Qed.

(** ** The whole run *)

Ltac run_persist W :=
  repeat (cbn [fst snd trace data_frame connection cursor
               record_event with_trace with_connection with_cursor with_data_frame];
          try match goal with
              | |- context [perform W ?t ?ev] => destruct (perform W t ev) as [[]|?]
              end).

(** The database step leaves the table alone, and what it appends is the
    table it starts with. *)
Lemma persist_events W db_url st :
  data_frame (snd (persist W db_url st)) = data_frame st /\
  exists evs,
    trace (snd (persist W db_url st)) = trace st ++ evs /\
    Forall (persist_event (data_frame st)) evs.
Proof.
  unfold persist, try_finally, try_except, check_table_exits, insert_data,
    bind, call, read_local, print, ret, get_data_frame.
  destruct st as [t df [conn|] [cur|]]; run_persist W.
  all: split; [reflexivity|].
  all: rewrite <- ?app_assoc; cbn [app]; eexists; (split; [reflexivity|]).
  all: repeat constructor.
Qed.

Lemma set_column_names_keep label cells cols k :
  In k (map fst cols) -> In k (map fst (set_column label cells cols)).
Proof.
  induction cols as [|[c old] rest IH]; simpl; [tauto|].
  destruct (String.eqb c label); simpl; intros [Hk|Hk]; auto.
Qed.

Lemma set_column_names_new label cells cols :
  In label (map fst (set_column label cells cols)).
Proof.
  induction cols as [|[c old] rest IH]; simpl; [auto|].
  destruct (String.eqb_spec c label) as [->|Hne]; simpl; auto.
Qed.

Lemma cell_at_setitem_other df label cells i c :
  c <> label -> cell_at (df_setitem df label cells) i c = cell_at df i c.
Proof.
  intros Hne. unfold cell_at, df_setitem. simpl.
  rewrite assoc_lookup_set_column_ne by exact Hne. reflexivity.
Qed.

Lemma cell_at_setitem_same df label cells i :
  cell_at (df_setitem df label cells) i label = cells !! i.
Proof.
  unfold cell_at, df_setitem. simpl. rewrite assoc_lookup_set_column_eq. reflexivity.
Qed.

Lemma has_column_In df label : has_column df label = true <-> In label (column_names df).
Proof.
  unfold has_column. rewrite existsb_exists. split.
  - intros (x & Hx & Heq). apply String.eqb_eq in Heq. subst. exact Hx.
  - intros H. exists label. split; [exact H|apply String.eqb_refl].
Qed.

Section Prepared.

Variable W : World.

Lemma add_working_columns_inv df df1 :
  add_working_columns W df = Ok df1 ->
  exists names alamat,
    df_getitem df "name" = Ok names /\
    df1 = df_setitem_scalar
            (df_setitem_scalar
               (df_setitem_scalar
                  (df_setitem_scalar
                     (df_setitem_scalar (df_setitem df "alamat_parameter" alamat)
                        "place_id" (PStr ""))
                     "map_url" (PStr ""))
                  "latitude" (PStr ""))
               "longitude" (PStr ""))
            "image_url" (PStr "").
Proof.
  unfold add_working_columns. intros H.
  destruct (df_getitem df "name") as [names|] eqn:Hnames; cbn [rbind] in H; [|discriminate].
  repeat match type of H with
         | rbind ?r _ = Ok _ => destruct r; cbn [rbind] in H; [|discriminate]
         end.
  injection H as <-. eexists. eexists. split; reflexivity.
Qed.

(** Lines 212-223: the prepared table has the rows and the input cells of
    the table that was read, the two working columns, and empty output
    cells. *)
Lemma prepared_frame df df1 :
  add_working_columns W df = Ok df1 ->
  nrows df1 = nrows df /\
  In "alamat_parameter" (column_names df1) /\
  In "place_id" (column_names df1) /\
  (forall i c, ~ In c ("alamat_parameter" :: output_columns) ->
               cell_at df1 i c = cell_at df i c) /\
  (forall i, i < nrows df -> output_cells df1 i = replicate 5 (Some (PStr ""))).
Proof.
  intros H. apply add_working_columns_inv in H as (names & alamat & _ & ->).
  split; [reflexivity|].
  split. { unfold column_names, df_setitem_scalar, df_setitem. simpl.
           do 5 apply set_column_names_keep. apply set_column_names_new. }
  split. { unfold column_names, df_setitem_scalar, df_setitem. simpl.
           do 4 apply set_column_names_keep. apply set_column_names_new. }
  split.
  - intros i c Hc. unfold df_setitem_scalar.
    rewrite !cell_at_setitem_other; [reflexivity|..];
      intros ->; apply Hc; simpl; tauto.
  - intros i Hi. unfold output_cells, output_columns, df_setitem_scalar. cbn [map].
    repeat (rewrite ?cell_at_setitem_same; rewrite ?cell_at_setitem_other by discriminate).
    cbn [nrows df_setitem].
    rewrite !lookup_replicate_2 by exact Hi. reflexivity.
Qed.

(** Every row of the prepared table meets the premises under which the
    properties of a row are stated: it has a name to print, and its five
    output cells exist and hold the empty string when the loop starts. *)
Lemma prepared_rows_meet_the_premises st0 df df1 i :
  add_working_columns W df = Ok df1 ->
  i < nrows df ->
  let st := loop_start st0 df1 in
  i < nrows (data_frame st) /\
  (exists name, series_getitem (row_of (data_frame st) i) "name" = Ok name) /\
  output_cells (data_frame st) i = replicate 5 (Some (PStr "")).
Proof.
  intros Hadd Hi st. subst st. cbn [loop_start data_frame record_event with_trace with_data_frame].
  destruct (prepared_frame df df1 Hadd) as (Hn & _ & _ & _ & Hcells).
  split; [rewrite Hn; exact Hi|]. split; [|apply Hcells; exact Hi].
  apply add_working_columns_inv in Hadd as (names & alamat & Hnames & ->).
  unfold df_getitem in Hnames.
  destruct (assoc_lookup "name" (columns df)) as [cells|] eqn:Hlookup; [|discriminate].
  exists (default PNone (cells !! i)).
  unfold series_getitem. rewrite assoc_lookup_row_of.
  unfold df_setitem_scalar, df_setitem. cbn [columns].
  repeat (rewrite assoc_lookup_set_column_ne by discriminate).
  rewrite Hlookup. reflexivity.
Qed.

(** When the loop reaches a row, the five cells that it assigns exist (and
    still hold the empty string): no assignment of [main] falls outside the
    table. *)
Lemma assignments_hit_existing_cells st0 df df1 api_key i c :
  add_working_columns W df = Ok df1 ->
  i < nrows df ->
  In c output_columns ->
  cell_at (data_frame (state_before_row W api_key (loop_start st0 df1) i)) i c
  = Some (PStr "").
Proof.
  intros Hadd Hi Hc.
  destruct (prepared_rows_meet_the_premises st0 df df1 i Hadd Hi) as (Hi' & _ & Hcells).
  destruct (enrich_all_row W api_key (loop_start st0 df1) i Hi') as (Hbefore & _).
  rewrite Hbefore. unfold output_cells in Hcells. cbn [map output_columns replicate] in Hcells.
  injection Hcells as H1 H2 H3 H4 H5.
  cbn in Hc. destruct Hc as [<-|[<-|[<-|[<-|[<-|[]]]]]]; assumption.
Qed.

End Prepared.

(** Line 265: the pruned table. *)
Lemma drop_columns_spec df labels dropped :
  drop_columns df labels = Ok dropped ->
  nrows dropped = nrows df /\
  (forall l, In l labels -> ~ In l (column_names dropped)) /\
  (forall c, ~ In c labels -> df_getitem dropped c = df_getitem df c) /\
  (forall l, In l labels -> In l (column_names df)).
Proof.
  unfold drop_columns. intros H.
  destruct (List.filter (fun l => negb (has_column df l)) labels) as [|missing rest] eqn:E;
    [|discriminate].
  injection H as <-. cbn [nrows columns]. repeat split.
  - intros l Hl Hin. unfold column_names in Hin. cbn [columns] in Hin.
    apply in_map_iff in Hin as ([k cells] & <- & Hin).
    apply filter_In in Hin as [_ Hkeep]. cbn [fst] in Hkeep.
    apply negb_true_iff in Hkeep.
    assert (existsb (String.eqb k) labels = true); [|congruence].
    apply existsb_exists. exists k. split; [exact Hl|apply String.eqb_refl].
  - intros c Hc. unfold df_getitem. cbn [columns].
    induction (columns df) as [|[k cells] rest IH]; cbn [List.filter assoc_lookup fst];
      [reflexivity|].
    destruct (existsb (String.eqb k) labels) eqn:Ek; cbn [negb assoc_lookup].
    + destruct (String.eqb_spec c k) as [->|Hne]; [|exact IH].
      exfalso. apply Hc. apply existsb_exists in Ek as (l & Hl & Heq).
      apply String.eqb_eq in Heq. subst. exact Hl.
    + destruct (String.eqb c k); [reflexivity|exact IH].
  - intros l Hl. apply has_column_In.
    destruct (has_column df l) eqn:Eh; [reflexivity|].
    assert (Hin : In l (List.filter (fun l => negb (has_column df l)) labels)).
    { apply filter_In. split; [exact Hl|]. rewrite Eh. reflexivity. }
    rewrite E in Hin. destruct Hin.
Qed.

Lemma drop_columns_ok df labels :
  (forall l, In l labels -> In l (column_names df)) ->
  exists dropped, drop_columns df labels = Ok dropped.
Proof.
  intros Hall. unfold drop_columns.
  destruct (List.filter (fun l => negb (has_column df l)) labels) as [|missing rest] eqn:E.
  - eexists. reflexivity.
  - exfalso. assert (Hin : In missing (List.filter (fun l => negb (has_column df l)) labels))
      by (rewrite E; left; reflexivity).
    apply filter_In in Hin as [Hl Hno]. apply Hall, has_column_In in Hl.
    rewrite Hl in Hno. discriminate.
Qed.

Section Main.

Variable W : World.

(** [main] from the first spreadsheet on, once the table is read and
    prepared: the loop cannot fail. *)
Lemma main_run st df0 df1 :
  read_excel W (trace st) input_file = Ok df0 ->
  add_working_columns W df0 = Ok df1 ->
  let st3 := loop_end W st df1 in
  let enriched := data_frame st3 in
  let st4 := record_event st3 (EToExcel first_snapshot enriched) in
  main W st =
  match perform W (trace st3) (EToExcel first_snapshot enriched) with
  | Raise e => (Raise e, st4)
  | Ok _ =>
      match drop_columns enriched columns_to_delete with
      | Raise e => (Raise e, st4)
      | Ok dropped =>
          match persist W (db_url_of W) (with_data_frame st4 dropped) with
          | (Raise e, st6) => (Raise e, st6)
          | (Ok _, st6) =>
              (perform W (trace st6) (EToExcel final_export (data_frame st6)),
               record_event st6 (EToExcel final_export (data_frame st6)))
          end
      end
  end.
Proof.
  intros Hread Hadd st3 enriched st4. subst st4 enriched st3.
  unfold loop_end, loop_start, main.
  rewrite bind_run. unfold pd_read_excel. fold input_file. rewrite Hread.
  rewrite bind_run. cbn [lift]. rewrite Hadd.
  rewrite bind_run. cbn [set_data_frame].
  rewrite bind_run. cbn [print].
  rewrite bind_run.
  fold (loop_start st df1).
  pose proof (enrich_all_ok W (getenv W "KEY") (loop_start st df1)) as Hok.
  destruct (enrich_all W (getenv W "KEY") (loop_start st df1)) as [[[]|e] st2];
    cbn [fst] in Hok; [|discriminate].
  cbn [snd].
  rewrite bind_run. cbn [print].
  rewrite bind_run. cbn [get_data_frame].
  rewrite bind_run. unfold call at 1. fold first_snapshot.
  cbn [trace data_frame record_event with_trace].
  destruct (perform W (trace st2 ++ _) (EToExcel first_snapshot (data_frame st2)))
    as [[]|e]; [|reflexivity].
  rewrite bind_run. cbn [lift].
  destruct (drop_columns (data_frame st2) columns_to_delete) as [dropped|e]; [|reflexivity].
  rewrite bind_run. cbn [set_data_frame]. cbv zeta.
  rewrite bind_run. fold (db_url_of W).
  match goal with
  | |- context [persist W (db_url_of W) ?s] =>
      destruct (persist W (db_url_of W) s) as [[[]|e] st6]
  end; [|reflexivity].
  rewrite bind_run. cbn [get_data_frame]. reflexivity.
Qed.

End Main.

Section Main_events.

Variable W : World.

(** Lines 267-287 when [psycopg2.connect] raises: the handler prints, and
    the cleanup reads [cursor], which was never assigned. *)
Lemma persist_connect_failure db_url st e :
  connection st = None ->
  cursor st = None ->
  perform W (trace st) (EConnect db_url) = Raise e ->
  persist W db_url st =
  (Raise (UnboundLocalError "cursor"),
   with_trace st (trace st ++ [EConnect db_url;
                               EPrint ("Error while connecting to PostgreSQL: "
                                       ++ str_of_exn W e)])).
Proof.
  intros Hconn Hcur Hfail.
  unfold persist, try_finally, try_except, bind, call, read_local, print.
  rewrite Hfail. cbn [cursor record_event with_trace]. rewrite Hcur.
  rewrite record_event_twice. reflexivity.
Qed.

(** The same happens when the connection is made and the cursor is not. *)
Lemma persist_cursor_failure db_url st e :
  cursor st = None ->
  perform W (trace st) (EConnect db_url) = Ok tt ->
  perform W (trace st ++ [EConnect db_url]) ECursor = Raise e ->
  fst (persist W db_url st) = Raise (UnboundLocalError "cursor").
Proof.
  intros Hcur Hconn Hfail.
  unfold persist, try_finally, try_except, bind, call, read_local, print.
  rewrite Hconn. cbn [trace cursor record_event with_trace with_connection].
  rewrite Hfail. cbn [trace cursor record_event with_trace with_connection].
  rewrite Hcur. reflexivity.
Qed.

(** Once both handles exist, a failure of the table creation or of the
    append is caught, and the step ends normally if the two handles close. *)

Lemma persist_handles_later_failures db_url st :
  perform W (trace st) (EConnect db_url) = Ok tt ->
  perform W (trace st ++ [EConnect db_url]) ECursor = Ok tt ->
  (forall t, perform W t ECursorClose = Ok tt) ->
  (forall t, perform W t EConnectionClose = Ok tt) ->
  fst (persist W db_url st) = Ok tt.
Proof.
  intros Hconn Hcur Hc1 Hc2.
  unfold persist, try_finally, try_except, check_table_exits, insert_data,
    bind, call, read_local, print, ret, get_data_frame.
  rewrite Hconn. cbn [trace record_event with_trace with_connection]. rewrite Hcur.
  repeat (cbn [fst snd trace data_frame connection cursor
               record_event with_trace with_connection with_cursor with_data_frame];
          rewrite ?Hc1, ?Hc2;
          try match goal with
              | |- context [perform W ?t ?ev] => destruct (perform W t ev) as [[]|?]
              end); reflexivity.
Qed.

Lemma main_read_failure st e :
  read_excel W (trace st) input_file = Raise e ->
  main W st = (Raise e, record_event st (EReadExcel input_file)).
Proof.
  intros H. unfold main. rewrite bind_run. unfold pd_read_excel. fold input_file.
  rewrite H. reflexivity.
Qed.

Lemma main_prepare_failure st df0 e :
  read_excel W (trace st) input_file = Ok df0 ->
  add_working_columns W df0 = Raise e ->
  main W st = (Raise e, record_event st (EReadExcel input_file)).
Proof.
  intros H Hadd. unfold main. rewrite bind_run. unfold pd_read_excel. fold input_file.
  rewrite H. rewrite bind_run. cbn [lift]. rewrite Hadd. reflexivity.
Qed.

(** What the loop of [main] leaves behind. *)
Lemma loop_end_events st df1 :
  let enriched := data_frame (loop_end W st df1) in
  connection (loop_end W st df1) = connection st /\
  cursor (loop_end W st df1) = cursor st /\
  nrows enriched = nrows df1 /\
  column_names enriched = column_names df1 /\
  (forall i c, ~ In c output_columns -> cell_at enriched i c = cell_at df1 i c) /\
  exists evs,
    trace (loop_end W st df1) = trace st ++ evs /\ Forall harmless evs.
Proof.
  intros enriched. subst enriched. unfold loop_end.
  destruct (touches_enrich_all W (getenv W "KEY") (loop_start st df1))
    as (Hconn & Hcur & (evs & Hevs & Hall) & Hn & Hnames & Hcells).
  cbn [data_frame record_event with_trace].
  repeat split.
  - exact Hconn.
  - exact Hcur.
  - exact Hn.
  - exact Hnames.
  - intros i c Hc. apply Hcells. right. exact Hc.
  - cbn [trace record_event with_trace]. rewrite Hevs. unfold loop_start.
    cbn [trace record_event with_trace with_data_frame].
    eexists. rewrite <- !app_assoc. split; [reflexivity|]. cbn [app].
    repeat constructor. apply Forall_app. split.
    + eapply Forall_impl; [exact Hall|]. intros [] H; exact H || destruct H.
    + repeat constructor.
Qed.

(** The events of any run of [main]. *)
Lemma main_events st :
  exists evs, trace (snd (main W st)) = trace st ++ evs /\ main_shape evs.
Proof.
  destruct (read_excel W (trace st) input_file) as [df0|e] eqn:Hread.
  2:{ rewrite (main_read_failure st e Hread). exists [EReadExcel input_file].
      split; [reflexivity|]. left. repeat constructor. }
  destruct (add_working_columns W df0) as [df1|e] eqn:Hadd.
  2:{ rewrite (main_prepare_failure st df0 e Hread Hadd). exists [EReadExcel input_file].
      split; [reflexivity|]. left. repeat constructor. }
  rewrite (main_run W st df0 df1 Hread Hadd). cbv zeta.
  destruct (loop_end_events st df1) as (_ & _ & _ & _ & _ & pre & Hpre & Hharmless).
  set (st3 := loop_end W st df1) in *.
  set (enriched := data_frame st3).
  assert (Hfirst : forall r : result unit,
             exists evs,
               trace (snd (r, record_event st3 (EToExcel first_snapshot enriched)))
               = trace st ++ evs /\ main_shape evs).
  { intros r. exists (pre ++ [EToExcel first_snapshot enriched]). split.
    - cbn [snd trace record_event with_trace]. rewrite Hpre, app_assoc. reflexivity.
    - right. exists pre, enriched, []. auto. }
  destruct (perform W (trace st3) (EToExcel first_snapshot enriched)) as [[]|e];
    [|apply Hfirst].
  destruct (drop_columns enriched columns_to_delete) as [dropped|e] eqn:Hdrop;
    [|apply Hfirst].
  destruct (persist_events W (db_url_of W)
              (with_data_frame (record_event st3 (EToExcel first_snapshot enriched)) dropped))
    as (Hframe & pevs & Hptrace & Hpall).
  cbn [data_frame trace with_data_frame record_event with_trace] in Hframe, Hptrace, Hpall.
  assert (Hpost : Forall (after_drop dropped) pevs).
  { eapply Forall_impl; [exact Hpall|]. intros [] H; cbn in *; auto; destruct H. }
  destruct (persist W (db_url_of W)
              (with_data_frame (record_event st3 (EToExcel first_snapshot enriched)) dropped))
    as [[[]|e] st6]; cbn [snd] in *.
  - exists (pre ++ EToExcel first_snapshot enriched :: pevs ++ [EToExcel final_export dropped]).
    split.
    + cbn [trace record_event with_trace]. rewrite Hframe, Hptrace, Hpre.
      rewrite <- !app_assoc. reflexivity.
    + right. exists pre, enriched, (pevs ++ [EToExcel final_export dropped]).
      repeat split; [exact Hharmless|]. right. exists dropped. split; [exact Hdrop|].
      apply Forall_app. split; [exact Hpost|]. repeat constructor.
  - exists (pre ++ EToExcel first_snapshot enriched :: pevs). split.
    + rewrite Hptrace, Hpre. rewrite <- !app_assoc. reflexivity.
    + right. exists pre, enriched, pevs. repeat split; [exact Hharmless|].
      right. exists dropped. auto.
Qed.

(** What a run writes, once the table is read and prepared: the enriched
    table to the first spreadsheet, and after that only the pruned table. *)
Lemma main_outputs st df0 df1 :
  read_excel W (trace st) input_file = Ok df0 ->
  add_working_columns W df0 = Ok df1 ->
  let enriched := data_frame (snd (enrich_all W (getenv W "KEY") (loop_start st df1))) in
  exists pre post,
    trace (snd (main W st)) = trace st ++ pre ++ EToExcel first_snapshot enriched :: post /\
    Forall harmless pre /\
    (post = [] \/
     exists dropped,
       drop_columns enriched columns_to_delete = Ok dropped /\
       Forall (after_drop dropped) post).
Proof.
  intros Hread Hadd enriched.
  rewrite (main_run W st df0 df1 Hread Hadd). cbv zeta.
  destruct (loop_end_events st df1) as (_ & _ & _ & _ & _ & pre & Hpre & Hharmless).
  assert (Henriched : data_frame (loop_end W st df1) = enriched) by reflexivity.
  rewrite Henriched.
  set (st3 := loop_end W st df1) in *.
  assert (Hfirst : forall r : result unit,
             exists pre post,
               trace (snd (r, record_event st3 (EToExcel first_snapshot enriched)))
               = trace st ++ pre ++ EToExcel first_snapshot enriched :: post /\
               Forall harmless pre /\
               (post = [] \/
                exists dropped,
                  drop_columns enriched columns_to_delete = Ok dropped /\
                  Forall (after_drop dropped) post)).
  { intros r. exists pre, []. split; [|auto].
    cbn [snd trace record_event with_trace]. rewrite Hpre, app_assoc. reflexivity. }
  destruct (perform W (trace st3) (EToExcel first_snapshot enriched)) as [[]|e];
    [|apply Hfirst].
  destruct (drop_columns enriched columns_to_delete) as [dropped|e] eqn:Hdrop;
    [|apply Hfirst].
  destruct (persist_events W (db_url_of W)
              (with_data_frame (record_event st3 (EToExcel first_snapshot enriched)) dropped))
    as (Hframe & pevs & Hptrace & Hpall).
  cbn [data_frame trace with_data_frame record_event with_trace] in Hframe, Hptrace, Hpall.
  assert (Hpost : Forall (after_drop dropped) pevs).
  { eapply Forall_impl; [exact Hpall|]. intros [] H; cbn in *; auto; destruct H. }
  destruct (persist W (db_url_of W)
              (with_data_frame (record_event st3 (EToExcel first_snapshot enriched)) dropped))
    as [[[]|e] st6]; cbn [snd] in *.
  - exists pre, (pevs ++ [EToExcel final_export dropped]). split.
    + cbn [trace record_event with_trace]. rewrite Hframe, Hptrace, Hpre.
      rewrite <- !app_assoc. reflexivity.
    + split; [exact Hharmless|]. right. exists dropped. split; [reflexivity|].
      apply Forall_app. split; [exact Hpost|]. repeat constructor.
  - exists pre, pevs. split.
    + rewrite Hptrace, Hpre. rewrite <- !app_assoc. reflexivity.
    + split; [exact Hharmless|]. right. exists dropped. auto.
Qed.

End Main_events.

Lemma assoc_lookup_None {V} key (entries : list (string * V)) :
  assoc_lookup key entries = None <-> ~ In key (map fst entries).
Proof.
  induction entries as [|[k v] rest IH]; cbn; [tauto|].
  destruct (String.eqb_spec key k) as [->|Hne].
  - split; [discriminate|]. intros H. exfalso. apply H. left. reflexivity.
  - rewrite IH. split; [intros H [Hk|Hin]; [congruence|tauto]|tauto].
Qed.

Lemma cell_at_absent df i c : ~ In c (column_names df) -> cell_at df i c = None.
Proof.
  intros H. apply assoc_lookup_None in H. unfold cell_at. rewrite H. reflexivity.
Qed.

Lemma cell_at_same_column df df' i c :
  df_getitem df' c = df_getitem df c -> cell_at df' i c = cell_at df i c.
Proof.
  unfold df_getitem, cell_at.
  destruct (assoc_lookup c (columns df')), (assoc_lookup c (columns df));
    intros H; try discriminate; [injection H as ->|]; reflexivity.
Qed.

Lemma Forall_In {A} (P : A -> Prop) (l : list A) (x : A) :
  Forall P l -> In x l -> P x.
Proof. intros Hall Hin. apply (proj1 (List.Forall_forall P l) Hall x Hin). Qed.

Section Banners.

Variable W : World.

Lemma process_row_banner api_key item st :
  exists more,
    trace (snd (process_row W api_key item st)) = trace st ++ row_banner W item :: more.
Proof.
  destruct item as [index row]. unfold row_banner. cbn [fst snd].
  destruct (series_getitem row "name") as [name|e] eqn:Hname.
  - rewrite process_row_run.
    destruct (enrich_row_run W api_key index row name st Hname) as (_ & _ & Htrace).
    destruct (quiet_resolver W row api_key (record_event st (progress_line W index name)))
      as (evs & Hquiet & _).
    rewrite Hquiet in Htrace. cbn [trace record_event with_trace] in Htrace.
    destruct (enrich_row W api_key index row st) as [[u|e] st']; cbn [snd] in *.
    + rewrite Htrace. eexists. rewrite <- !app_assoc. reflexivity.
    + cbn [trace record_event with_trace]. rewrite Htrace.
      eexists. rewrite <- !app_assoc. reflexivity.
  - unfold process_row, try_except, enrich_row. cbn [fst snd].
    rewrite bind_run. cbn [lift]. rewrite Hname. exists []. reflexivity.
Qed.

Lemma for_in_banners api_key items st :
  exists evs,
    trace (snd (for_in items (process_row W api_key) st)) = trace st ++ evs /\
    map (row_banner W) items `sublist_of` evs.
Proof.
  revert st. induction items as [|item rest IH]; intros st.
  - exists []. split; [cbn; rewrite app_nil_r; reflexivity|constructor].
  - cbn [for_in]. rewrite bind_run.
    destruct (process_row_banner api_key item st) as (more & Hmore).
    pose proof (process_row_ok W api_key item st) as Hok.
    destruct (process_row W api_key item st) as [[[]|e] st']; cbn [fst snd] in *;
      [|discriminate].
    destruct (IH st') as (evs & Hevs & Hsub).
    exists (row_banner W item :: more ++ evs). split.
    + rewrite Hevs, Hmore, <- app_assoc. reflexivity.
    + cbn [map]. apply sublist_skip. apply sublist_inserts_l. exact Hsub.
Qed.

End Banners.

(** C5: once the table is read and prepared, no fault leaves the loop, and
    the enriched table has one row per input row, at the same position, with
    the input cells as they were read; every row is begun, in the order of
    the input, and the enriched table is what the first spreadsheet is
    written from. *)
Theorem one_enriched_row_per_input_row W st df0 df1 :
  read_excel W (trace st) input_file = Ok df0 ->
  add_working_columns W df0 = Ok df1 ->
  let loop := enrich_all W (getenv W "KEY") (loop_start st df1) in
  let enriched := data_frame (snd loop) in
  fst loop = Ok tt /\
  nrows enriched = nrows df0 /\
  column_names enriched = column_names df1 /\
  (forall i c, ~ In c ("alamat_parameter" :: output_columns) ->
               cell_at enriched i c = cell_at df0 i c) /\
  (exists evs,
      trace (snd loop) = trace (loop_start st df1) ++ evs /\
      map (row_banner W) (iterrows df1) `sublist_of` evs) /\
  (exists evs,
      trace (snd (main W st)) = trace st ++ evs /\
      In (EToExcel first_snapshot enriched) evs).
Proof.
  intros Hread Hadd loop enriched.
  destruct (prepared_frame W df0 df1 Hadd) as (Hn1 & _ & _ & Hcells1 & _).
  destruct (touches_enrich_all W (getenv W "KEY") (loop_start st df1))
    as (_ & _ & _ & Hn & Hnames & Hcells).
  split; [apply enrich_all_ok|].
  split; [subst enriched loop; rewrite Hn; exact Hn1|].
  split; [exact Hnames|].
  split.
  { intros i c Hc. subst enriched loop. rewrite Hcells.
    - apply Hcells1. exact Hc.
    - right. intros Hin. apply Hc. right. exact Hin. }
  split.
  { subst loop. unfold enrich_all. rewrite bind_run. cbn [get_data_frame].
    apply for_in_banners. }
  rewrite (main_run W st df0 df1 Hread Hadd). cbv zeta.
  destruct (loop_end_events W st df1) as (_ & _ & _ & _ & _ & pre & Hpre & _).
  assert (Henriched : data_frame (loop_end W st df1) = enriched) by reflexivity.
  rewrite Henriched.
  assert (Hfirst : forall r : result unit,
             exists evs,
               trace (snd (r, record_event (loop_end W st df1)
                                 (EToExcel first_snapshot enriched)))
               = trace st ++ evs /\ In (EToExcel first_snapshot enriched) evs).
  { intros r. exists (pre ++ [EToExcel first_snapshot enriched]). split.
    - cbn [snd trace record_event with_trace]. rewrite Hpre, app_assoc. reflexivity.
    - apply in_or_app. right. left. reflexivity. }
  destruct (perform W (trace (loop_end W st df1)) (EToExcel first_snapshot enriched))
    as [[]|e]; [|apply Hfirst].
  destruct (drop_columns enriched columns_to_delete) as [dropped|e]; [|apply Hfirst].
  destruct (persist_events W (db_url_of W)
              (with_data_frame
                 (record_event (loop_end W st df1) (EToExcel first_snapshot enriched))
                 dropped)) as (_ & pevs & Hptrace & _).
  cbn [trace with_data_frame record_event with_trace] in Hptrace.
  destruct (persist W (db_url_of W)
              (with_data_frame
                 (record_event (loop_end W st df1) (EToExcel first_snapshot enriched))
                 dropped)) as [[[]|e] st6]; cbn [snd] in *.
  - eexists. split.
    + cbn [trace record_event with_trace]. rewrite Hptrace, Hpre.
      rewrite <- !app_assoc. reflexivity.
    + apply in_or_app. right. left. reflexivity.
  - eexists. split.
    + rewrite Hptrace, Hpre. rewrite <- !app_assoc. reflexivity.
    + apply in_or_app. right. left. reflexivity.
Qed.

(** C7 (where the code departs from it): when the database cannot be
    reached, the handler prints its line, the cleanup then reads the local
    [cursor] that was never assigned, and the run ends with that fault: the
    final spreadsheet is not written. *)
Theorem database_down_aborts_the_run W st df0 df1 e :
  connection st = None ->
  cursor st = None ->
  read_excel W (trace st) input_file = Ok df0 ->
  add_working_columns W df0 = Ok df1 ->
  (forall t df, perform W t (EToExcel first_snapshot df) = Ok tt) ->
  (forall t, perform W t (EConnect (db_url_of W)) = Raise e) ->
  fst (main W st) = Raise (UnboundLocalError "cursor") /\
  exists evs,
    trace (snd (main W st)) = trace st ++ evs /\
    In (EPrint ("Error while connecting to PostgreSQL: " ++ str_of_exn W e)) evs /\
    forall df, ~ In (EToExcel final_export df) evs.
Proof.
  intros Hconn Hcur Hread Hadd Hsnapshot Hdown.
  rewrite (main_run W st df0 df1 Hread Hadd). cbv zeta.
  destruct (prepared_frame W df0 df1 Hadd) as (_ & Hala & Hpid & _ & _).
  destruct (loop_end_events W st df1)
    as (Hconn' & Hcur' & _ & Hnames & _ & pre & Hpre & Hharmless).
  rewrite Hsnapshot.
  destruct (drop_columns_ok (data_frame (loop_end W st df1)) columns_to_delete)
    as [dropped Hdrop].
  { intros l [<-|[<-|[]]]; rewrite Hnames; assumption. }
  rewrite Hdrop.
  rewrite (persist_connect_failure W (db_url_of W) _ e).
  - split; [reflexivity|]. cbn [snd trace with_trace with_data_frame record_event].
    rewrite Hpre. eexists. rewrite <- !app_assoc. split; [reflexivity|]. split.
    + apply in_or_app. right. cbn. auto.
    + intros df Hin. apply in_app_or in Hin as [Hin|Hin].
      * apply (Forall_In _ _ _ Hharmless Hin).
      * cbn in Hin. destruct Hin as [H|[H|[H|[]]]]; discriminate.
  - cbn [connection with_data_frame record_event with_trace].
    rewrite Hconn', Hconn. reflexivity.
  - cbn [cursor with_data_frame record_event with_trace].
    rewrite Hcur', Hcur. reflexivity.
  - apply Hdown.
Qed.

(** C8: whatever [main] appends to the database table, and whatever it
    writes to the final spreadsheet, is the enriched table of the first
    spreadsheet without the columns alamat_parameter and place_id, and with
    every other column as it was. *)
Theorem working_columns_are_dropped W st evs :
  trace (snd (main W st)) = trace st ++ evs ->
  forall ev df,
    In ev evs ->
    (exists table, ev = EToSql table df) \/ ev = EToExcel final_export df ->
    exists enriched,
      In (EToExcel first_snapshot enriched) evs /\
      drop_columns enriched columns_to_delete = Ok df /\
      ~ In "alamat_parameter" (column_names df) /\
      ~ In "place_id" (column_names df) /\
      nrows df = nrows enriched /\
      forall c, ~ In c columns_to_delete -> df_getitem df c = df_getitem enriched c.
Proof.
  intros Htrace ev df Hin Hev.
  destruct (main_events W st) as (evs' & Htrace' & Hshape).
  rewrite Htrace in Htrace'. apply app_inv_head in Htrace'. subst evs'.
  assert (Hnot : ~ harmless ev).
  { destruct Hev as [[table ->]| ->]; intros []. }
  destruct Hshape as [Hall|(pre & enriched & post & -> & Hpre & Hpost)].
  { exfalso. apply Hnot. apply (Forall_In _ _ _ Hall Hin). }
  apply in_app_or in Hin as [Hin|[Hin|Hin]].
  { exfalso. apply Hnot. apply (Forall_In _ _ _ Hpre Hin). }
  { exfalso. subst ev. destruct Hev as [[table Heq]|Heq]; discriminate. }
  destruct Hpost as [->|(dropped & Hdrop & Hall)]; [destruct Hin|].
  pose proof (Forall_In _ _ _ Hall Hin) as Hafter. clear Hall. rename Hafter into Hall.
  assert (df = dropped) as ->.
  { destruct Hev as [[table ->]| ->]; cbn in Hall; [exact Hall|apply Hall]. }
  exists enriched.
  destruct (drop_columns_spec enriched columns_to_delete dropped Hdrop)
    as (Hn & Habsent & Hkept & _).
  split; [apply in_or_app; right; left; reflexivity|].
  split; [exact Hdrop|].
  split; [apply Habsent; cbn; auto|].
  split; [apply Habsent; cbn; auto|].
  split; [exact Hn|exact Hkept].
Qed.

(** C6 (as the code has it): a row whose resolution succeeds and whose
    detail fetch raises is in the enriched table, which is what the first
    spreadsheet is written from, with the resolved identifier in place_id
    and the empty string in map_url, latitude, longitude and image_url; in
    general the five cells hold the values of the stages up to the first
    one that raised and the empty string from there on, and the input cells
    of the row are as they were read.  In what is appended to the database
    and written to the final spreadsheet the row is there with the same
    cells, except that it has no place_id (and no alamat_parameter): that
    column is dropped before. *)
Theorem faulted_row_keeps_earlier_fields W st df0 df1 i name :
  read_excel W (trace st) input_file = Ok df0 ->
  add_working_columns W df0 = Ok df1 ->
  i < nrows df0 ->
  series_getitem (row_of df1 i) "name" = Ok name ->
  let api_key := getenv W "KEY" in
  let resolved := resolution_of W api_key (loop_start st df1) i name in
  let stages := stage_values W api_key resolved in
  let enriched := data_frame (snd (enrich_all W api_key (loop_start st df1))) in
  nrows enriched = nrows df0 /\
  output_cells enriched i = map Some (fill stages) /\
  (forall found e,
      fst resolved = Ok found ->
      detail_answer W api_key (trace (snd resolved)) (py_str W found) = Raise e ->
      output_cells enriched i =
      [Some (PStr (py_str W found)); Some (PStr ""); Some (PStr "");
       Some (PStr ""); Some (PStr "")]) /\
  (forall c, ~ In c ("alamat_parameter" :: output_columns) ->
             cell_at enriched i c = cell_at df0 i c) /\
  exists evs,
    trace (snd (main W st)) = trace st ++ evs /\
    In (EToExcel first_snapshot enriched) evs /\
    (forall df, In (EToExcel first_snapshot df) evs -> df = enriched) /\
    forall ev df,
      In ev evs ->
      (exists table, ev = EToSql table df) \/ ev = EToExcel final_export df ->
      nrows df = nrows df0 /\
      cell_at df i "place_id" = None /\
      forall c, ~ In c columns_to_delete -> cell_at df i c = cell_at enriched i c.
Proof.
  intros Hread Hadd Hi Hname api_key resolved stages enriched.
  destruct (prepared_frame W df0 df1 Hadd) as (Hn1 & _ & _ & Hinput & _).
  destruct (prepared_rows_meet_the_premises W st df0 df1 i Hadd Hi) as (Hi' & _ & Hcells).
  destruct (row_after_the_loop W api_key (loop_start st df1) i name Hi' Hname Hcells)
    as (Hn & Hother & Hfill & Hdetail).
  fold resolved in Hfill, Hdetail. fold stages in Hfill. fold enriched in Hn, Hother, Hfill, Hdetail.
  assert (Hrows : nrows enriched = nrows df0) by (rewrite Hn; exact Hn1).
  split; [exact Hrows|]. split; [exact Hfill|]. split; [exact Hdetail|].
  split.
  { intros c Hc. rewrite Hother.
    - apply Hinput. exact Hc.
    - intros Hin. apply Hc. right. exact Hin. }
  destruct (main_outputs W st df0 df1 Hread Hadd) as (pre & post & Htrace & Hpre & Hpost).
  fold api_key in Htrace, Hpost. fold enriched in Htrace, Hpost.
  exists (pre ++ EToExcel first_snapshot enriched :: post).
  split; [exact Htrace|].
  split; [apply in_or_app; right; left; reflexivity|].
  split.
  - intros df Hin. apply in_app_or in Hin as [Hin|[Hin|Hin]].
    + exfalso. apply (Forall_In _ _ _ Hpre Hin).
    + injection Hin as <-. reflexivity.
    + destruct Hpost as [->|(dropped & _ & Hall)]; [destruct Hin|].
      pose proof (Forall_In _ _ _ Hall Hin) as [Hpath _]. discriminate.
  - intros ev df Hin Hev.
    assert (Hnot : ~ harmless ev) by (destruct Hev as [[table ->]| ->]; intros []).
    apply in_app_or in Hin as [Hin|[Hin|Hin]].
    { exfalso. apply Hnot. apply (Forall_In _ _ _ Hpre Hin). }
    { exfalso. subst ev. destruct Hev as [[table Heq]|Heq]; discriminate. }
    destruct Hpost as [->|(dropped & Hdrop & Hall)]; [destruct Hin|].
    pose proof (Forall_In _ _ _ Hall Hin) as Hafter.
    assert (df = dropped) as ->.
    { destruct Hev as [[table ->]| ->]; cbn in Hafter; [exact Hafter|apply Hafter]. }
    destruct (drop_columns_spec enriched columns_to_delete dropped Hdrop)
      as (Hnd & Habsent & Hkept & _).
    split; [rewrite Hnd; exact Hrows|].
    split; [apply cell_at_absent, Habsent; cbn; auto|].
    intros c Hc. apply cell_at_same_column, Hkept. exact Hc.
Qed.

(** ** The properties on the sample runs *)

(** C2 on the first sample row, in the world where everything works: the
    second candidate of the first answer is accepted and one call is made. *)
Lemma resolver_query_ladder_witness :
  let out := get_place_id_from_text_query Sample.happy
               (row_of (Sample.prepared Sample.happy) 0) Sample.api_key Sample.start in
  fst out = Ok (PStr "ChIJ-klinik") /\
  trace (snd out) =
  [EGet "https://maps.googleapis.com/maps/api/place/findplacefromtext/json"
        [("input", PStr "Klinik Sehat, Jl. Mawar 1, Jakarta");
         ("inputtype", PStr "textquery");
         ("fields", PStr "formatted_address,name,place_id,types");
         ("key", PStr "test-key")]].
Proof.
  destruct (resolver_query_ladder Sample.happy Sample.input (Sample.prepared Sample.happy) 0
              "Klinik Sehat" "Jl. Mawar 1" "Jakarta" Sample.api_key Sample.start
              eq_refl eq_refl eq_refl eq_refl) as (n & Hn & Hsnd & Haccept).
  destruct (Haccept 0 (PStr "Klinik Sehat, Jl. Mawar 1, Jakarta")
              {| status_code := 200;
                 json_body := Some (PDict [("candidates",
                                            PList [Sample.candidate "ChIJ-shop"
                                                     ["store"; "point_of_interest"];
                                                   Sample.candidate "ChIJ-klinik" ["health"]]);
                                           ("status", PStr "OK")]);
                 url := "" |}
              (PDict [("candidates",
                       PList [Sample.candidate "ChIJ-shop" ["store"; "point_of_interest"];
                              Sample.candidate "ChIJ-klinik" ["health"]]);
                      ("status", PStr "OK")])
              [Sample.candidate "ChIJ-shop" ["store"; "point_of_interest"]]
              (Sample.candidate "ChIJ-klinik" ["health"]) []
              (PStr "ChIJ-klinik")) as [Haccepted _].
  - lia.
  - reflexivity.
  - reflexivity.
  - reflexivity.
  - reflexivity.
  - reflexivity.
  - repeat constructor.
  - reflexivity.
  - reflexivity.
  - destruct Haccepted as [Hfst Hone]; [discriminate|].
    split; [exact Hfst|]. rewrite Hsnd. subst n. reflexivity.
Defined.

(** C3 on the first sample row, in the world where no text query finds a
    health-care place. *)
Lemma exhausted_resolution_stores_None_witness :
  cell_at (data_frame (snd (enrich_all Sample.nothing_found Sample.api_key
                              (Sample.at_loop Sample.nothing_found)))) 0 "place_id"
  = Some (PStr "None").
Proof.
  apply (exhausted_resolution_stores_None Sample.nothing_found Sample.api_key
           (Sample.at_loop Sample.nothing_found) 0
           "Klinik Sehat, Jl. Mawar 1, Jakarta" "Klinik Sehat" "Jl. Mawar 1" "Jakarta").
  - vm_compute. lia.
  - repeat split; reflexivity.
  - eexists. reflexivity.
  - intros k value _. eexists. split; [reflexivity|].
    right. eexists. eexists. split; [reflexivity|]. split; [reflexivity|].
    repeat constructor.
Defined.

(** C4 as stated fails: a timeout of the first text query leaves the
    resolver as a fault after one call, whereas answers without a qualifying
    candidate lead to three calls and [None]. *)
Lemma resolver_lets_timeout_escape :
  let row := row_of (Sample.prepared Sample.unreachable) 0 in
  let timed_out := get_place_id_from_text_query Sample.unreachable row
                     Sample.api_key Sample.start in
  let unmatched := get_place_id_from_text_query Sample.nothing_found row
                     Sample.api_key Sample.start in
  fst timed_out = Raise (ExternalError "ReadTimeout") /\
  length (trace (snd timed_out)) = 1 /\
  fst unmatched = Ok PNone /\
  length (trace (snd unmatched)) = 3.
Proof. vm_compute. repeat split; reflexivity. Qed.

(** C4 (as the code has it) on the first sample row, in the world where the
    text queries time out. *)
Lemma resolver_fault_handling_witness :
  fst (get_place_id_from_text_query Sample.unreachable
         (row_of (Sample.prepared Sample.unreachable) 0) Sample.api_key Sample.start)
  = Raise (ExternalError "ReadTimeout").
Proof.
  destruct (resolver_fault_handling Sample.unreachable
              (row_of (Sample.prepared Sample.unreachable) 0) Sample.api_key
              "Klinik Sehat, Jl. Mawar 1, Jakarta" "Klinik Sehat" "Jl. Mawar 1" "Jakarta"
              Sample.start) as (n & Hn & _ & Hcases).
  - repeat split; reflexivity.
  - destruct (Hcases 0 (PStr "Klinik Sehat, Jl. Mawar 1, Jakarta")) as (_ & Hraise & _).
    + lia.
    + reflexivity.
    + apply (Hraise (ExternalError "ReadTimeout")). reflexivity.
Defined.

(** C5 in the world where everything works. *)
Lemma one_enriched_row_per_input_row_witness :
  let enriched :=
    data_frame (snd (enrich_all Sample.happy Sample.api_key (Sample.at_loop Sample.happy))) in
  nrows enriched = 2 /\
  In (EToExcel first_snapshot enriched) (trace (snd (main Sample.happy Sample.start))).
Proof.
  destruct (one_enriched_row_per_input_row Sample.happy Sample.start Sample.input
              (Sample.prepared Sample.happy) eq_refl eq_refl)
    as (_ & Hn & _ & _ & _ & evs & Htrace & Hin).
  split; [exact Hn|]. rewrite Htrace. exact Hin.
Defined.

(** C6 as stated fails for the final output: in the world where the detail
    request times out, the first row has its resolved identifier in the
    enriched table, but the table that is appended to the database and
    written to the final spreadsheet has no place_id at all. *)
Lemma faulted_row_has_no_place_id_in_final_output :
  let W := Sample.detail_down in
  let enriched := data_frame (snd (enrich_all W Sample.api_key (Sample.at_loop W))) in
  let evs := trace (snd (main W Sample.start)) in
  output_cells enriched 0 =
    [Some (PStr "ChIJ-klinik"); Some (PStr ""); Some (PStr ""); Some (PStr "");
     Some (PStr "")] /\
  In (EToSql "list_rumah_sakit" (Sample.exported W)) evs /\
  In (EToExcel final_export (Sample.exported W)) evs /\
  cell_at (Sample.exported W) 0 "place_id" = None /\
  column_names (Sample.exported W) =
    ["id"; "province"; "city"; "name"; "address";
     "map_url"; "latitude"; "longitude"; "image_url"].
Proof.
  vm_compute. repeat split; repeat (first [left; reflexivity | right]).
Qed.

(** C6 (as the code has it) on the first sample row, in the world where the
    detail request times out. *)
Lemma faulted_row_keeps_earlier_fields_witness :
  output_cells
    (data_frame (snd (enrich_all Sample.detail_down Sample.api_key
                        (Sample.at_loop Sample.detail_down)))) 0
  = [Some (PStr "ChIJ-klinik"); Some (PStr ""); Some (PStr ""); Some (PStr "");
     Some (PStr "")].
Proof.
  destruct (faulted_row_keeps_earlier_fields Sample.detail_down Sample.start Sample.input
              (Sample.prepared Sample.detail_down) 0 (PStr "Klinik Sehat"))
    as (_ & _ & Hdetail & _).
  - reflexivity.
  - reflexivity.
  - vm_compute. lia.
  - reflexivity.
  - apply (Hdetail (PStr "ChIJ-klinik") (ExternalError "ReadTimeout")); reflexivity.
Defined.

(** C7 in the world where the database refuses the connection. *)
Lemma database_down_aborts_the_run_witness :
  fst (main Sample.database_down Sample.start) = Raise (UnboundLocalError "cursor").
Proof.
  apply (database_down_aborts_the_run Sample.database_down Sample.start Sample.input
           (Sample.prepared Sample.database_down) (ExternalError "connection refused")).
  - reflexivity.
  - reflexivity.
  - reflexivity.
  - reflexivity.
  - intros t df. reflexivity.
  - intros t. reflexivity.
Defined.

(** C8 in the world where everything works: the table appended to the
    database has neither working column. *)
Lemma working_columns_are_dropped_witness :
  ~ In "alamat_parameter" (column_names (Sample.exported Sample.happy)) /\
  ~ In "place_id" (column_names (Sample.exported Sample.happy)).
Proof.
  destruct (working_columns_are_dropped Sample.happy Sample.start
              (trace (snd (main Sample.happy Sample.start))) eq_refl
              (EToSql "list_rumah_sakit" (Sample.exported Sample.happy))
              (Sample.exported Sample.happy))
    as (enriched & _ & _ & Halamat & Hplace & _).
  - vm_compute. repeat (first [left; reflexivity | right]).
  - left. eexists. reflexivity.
  - split; assumption.
Defined.

(** C9 on the first sample row, in the world where no text query finds a
    health-care place. *)
Lemma exhausted_row_still_fetches_details_witness :
  exists later,
    trace (snd (enrich_all Sample.nothing_found Sample.api_key
                  (Sample.at_loop Sample.nothing_found))) =
    trace (snd (resolution_of Sample.nothing_found Sample.api_key
                  (Sample.at_loop Sample.nothing_found) 0 (PStr "Klinik Sehat")))
    ++ EGet "https://maps.googleapis.com/maps/api/place/details/json"
            [("place_id", PStr "None");
             ("key", PStr "test-key");
             ("fields", PStr "url,photos,geometry")]
       :: later.
Proof.
  apply (exhausted_row_still_fetches_details Sample.nothing_found Sample.api_key
           (Sample.at_loop Sample.nothing_found) 0 (PStr "Klinik Sehat")).
  - vm_compute. lia.
  - reflexivity.
  - reflexivity.
Defined.

(** C10 on the first sample row, in the world where the place has no
    photo. *)
Lemma empty_photos_keep_coordinates_witness :
  output_cells
    (data_frame (snd (enrich_all Sample.no_photo Sample.api_key
                        (Sample.at_loop Sample.no_photo)))) 0
  = [Some (PStr "ChIJ-klinik"); Some (PStr "https://maps.google.com/?cid=1");
     Some (PStr "-6.2"); Some (PStr "106.8"); Some (PStr "")].
Proof.
  apply (empty_photos_keep_coordinates Sample.no_photo Sample.api_key
           (Sample.at_loop Sample.no_photo) 0 (PStr "Klinik Sehat") (PStr "ChIJ-klinik")
           (PDict [("result",
                    PDict [("url", PStr "https://maps.google.com/?cid=1");
                           ("geometry",
                            PDict [("location",
                                    PDict [("lat", PNum "-6.2"); ("lng", PNum "106.8")])]);
                           ("photos", PList [])]);
                   ("status", PStr "OK")])
           (PStr "https://maps.google.com/?cid=1") (PNum "-6.2") (PNum "106.8")
           (PDict [("url", PStr "https://maps.google.com/?cid=1");
                   ("geometry",
                    PDict [("location",
                            PDict [("lat", PNum "-6.2"); ("lng", PNum "106.8")])]);
                   ("photos", PList [])])).
  - vm_compute. lia.
  - reflexivity.
  - reflexivity.
  - reflexivity.
  - reflexivity.
  - reflexivity.
  - reflexivity.
  - reflexivity.
  - reflexivity.
  - reflexivity.
Defined.

(** * Further properties *)

(** ** Type Classifier on values that are not lists *)

Lemma prefix_spec (word text : string) :
  String.prefix word text = true <-> exists after, text = String.append word after.
Proof.
  revert text. induction word as [|a word IH]; intros text.
  - split; [intros _; exists text; reflexivity|intros _; destruct text; reflexivity].
  - destruct text as [|b text]; simpl.
    + split; [discriminate|intros [after H]; discriminate].
    + destruct (Ascii.ascii_dec a b) as [->|Hne].
      * rewrite IH. split; intros [after H]; exists after; simpl in *.
        -- rewrite H. reflexivity.
        -- injection H as H. exact H.
      * split; [discriminate|].
        intros [after H]. simpl in H. injection H as Hab _. symmetry in Hab. contradiction.
Qed.

Lemma str_contains_spec (word text : string) :
  str_contains word text = true <-> occurs_in word text.
Proof.
  induction text as [|b text IH]; cbn [str_contains].
  - rewrite orb_false_r, prefix_spec. split.
    + intros [after H]. exists "", after. exact H.
    + intros ([|c before] & after & H); simpl in H; [exists after; exact H|discriminate].
  - rewrite orb_true_iff, prefix_spec, IH. split.
    + intros [[after H]|(before & after & H)].
      * exists "", after. exact H.
      * exists (String b before), after. simpl. rewrite H. reflexivity.
    + intros ([|c before] & after & H); simpl in H.
      * left. exists after. exact H.
      * right. exists before, after. injection H as _ H. exact H.
Qed.

Lemma py_any_in_str (text : string) (options : list string) :
  py_any (fun o => py_in o (PStr text)) options =
  Ok (existsb (fun o => str_contains o text) options).
Proof.
  induction options as [|o rest IH]; simpl; [reflexivity|].
  destruct (str_contains o text); simpl; [reflexivity|exact IH].
Qed.

(** X1: handed a single string instead of a list, the classifier searches
    the recognised words inside it (substring search, not equality); handed
    [None], a boolean or a number it raises [TypeError]. *)
Theorem classifier_on_other_inputs :
  (forall text,
      check_type_in_response (PStr text) = Ok true <->
      exists word, In word type_options /\ occurs_in word text) /\
  (forall text,
      check_type_in_response (PStr text) = Ok false <->
      ~ exists word, In word type_options /\ occurs_in word text) /\
  (exists what, check_type_in_response PNone = Raise (TypeError what)) /\
  (forall b, exists what, check_type_in_response (PBool b) = Raise (TypeError what)) /\
  (forall n, exists what, check_type_in_response (PNum n) = Raise (TypeError what)).
Proof.
  assert (Hstr : forall text,
             existsb (fun o => str_contains o text) type_options = true <->
             exists word, In word type_options /\ occurs_in word text).
  { intros text. rewrite existsb_exists. split; intros (w & Hw & H); exists w;
      (split; [exact Hw|]); apply str_contains_spec; exact H. }
  split; [|split; [|split; [|split]]].
  - intros text. unfold check_type_in_response. rewrite py_any_in_str, <- Hstr.
    split; [intros H; injection H as H; exact H|intros ->; reflexivity].
  - intros text. unfold check_type_in_response. rewrite py_any_in_str, <- Hstr.
    destruct (existsb _ type_options); split; intros H;
      first [discriminate | reflexivity | exfalso; apply H; reflexivity].
  - eexists. reflexivity.
  - intros b. eexists. reflexivity.
  - intros n. eexists. reflexivity.
Qed.



(** ** Candidate Resolver on any row *)

Lemma with_trace_nil st : with_trace st (trace st ++ []) = st.
Proof. destruct st. unfold with_trace. simpl. rewrite app_nil_r. reflexivity. Qed.

Section Calls.

Variable W : World.

(** An attempt either issues one request, for the query text of its round,
    or raises before it issues any. *)
Lemma attempt_calls row api_key place_id retry_count st :
  (exists value,
      query_value row retry_count = Ok value /\ value <> PNone /\
      snd (attempt W row api_key place_id retry_count st) =
      record_event st (find_place_call api_key value)) \/
  (exists e, attempt W row api_key place_id retry_count st = (Raise e, st)).
Proof.
  unfold attempt. rewrite bind_run. cbn [lift].
  destruct (query_value row retry_count) as [value|e]; [|right; eexists; reflexivity].
  rewrite bind_run. unfold get_place_api.
  destruct (is_none value) eqn:Hnone; cbn [negb].
  - right. cbn [ret lift read_candidates status_code_of rbind]. eexists. reflexivity.
  - left. exists value. split; [reflexivity|].
    split; [intros ->; discriminate|].
    rewrite bind_run. cbn [requests_get].
    destruct (http_get W (trace st) find_place_endpoint (find_place_params value api_key));
      reflexivity.
Qed.

Lemma while_retry_calls row api_key fuel :
  forall place_id retry_count st,
    max_retries - retry_count <= fuel ->
    exists values,
      length values <= fuel /\
      snd (while_retry W row api_key place_id retry_count st) =
      with_trace st (trace st ++ map (find_place_call api_key) values) /\
      forall k value, values !! k = Some value ->
                      query_value row (retry_count + k) = Ok value /\ value <> PNone.
Proof.
  induction fuel as [|fuel IH]; intros place_id retry_count st Hfuel.
  - exists []. split; [reflexivity|]. split; [|intros k value H; discriminate].
    rewrite while_retry_done.
    + symmetry. apply with_trace_nil.
    + apply andb_false_iff. right. apply Nat.ltb_ge. unfold max_retries in *. lia.
  - rewrite while_retry_step.
    destruct (is_none place_id && Nat.ltb retry_count max_retries) eqn:E.
    2:{ exists []. split; [simpl; lia|]. split; [|intros k value H; discriminate].
        symmetry. apply with_trace_nil. }
    apply andb_prop in E as [_ Hlt]. apply Nat.ltb_lt in Hlt.
    destruct (attempt_calls row api_key place_id retry_count st)
      as [(value & Hq & Hvalue & Hsnd)|(e & Hraise)].
    + destruct (attempt W row api_key place_id retry_count st) as [[found|e] st'];
        cbn [snd] in Hsnd; subst st'.
      * destruct (IH found (retry_count + 1) (record_event st (find_place_call api_key value)))
          as (values & Hlen & Hsnd & Hvalues); [lia|].
        exists (value :: values). split; [simpl; lia|]. split.
        -- rewrite Hsnd. cbn [trace with_trace record_event map].
           rewrite <- app_assoc. reflexivity.
        -- intros [|k] v Hk; cbn in Hk.
           ++ injection Hk as <-. rewrite Nat.add_0_r. auto.
           ++ replace (retry_count + S k) with (retry_count + 1 + k) by lia.
              apply Hvalues. exact Hk.
      * exists [value]. split; [simpl; lia|]. split; [reflexivity|].
        intros [|k] v Hk; cbn in Hk; [|discriminate].
        injection Hk as <-. rewrite Nat.add_0_r. auto.
    + rewrite Hraise. exists []. split; [simpl; lia|].
      split; [|intros k value H; discriminate].
      symmetry. apply with_trace_nil.
Qed.

End Calls.

(** The query text of a round, spelled out: lines 74-79. *)
Lemma query_value_spec row k value :
  query_value row k = Ok value ->
  match k with
  | 0 => series_getitem row "alamat_parameter" = Ok value
  | 1 => exists name city,
           series_getitem row "name" = Ok (PStr name) /\
           series_getitem row "city" = Ok (PStr city) /\
           value = PStr ((name ++ ", ") ++ city)
  | 2 => series_getitem row "address" = Ok value
  | _ => value = PNone
  end.
Proof.
  destruct k as [|[|[|k]]]; cbn [query_value Nat.eqb]; intros H.
  - exact H.
  - destruct (series_getitem row "name") as [[| | |name| |]|]; cbn [rbind py_add] in H;
      try discriminate.
    destruct (series_getitem row "city") as [[| | |city| |]|]; cbn [rbind py_add] in H;
      try discriminate.
    injection H as <-. exists name, city. auto.
  - exact H.
  - injection H as <-. reflexivity.
Qed.

(** X2: whatever the row holds and whatever the world answers, the resolver
    sends at most three requests and changes nothing else (the table and the
    handles are as they were).  Each request is a GET on the find-place
    endpoint with the parameters input, inputtype, fields and key, and its
    input is never [None]: for the first request it is the row's
    alamat_parameter, for the second the row's name, a comma and a space,
    and the row's city (both strings), for the third the row's address. *)
Theorem resolver_call_bound W row api_key st :
  exists values,
    length values <= 3 /\
    snd (get_place_id_from_text_query W row api_key st) =
    with_trace st
      (trace st
       ++ map (fun value =>
                 EGet "https://maps.googleapis.com/maps/api/place/findplacefromtext/json"
                      [("input", value);
                       ("inputtype", PStr "textquery");
                       ("fields", PStr "formatted_address,name,place_id,types");
                       ("key", api_key)]) values) /\
    forall k value,
      values !! k = Some value ->
      value <> PNone /\
      match k with
      | 0 => series_getitem row "alamat_parameter" = Ok value
      | 1 => exists name city,
               series_getitem row "name" = Ok (PStr name) /\
               series_getitem row "city" = Ok (PStr city) /\
               value = PStr ((name ++ ", ") ++ city)
      | _ => series_getitem row "address" = Ok value
      end.
Proof.
  unfold get_place_id_from_text_query.
  destruct (while_retry_calls W row api_key 3 PNone 0 st) as (values & H1 & H2 & H3);
    [reflexivity|].
  exists values. split; [exact H1|]. split; [exact H2|].
  intros k value Hk. destruct (H3 k value Hk) as [Hq Hvalue]. split; [exact Hvalue|].
  apply query_value_spec in Hq. cbn [Nat.add] in Hq.
  destruct k as [|[|[|k]]]; try exact Hq.
  apply lookup_lt_Some in Hk. lia.
Qed.

(** X3: a row without the derived column makes the resolver raise
    [KeyError] at once, and a row that holds [None] there makes it raise
    [AttributeError] (no request is sent for [None], and the status of the
    missing response is read); in both cases no request has been issued. *)
Theorem resolver_needs_a_query_text W row api_key st :
  (assoc_lookup "alamat_parameter" row = None ->
   get_place_id_from_text_query W row api_key st =
   (Raise (KeyError "alamat_parameter"), st)) /\
  (assoc_lookup "alamat_parameter" row = Some PNone ->
   get_place_id_from_text_query W row api_key st =
   (Raise (AttributeError "'NoneType' object has no attribute 'status_code'"), st)).
Proof.
  unfold get_place_id_from_text_query. split; intros H.
  - rewrite while_retry_step. cbn [is_none andb Nat.ltb Nat.leb max_retries].
    unfold attempt. rewrite bind_run. cbn [lift query_value Nat.eqb].
    unfold series_getitem. rewrite H. reflexivity.
  - rewrite while_retry_step. cbn [is_none andb Nat.ltb Nat.leb max_retries].
    unfold attempt. rewrite bind_run. cbn [lift query_value Nat.eqb].
    unfold series_getitem. rewrite H. reflexivity.
Qed.


Lemma scan_candidates_fault body p0 done pre c post e :
  getitem body "candidates" = Ok (PList (done ++ pre ++ c :: post)) ->
  Forall (fun x => qualifies x = Ok false) pre ->
  qualifies c = Raise e ->
  scan_candidates body p0 (seq (length done) (length pre + S (length post))) = Raise e.
Proof.
  intros Hc Hpre Hq. revert done Hc.
  induction Hpre as [|x pre Hx Hpre IH]; intros done Hc; simpl.
  - rewrite Hc. simpl. rewrite lookup_app_r by lia. rewrite Nat.sub_diag. simpl.
    unfold qualifies in Hq.
    destruct (getitem c "types") as [tys|]; simpl in *;
      [rewrite Hq; reflexivity|injection Hq as ->; reflexivity].
  - rewrite Hc. simpl. rewrite lookup_app_r by lia. rewrite Nat.sub_diag. simpl.
    unfold qualifies in Hx.
    destruct (getitem x "types") as [tys|]; simpl in *; [|discriminate].
    rewrite Hx. simpl.
    specialize (IH (done ++ [x])). rewrite length_app in IH. simpl in IH.
    rewrite Nat.add_1_r in IH. apply IH. rewrite <- app_assoc. exact Hc.
Qed.

(** X5: the candidates are checked in order, and a candidate on which the
    check itself fails (no list of types, or types that cannot be searched)
    ends the resolver with that fault after this one request, even when a
    later candidate of the same answer would have passed. *)
Theorem malformed_candidate_stops_the_resolver
    W row api_key value r body pre c post e st :
  series_getitem row "alamat_parameter" = Ok value ->
  value <> PNone ->
  http_get W (trace st) find_place_endpoint (find_place_params value api_key) = Ok r ->
  status_code r = 200%Z ->
  json_body r = Some body ->
  getitem body "candidates" = Ok (PList (pre ++ c :: post)) ->
  Forall (fun x => qualifies x = Ok false) pre ->
  qualifies c = Raise e ->
  get_place_id_from_text_query W row api_key st =
  (Raise e, record_event st (find_place_call api_key value)).
Proof.
  intros Ha Hvalue Hget Hs Hj Hc Hpre Hq. unfold get_place_id_from_text_query.
  rewrite while_retry_step. cbn [is_none andb Nat.ltb Nat.leb max_retries].
  rewrite (attempt_run W row api_key 0 value); [|exact Ha|exact Hvalue].
  assert (Hv : verdict W api_key (trace st) value = Raise e); [|rewrite Hv; reflexivity].
  unfold verdict. rewrite Hget. cbn [rbind]. unfold read_candidates.
  cbn [status_code_of rbind]. rewrite Hs. cbn [Z.eqb Pos.eqb json_of].
  unfold response_json_of. rewrite Hj. cbn [rbind]. rewrite Hc. cbn [rbind py_len].
  rewrite length_app. cbn [length].
  apply (scan_candidates_fault body PNone [] pre c post e); assumption.
Qed.

(** ** Rows *)

(** X6: a row for which every stage succeeds ends its [try] block without
    a fault; its five output cells hold the texts of the identifier, the
    map URL, the two coordinates and the image URL (the final URL of the
    photo request, whatever its status); after the resolution exactly two
    more requests are made, details and then photo; and the enriched table
    keeps these cells. *)
Theorem resolved_row_is_filled W api_key st i name found d u la lo ref img :
  i < nrows (data_frame st) ->
  series_getitem (row_of (data_frame st) i) "name" = Ok name ->
  output_cells (data_frame st) i = replicate 5 (Some (PStr "")) ->
  let resolved := resolution_of W api_key st i name in
  fst resolved = Ok found ->
  detail_answer W api_key (trace (snd resolved)) (py_str W found) = Ok d ->
  extract_url d = Ok u ->
  extract_coordinate d "lat" = Ok la ->
  extract_coordinate d "lng" = Ok lo ->
  extract_photo_reference d = Ok ref ->
  image_answer W api_key (trace (snd resolved)) (py_str W found) ref = Ok img ->
  let row_out :=
    enrich_row W api_key i (row_of (data_frame st) i) (state_before_row W api_key st i) in
  let written :=
    [Some (PStr (py_str W found)); Some (PStr (py_str W u)); Some (PStr (py_str W la));
     Some (PStr (py_str W lo)); Some (PStr img)] in
  fst row_out = Ok tt /\
  output_cells (data_frame (snd row_out)) i = written /\
  trace (snd row_out) =
    trace (snd resolved)
    ++ [EGet details_endpoint (details_params (PStr (py_str W found)) api_key);
        EGet photo_endpoint (photo_params ref api_key)] /\
  output_cells (data_frame (snd (enrich_all W api_key st))) i = written.
Proof.
  intros Hi Hname Hcells resolved Hfound Hdetail Hu Hla Hlo Href Himg row_out written.
  destruct (row_in_final W api_key st i name Hi Hname)
    as (Hfst & Hrow & Htrace & Hfinal & _).
  fold resolved in Hfst, Hrow, Htrace. fold row_out in Hfst, Hrow, Htrace, Hfinal.
  assert (Hstages : stage_values W api_key resolved =
                    [Ok (py_str W found); Ok (py_str W u); Ok (py_str W la);
                     Ok (py_str W lo); Ok img]).
  { unfold stage_values. rewrite Hfound. cbn [rbind]. rewrite Hdetail. cbn [rbind].
    rewrite Hu, Hla, Hlo, Href. cbn [rbind]. rewrite Himg. reflexivity. }
  rewrite Hstages in Hfst, Hrow. rewrite Hcells in Hrow.
  repeat split.
  - exact Hfst.
  - exact Hrow.
  - rewrite Htrace. unfold stage_calls, photo_stage. rewrite Hfound. cbn [rbind].
    rewrite Hdetail. cbn [rbind]. rewrite Hu, Hla, Hlo, Href. reflexivity.
  - rewrite Hfinal. exact Hrow.
Qed.

(** ** The derived query string *)

(** X7: the preparation leaves the three input cells of a row as they
    were read, so a cell that is not a string reaches the resolver as it is,
    and it derives alamat_parameter from their [str()] texts joined by comma
    and space.  For a missing cell ([None] or NaN) the derived cell depends
    on the installed pandas: where [astype(str)] renders a missing cell as
    text, that text (None, nan) is joined like any other; where it keeps the
    cell missing, the derived cell is NaN. *)
Theorem derived_query_renders_cells W df df' i name address city :
  add_working_columns W df = Ok df' ->
  cell_at df i "name" = Some name ->
  cell_at df i "address" = Some address ->
  cell_at df i "city" = Some city ->
  let row := row_of df' i in
  let joined :=
    PStr ((((py_str W name ++ ", ") ++ py_str W address) ++ ", ") ++ py_str W city) in
  let some_missing := is_missing name || is_missing address || is_missing city in
  series_getitem row "alamat_parameter" =
    Ok (if missing_stays_missing W && some_missing then PNum "nan" else joined) /\
  series_getitem row "name" = Ok name /\
  series_getitem row "address" = Ok address /\
  series_getitem row "city" = Ok city.
Proof.
  intros Hadd Hn Ha Hc row joined some_missing. subst row joined some_missing.
  destruct (prepared_cells W df df' i name address city Hadd Hn Ha Hc) as (Halamat & H).
  split; [|exact H].
  rewrite Halamat. f_equal. unfold derived_text, render.
  destruct (missing_stays_missing W); cbn [andb]; [|reflexivity].
  destruct (is_missing name), (is_missing address), (is_missing city); reflexivity.
Qed.

(** ** The request budget *)

Lemma requests_app evs evs' : requests (evs ++ evs') = requests evs ++ requests evs'.
Proof. unfold requests. apply List.filter_app. Qed.

Lemma calls_to_app endpoint evs evs' :
  calls_to endpoint (evs ++ evs') = calls_to endpoint evs ++ calls_to endpoint evs'.
Proof. unfold calls_to. apply List.filter_app. Qed.

Lemma filter_length_le {A} (f : A -> bool) (l : list A) :
  length (List.filter f l) <= length l.
Proof. induction l as [|x l IH]; simpl; [lia|]. destruct (f x); simpl; lia. Qed.

Lemma within_budget_app n m evs evs' :
  within_budget n evs -> within_budget m evs' -> within_budget (n + m) (evs ++ evs').
Proof.
  unfold within_budget. intros (A & B & C & D) (A' & B' & C' & D').
  rewrite !calls_to_app, requests_app, !length_app. lia.
Qed.

Lemma within_budget_quiet evs :
  Forall (fun ev => is_request ev = false) evs -> within_budget 0 evs.
Proof.
  intros Hall.
  assert (Hnone : forall f : event -> bool,
             (forall ev, is_request ev = false -> f ev = false) -> List.filter f evs = []).
  { intros f Hf. induction Hall as [|ev evs Hev _ IH]; [reflexivity|].
    cbn [List.filter]. rewrite (Hf ev Hev). exact IH. }
  unfold within_budget, calls_to, requests.
  rewrite !Hnone; [cbn; lia|auto|..]; intros [] H; reflexivity || discriminate.
Qed.

Lemma within_budget_more n m evs : n <= m -> within_budget n evs -> within_budget m evs.
Proof. unfold within_budget. intros Hle (A & B & C & D). lia. Qed.

Lemma calls_to_queries_other api_key endpoint values :
  String.eqb find_place_endpoint endpoint = false ->
  calls_to endpoint (map (find_place_call api_key) values) = [].
Proof.
  intros Hne. unfold calls_to.
  induction values as [|v values IH]; [reflexivity|].
  cbn [map List.filter find_place_call]. rewrite Hne. exact IH.
Qed.

(** The text queries of a row count against the find-place budget only,
    and the calls that follow the resolution against the other two. *)
Lemma within_budget_queries api_key values rest :
  length values <= 3 ->
  (rest = [] \/
   (exists p, rest = [EGet details_endpoint p]) \/
   (exists p q, rest = [EGet details_endpoint p; EGet photo_endpoint q])) ->
  within_budget 1 (map (find_place_call api_key) values ++ rest).
Proof.
  intros Hlen Hrest.
  assert (Hfind : forall endpoint,
             length (calls_to endpoint (map (find_place_call api_key) values)) <= 3).
  { intros endpoint. unfold calls_to.
    pose proof (filter_length_le
                  (fun ev => match ev with
                             | EGet target _ => String.eqb target endpoint
                             | _ => false
                             end) (map (find_place_call api_key) values)) as H.
    rewrite length_map in H. lia. }
  pose proof (calls_to_queries_other api_key) as Hother.
  assert (Hreq : length (requests (map (find_place_call api_key) values)) <= 3).
  { unfold requests.
    pose proof (filter_length_le is_request (map (find_place_call api_key) values)) as H.
    rewrite length_map in H. lia. }
  unfold within_budget. rewrite !calls_to_app, requests_app, !length_app.
  rewrite (Hother "https://maps.googleapis.com/maps/api/place/details/json" values eq_refl).
  rewrite (Hother "https://maps.googleapis.com/maps/api/place/photo" values eq_refl).
  specialize (Hfind "https://maps.googleapis.com/maps/api/place/findplacefromtext/json").
  destruct Hrest as [->|[[p ->]|(p & q & ->)]]; cbn; lia.
Qed.

Lemma stage_calls_cases W api_key resolved :
  let rest := stage_calls W api_key resolved in
  rest = [] \/
  (exists p, rest = [EGet details_endpoint p]) \/
  (exists p q, rest = [EGet details_endpoint p; EGet photo_endpoint q]).
Proof.
  unfold stage_calls. destruct (fst resolved); cbn; [|auto].
  destruct (photo_stage W api_key resolved); eauto.
Qed.

Section Budget.

Variable W : World.

Lemma process_row_requests api_key item st :
  exists evs,
    trace (snd (process_row W api_key item st)) = trace st ++ evs /\
    within_budget 1 evs.
Proof.
  destruct item as [index row].
  destruct (series_getitem row "name") as [name|e] eqn:Hname.
  - rewrite process_row_run.
    destruct (enrich_row_run W api_key index row name st Hname) as (_ & _ & Htrace).
    destruct (while_retry_calls W row api_key 3 PNone 0
                (record_event st (progress_line W index name)))
      as (values & Hlen & Hsnd & _); [reflexivity|].
    fold (get_place_id_from_text_query W row api_key
            (record_event st (progress_line W index name))) in Hsnd.
    rewrite Hsnd in Htrace. cbn [trace record_event with_trace] in Htrace.
    pose proof (stage_calls_cases W api_key
                  (get_place_id_from_text_query W row api_key
                     (record_event st (progress_line W index name)))) as Hcases.
    cbv zeta in Hcases.
    set (calls := stage_calls W api_key _) in Htrace, Hcases.
    pose proof (within_budget_queries api_key values calls Hlen Hcases) as Hrow.
    assert (Hbanner : within_budget 0 [progress_line W index name])
      by (apply within_budget_quiet; repeat constructor).
    pose proof (within_budget_app 0 1 _ _ Hbanner Hrow) as Hbound.
    destruct (enrich_row W api_key index row st) as [[u|e] st']; cbn [snd] in *.
    + eexists. split; [|exact Hbound].
      rewrite Htrace, <- !app_assoc. reflexivity.
    + eexists. split.
      * cbn [trace record_event with_trace]. rewrite Htrace, <- !app_assoc. reflexivity.
      * rewrite !app_assoc. rewrite <- (app_assoc [_]).
        apply (within_budget_app 1 0); [exact Hbound|].
        apply within_budget_quiet. repeat constructor.
  - unfold process_row, try_except, enrich_row. cbn [fst snd].
    rewrite bind_run. cbn [lift]. rewrite Hname. cbn [print snd trace record_event with_trace].
    eexists. split; [reflexivity|].
    apply (within_budget_more 0 1); [lia|]. apply within_budget_quiet. repeat constructor.
Qed.

Lemma for_in_requests api_key items st :
  exists evs,
    trace (snd (for_in items (process_row W api_key) st)) = trace st ++ evs /\
    within_budget (length items) evs.
Proof.
  revert st. induction items as [|item rest IH]; intros st.
  - exists []. split; [cbn; rewrite app_nil_r; reflexivity|].
    apply within_budget_quiet. constructor.
  - cbn [for_in]. rewrite bind_run.
    destruct (process_row_requests api_key item st) as (evs1 & Hevs1 & Hlen1).
    pose proof (process_row_ok W api_key item st) as Hok.
    destruct (process_row W api_key item st) as [[[]|e] st']; cbn [fst snd] in *;
      [|discriminate].
    destruct (IH st') as (evs & Hevs & Hlen).
    exists (evs1 ++ evs). split.
    + rewrite Hevs, Hevs1, <- app_assoc. reflexivity.
    + apply (within_budget_app 1 (length rest)); assumption.
Qed.

Lemma enrich_all_requests api_key st :
  exists evs,
    trace (snd (enrich_all W api_key st)) = trace st ++ evs /\
    within_budget (nrows (data_frame st)) evs.
Proof.
  unfold enrich_all. rewrite bind_run. cbn [get_data_frame].
  destruct (for_in_requests api_key (iterrows (data_frame st)) st) as (evs & Hevs & Hlen).
  exists evs. split; [exact Hevs|].
  unfold iterrows in Hlen. rewrite length_map, length_seq in Hlen. exact Hlen.
Qed.

End Budget.

(** ** The database step *)

Ltac run_database W :=
  repeat (cbn [fst snd trace data_frame connection cursor
               record_event with_trace with_connection with_cursor with_data_frame];
          try match goal with
              | |- context [perform W ?t ?ev] =>
                  let E := fresh "E" in destruct (perform W t ev) as [[]|?] eqn:E
              end).

(** X8: the database step issues its calls in one fixed order: connect,
    cursor, CREATE TABLE, commit, engine, append of the table that [main]
    holds.  Each call is issued only after all the calls before it have
    succeeded, so the table is appended only to a database in which the
    statement creating it has been committed; when the sequence ends early
    it is because its last call failed, and what follows is only the
    printed line and the closing of the handles. *)
Theorem database_steps_in_order W db_url st :
  let steps := database_steps db_url (data_frame st) in
  exists n tail,
    1 <= n <= 6 /\
    trace (snd (persist W db_url st)) = trace st ++ take n steps ++ tail /\
    (forall k step, S k < n -> steps !! k = Some step ->
                    perform W (trace st ++ take k steps) step = Ok tt) /\
    (n < 6 -> exists step e,
                steps !! (n - 1) = Some step /\
                perform W (trace st ++ take (n - 1) steps) step = Raise e) /\
    Forall (fun ev => match ev with
                      | EPrint _ | ECursorClose | EConnectionClose => True
                      | _ => False
                      end) tail.
Proof.
  intros steps. subst steps.
  unfold persist, try_finally, try_except, check_table_exits, insert_data,
    bind, call, read_local, print, ret, get_data_frame.
  destruct st as [t df [conn|] [cur|]]; run_database W.
  all: rewrite <- ?app_assoc in *; cbn [app] in *.
  all: match goal with
       | |- context [EToSql] => exists 6
       | |- context [ECreateEngine] => exists 5
       | |- context [ECommit] => exists 4
       | |- context [EExecute] => exists 3
       | |- context [ECursor] => exists 2
       | _ => exists 1
       end.
  all: eexists; split; [lia|]; split; [cbn [take app]; reflexivity|]; split;
    [|split; [|repeat constructor]].
  all: try (intros k step Hk Hstep;
            destruct k as [|[|[|[|[|k]]]]]; try lia; cbn in Hstep; injection Hstep as <-;
            cbn [take app]; rewrite ?app_nil_r; assumption).
  all: intros Hn; try lia.
  all: eexists; eexists; (split; [reflexivity|]).
  all: cbn [Nat.sub take app]; rewrite ?app_nil_r; eassumption.
Qed.

Section Database.

Variable W : World.

(** The faults that leave the database step are the ones of its cleanup:
    the closing of a handle that raised, as the last call of the step, or
    the reading of the cursor that was not assigned because the connection
    or the cursor could not be made. *)
Lemma persist_fault_cause db_url st e :
  connection st = None ->
  cursor st = None ->
  fst (persist W db_url st) = Raise e ->
  let t := trace (snd (persist W db_url st)) in
  (exists pre ev, t = pre ++ [ev] /\ unguarded ev /\ perform W pre ev = Raise e) \/
  (e = UnboundLocalError "cursor" /\
   exists pre ev cause,
     t = pre ++ [ev; EPrint ("Error while connecting to PostgreSQL: " ++ str_of_exn W cause)] /\
     (ev = EConnect db_url \/ ev = ECursor) /\
     perform W pre ev = Raise cause).
Proof.
  destruct st as [t0 df conn cur]. cbn [connection cursor]. intros -> ->.
  unfold persist, try_finally, try_except, check_table_exits, insert_data,
    bind, call, read_local, print, ret, get_data_frame.
  run_database W.
  all: intros H; cbn in H; try discriminate; injection H as <-.
  all: first
    [ left; eexists; eexists; split; [reflexivity|]; split; [exact I|eassumption]
    | right; split; [reflexivity|]; eexists; eexists; eexists;
      split; [exact (eq_sym (app_assoc _ [_] [_]))|]; split; [auto|eassumption] ].
Qed.

(** When the cursor cannot be closed, the connection is not closed
    either. *)
Lemma persist_cursor_close_failure db_url st e :
  perform W (trace st) (EConnect db_url) = Ok tt ->
  perform W (trace st ++ [EConnect db_url]) ECursor = Ok tt ->
  (forall t, perform W t ECursorClose = Raise e) ->
  fst (persist W db_url st) = Raise e /\
  exists evs,
    trace (snd (persist W db_url st)) = trace st ++ evs /\
    Forall (fun ev => match ev with
                      | EConnectionClose | EToExcel _ _ => False
                      | _ => True
                      end) evs /\
    In ECursorClose evs.
Proof.
  intros Hconn Hcur Hclose.
  unfold persist, try_finally, try_except, check_table_exits, insert_data,
    bind, call, read_local, print, ret, get_data_frame.
  rewrite Hconn. cbn [trace record_event with_trace with_connection]. rewrite Hcur.
  repeat (cbn [fst snd trace data_frame connection cursor
               record_event with_trace with_connection with_cursor with_data_frame];
          rewrite ?Hclose;
          try match goal with
              | |- context [perform W ?t ?ev] => destruct (perform W t ev) as [[]|?]
              end).
  all: split; [reflexivity|].
  all: rewrite <- ?app_assoc; cbn [app]; eexists; (split; [reflexivity|]).
  all: split; [repeat constructor|cbn; tauto].
Qed.

End Database.

(** ** The whole run, further *)

Lemma requests_none (P : event -> Prop) evs :
  (forall ev, P ev -> is_request ev = false) -> Forall P evs -> requests evs = [].
Proof.
  intros HP Hall. induction Hall as [|ev evs Hev _ IH]; [reflexivity|].
  unfold requests in *. cbn [List.filter]. rewrite (HP ev Hev). exact IH.
Qed.

Lemma persist_event_no_request df ev : persist_event df ev -> is_request ev = false.
Proof. destruct ev; cbn; intros H; reflexivity || destruct H. Qed.

Lemma df_getitem_cases df label :
  (In label (column_names df) /\ exists cells, df_getitem df label = Ok cells) \/
  (~ In label (column_names df) /\ df_getitem df label = Raise (KeyError label)).
Proof.
  unfold df_getitem, column_names.
  destruct (assoc_lookup label (columns df)) as [cells|] eqn:E.
  - left. split; [|eexists; reflexivity].
    destruct (in_dec String.string_dec label (map fst (columns df))) as [Hin|Hno];
      [exact Hin|].
    apply assoc_lookup_None in Hno. congruence.
  - right. split; [apply assoc_lookup_None; exact E|reflexivity].
Qed.

Lemma prepare_cases W df :
  (exists df1, add_working_columns W df = Ok df1 /\
               forall c, In c input_columns -> In c (column_names df)) \/
  (exists before c after,
      add_working_columns W df = Raise (KeyError c) /\
      input_columns = before ++ c :: after /\
      ~ In c (column_names df) /\
      forall b, In b before -> In b (column_names df)).
Proof.
  unfold add_working_columns.
  destruct (df_getitem_cases df "name") as [[Hn [ns Hns]]|[Hn Hns]]; rewrite Hns;
    cbn [rbind].
  2:{ right. exists [], "name", ["address"; "city"].
      repeat split; [exact Hn|intros b []]. }
  rewrite astype_str_map, series_add_scalar_cells. cbn [rbind].
  destruct (df_getitem_cases df "address") as [[Ha [ads Hads]]|[Ha Hads]]; rewrite Hads;
    cbn [rbind].
  2:{ right. exists ["name"], "address", ["city"].
      repeat split; [exact Ha|intros b [<-|[]]; exact Hn]. }
  rewrite astype_str_map, series_add_cells. cbn [rbind].
  rewrite series_add_scalar_cells. cbn [rbind].
  destruct (df_getitem_cases df "city") as [[Hc [cs Hcs]]|[Hc Hcs]]; rewrite Hcs;
    cbn [rbind].
  2:{ right. exists ["name"; "address"], "city", [].
      repeat split; [exact Hc|intros b [<-|[<-|[]]]; assumption]. }
  rewrite astype_str_map, series_add_cells. cbn [rbind].
  left. eexists. split; [reflexivity|].
  intros c [<-|[<-|[<-|[]]]]; assumption.
Qed.

(** X9: the preparation succeeds exactly on a table that has the columns
    name, address and city, whatever their cells hold; otherwise it raises
    [KeyError] for the first of these (in the order name, address, city)
    that the table lacks. *)
Theorem preparation_needs_three_columns W df :
  ((exists df1, add_working_columns W df = Ok df1) <->
   forall c, In c input_columns -> In c (column_names df)) /\
  (forall e, add_working_columns W df = Raise e ->
             exists before c after,
               input_columns = before ++ c :: after /\
               e = KeyError c /\
               ~ In c (column_names df) /\
               forall b, In b before -> In b (column_names df)).
Proof.
  destruct (prepare_cases W df)
    as [(df1 & Hok & Hall)|(before & c & after & Hfail & Hsplit & Hc & Hbefore)].
  - rewrite Hok. split; [split; [intros _; exact Hall|intros _; eexists; reflexivity]|].
    intros e H. discriminate.
  - rewrite Hfail. split.
    + split; [intros [df1 H]; discriminate|].
      intros H. exfalso. apply Hc, H. rewrite Hsplit. apply in_or_app. right. left. reflexivity.
    + intros e H. injection H as <-. exists before, c, after. auto.
Qed.

Section Run.

Variable W : World.

(** Line 265 finds its two columns in the enriched table. *)
Lemma pruning_succeeds st df0 df1 :
  add_working_columns W df0 = Ok df1 ->
  exists dropped,
    drop_columns (data_frame (loop_end W st df1)) columns_to_delete = Ok dropped.
Proof.
  intros Hadd.
  destruct (prepared_frame W df0 df1 Hadd) as (_ & Hala & Hpid & _ & _).
  destruct (loop_end_events W st df1) as (_ & _ & _ & Hnames & _).
  apply drop_columns_ok.
  intros l [<-|[<-|[]]]; rewrite Hnames; assumption.
Qed.

Lemma main_fault_cause st e :
  connection st = None ->
  cursor st = None ->
  fst (main W st) = Raise e ->
  main_fault W st e.
Proof.
  intros Hconn Hcur H. unfold main_fault. cbv zeta.
  destruct (read_excel W (trace st) input_file) as [df0|e0] eqn:Hread.
  2:{ rewrite (main_read_failure W st e0 Hread) in H. injection H as <-. left. reflexivity. }
  destruct (prepare_cases W df0)
    as [(df1 & Hadd & _)|(before & c & after & Hadd & Hsplit & Hc & Hbefore)].
  2:{ rewrite (main_prepare_failure W st df0 _ Hread Hadd) in H. injection H as <-.
      right. left. exists df0, before, c, after. auto. }
  right. right. revert H.
  rewrite (main_run W st df0 df1 Hread Hadd). cbv zeta.
  destruct (perform W (trace (loop_end W st df1)) _) as [[]|e1] eqn:Hsnap.
  2:{ intros H. injection H as <-. left. eexists. eexists.
      split; [reflexivity|]. split; [exact I|exact Hsnap]. }
  destruct (pruning_succeeds st df0 df1 Hadd) as [dropped Hdrop].
  rewrite Hdrop.
  destruct (loop_end_events W st df1) as (Hconn' & Hcur' & _).
  match goal with
  | |- context [persist W ?u ?s] =>
      pose proof (persist_fault_cause W u s e) as Hp;
      destruct (persist W u s) as [[[]|e2] st6] eqn:Hpersist
  end; cbn [fst snd] in *.
  - destruct (perform W (trace st6) _) as [[]|e3] eqn:Hfinal; intros H; [discriminate|].
    injection H as <-. left. eexists. eexists.
    split; [reflexivity|]. split; [exact I|exact Hfinal].
  - intros H. injection H as <-. apply Hp; [| |reflexivity].
    + cbn [connection with_data_frame record_event with_trace]. rewrite Hconn'. exact Hconn.
    + cbn [cursor with_data_frame record_event with_trace]. rewrite Hcur'. exact Hcur.
Qed.

End Run.

(** X10: a run of [main] that ends with a fault ends so for one of four
    reasons, each a fact about what the world answered in this very run:
    the input file could not be read (and the fault is the one of the
    reading); the table read lacks one of name, address, city (and the fault
    is the [KeyError] of the first one it lacks); the last call of the run
    was the writing of a spreadsheet or the closing of a handle and raised
    the fault; or making the connection or the cursor failed, the handler
    printed its line, and the fault is the [UnboundLocalError] of the
    cleanup reading cursor.  So no fault of a request, of a payload, of the
    pruning or of a later database statement ends the run; and when the file
    is read, has the three columns, and writing, connecting, making the
    cursor and closing succeed, the run ends without a fault. *)
Theorem main_fault_surface W st :
  connection st = None ->
  cursor st = None ->
  (forall e, fst (main W st) = Raise e -> main_fault W st e) /\
  ((exists df0, read_excel W (trace st) input_file = Ok df0 /\
                forall c, In c input_columns -> In c (column_names df0)) ->
   (forall t ev, unguarded ev \/ ev = EConnect (db_url_of W) \/ ev = ECursor ->
                 perform W t ev = Ok tt) ->
   fst (main W st) = Ok tt).
Proof.
  intros Hconn Hcur.
  split; [intros e; apply main_fault_cause; assumption|].
  intros (df0 & Hread & Hcolumns) Hworld.
  destruct (fst (main W st)) as [[]|e] eqn:Hout; [reflexivity|exfalso].
  destruct (main_fault_cause W st e Hconn Hcur Hout)
    as [Hfail|[(df & before & c & after & Hread' & Hsplit & _ & Hc & _)
              |[(pre & ev & _ & Hev & Hfail)|(_ & pre & ev & cause & _ & Hev & Hfail)]]].
  - rewrite Hread in Hfail. discriminate.
  - rewrite Hread in Hread'. injection Hread' as <-. apply Hc, Hcolumns.
    rewrite Hsplit. apply in_or_app. right. left. reflexivity.
  - rewrite Hworld in Hfail by (left; exact Hev). discriminate.
  - rewrite Hworld in Hfail by (right; exact Hev). discriminate.
Qed.

Section Run_events.

Variable W : World.

Lemma enrich_all_empty api_key st :
  nrows (data_frame st) = 0 -> enrich_all W api_key st = (Ok tt, st).
Proof.
  intros Hzero. unfold enrich_all. rewrite bind_run. cbn [get_data_frame].
  unfold iterrows. rewrite Hzero. reflexivity.
Qed.

Lemma loop_end_requests st df1 :
  exists evs,
    trace (loop_end W st df1) =
      trace st ++ [EReadExcel input_file;
                   EPrint "Mulai untuk mendapatkan latitude, longitude, google maps url & image url"]
               ++ evs
               ++ [EPrint "Selesai mendapatkan latitude, longitude, google maps url & image url"] /\
    within_budget (nrows df1) evs /\
    (nrows df1 = 0 -> evs = [] /\ data_frame (loop_end W st df1) = df1).
Proof.
  unfold loop_end.
  destruct (enrich_all_requests W (getenv W "KEY") (loop_start st df1)) as (evs & Hevs & Hlen).
  exists evs. split; [|split].
  - cbn [trace record_event with_trace]. rewrite Hevs. unfold loop_start.
    cbn [trace record_event with_trace with_data_frame]. rewrite <- !app_assoc. reflexivity.
  - exact Hlen.
  - intros Hzero.
    rewrite (enrich_all_empty (getenv W "KEY") (loop_start st df1) Hzero) in *.
    cbn [snd] in Hevs. split; [|reflexivity].
    rewrite <- (app_nil_r (trace (loop_start st df1))) in Hevs at 1.
    apply app_inv_head in Hevs. symmetry. exact Hevs.
Qed.

End Run_events.

Lemma run_within_budget W st :
  let rows :=
    match read_excel W (trace st) input_file with
    | Ok df0 =>
        match add_working_columns W df0 with
        | Ok _ => nrows df0
        | Raise _ => 0
        end
    | Raise _ => 0
    end in
  exists evs, trace (snd (main W st)) = trace st ++ evs /\ within_budget rows evs.
Proof.
  cbv zeta.
  destruct (read_excel W (trace st) input_file) as [df0|e] eqn:Hread.
  2:{ rewrite (main_read_failure W st e Hread). exists [EReadExcel input_file].
      split; [reflexivity|]. apply within_budget_quiet. repeat constructor. }
  destruct (add_working_columns W df0) as [df1|e] eqn:Hadd.
  2:{ rewrite (main_prepare_failure W st df0 e Hread Hadd). exists [EReadExcel input_file].
      split; [reflexivity|]. apply within_budget_quiet. repeat constructor. }
  rewrite (main_run W st df0 df1 Hread Hadd). cbv zeta.
  destruct (prepared_frame W df0 df1 Hadd) as (Hn & _).
  destruct (loop_end_requests W st df1) as (evs & Hevs & Hlen & _).
  rewrite Hn in Hlen.
  set (st3 := loop_end W st df1) in *.
  set (enriched := data_frame st3).
  set (before := [EReadExcel input_file;
                  EPrint "Mulai untuk mendapatkan latitude, longitude, google maps url & image url"])
    in *.
  set (after := [EPrint "Selesai mendapatkan latitude, longitude, google maps url & image url"])
    in *.
  assert (Hloop : forall later,
             Forall (fun ev => is_request ev = false) later ->
             within_budget (nrows df0) (before ++ evs ++ after ++ later)).
  { intros later Hlater.
    apply (within_budget_app 0 (nrows df0)); [apply within_budget_quiet; repeat constructor|].
    rewrite <- (Nat.add_0_r (nrows df0)).
    apply (within_budget_app (nrows df0) 0); [exact Hlen|].
    apply within_budget_quiet. apply Forall_app. split; [repeat constructor|exact Hlater]. }
  assert (Hfirst : forall r : result unit,
             exists evs,
               trace (snd (r, record_event st3 (EToExcel first_snapshot enriched)))
               = trace st ++ evs /\ within_budget (nrows df0) evs).
  { intros r. exists (before ++ evs ++ after ++ [EToExcel first_snapshot enriched]). split.
    - cbn [snd trace record_event with_trace]. rewrite Hevs, <- !app_assoc. reflexivity.
    - apply Hloop. repeat constructor. }
  destruct (perform W (trace st3) (EToExcel first_snapshot enriched)) as [[]|e];
    [|apply Hfirst].
  destruct (drop_columns enriched columns_to_delete) as [dropped|e] eqn:Hdrop;
    [|apply Hfirst].
  destruct (persist_events W (db_url_of W)
              (with_data_frame (record_event st3 (EToExcel first_snapshot enriched)) dropped))
    as (Hframe & pevs & Hptrace & Hpall).
  cbn [data_frame trace with_data_frame record_event with_trace] in Hframe, Hptrace, Hpall.
  assert (Hquiet : Forall (fun ev => is_request ev = false) pevs).
  { eapply Forall_impl; [exact Hpall|]. apply persist_event_no_request. }
  destruct (persist W (db_url_of W)
              (with_data_frame (record_event st3 (EToExcel first_snapshot enriched)) dropped))
    as [[[]|e] st6]; cbn [snd] in *.
  - exists (before ++ evs ++ after
            ++ EToExcel first_snapshot enriched :: pevs ++ [EToExcel final_export dropped]).
    split.
    + cbn [trace record_event with_trace]. rewrite Hframe, Hptrace, Hevs.
      rewrite <- !app_assoc. reflexivity.
    + apply Hloop. constructor; [reflexivity|].
      apply Forall_app. split; [exact Hquiet|repeat constructor].
  - exists (before ++ evs ++ after ++ EToExcel first_snapshot enriched :: pevs). split.
    + rewrite Hptrace, Hevs. rewrite <- !app_assoc. reflexivity.
    + apply Hloop. constructor; [reflexivity|exact Hquiet].
Qed.

(** X11: a run of [main] calls [requests.get] at most five times for every
    row of the table it has read and prepared: at most three times on the
    find-place endpoint, once on the details endpoint and once on the photo
    endpoint, and on no other; it makes no such call when the input file
    cannot be read or the preparation fails. *)
Theorem request_budget W st :
  let rows :=
    match read_excel W (trace st) "list-provider.xlsx" with
    | Ok df0 =>
        match add_working_columns W df0 with
        | Ok _ => nrows df0
        | Raise _ => 0
        end
    | Raise _ => 0
    end in
  exists evs,
    trace (snd (main W st)) = trace st ++ evs /\
    length (calls_to "https://maps.googleapis.com/maps/api/place/findplacefromtext/json" evs)
      <= 3 * rows /\
    length (calls_to "https://maps.googleapis.com/maps/api/place/details/json" evs) <= rows /\
    length (calls_to "https://maps.googleapis.com/maps/api/place/photo" evs) <= rows /\
    length (requests evs) <= 5 * rows.
Proof. exact (run_within_budget W st). Qed.

(** X12: a table without rows is prepared, written and exported like any
    other: the loop prints its two lines, no request is sent in the whole
    run, and the first spreadsheet is written from the prepared table. *)
Theorem empty_table_makes_no_request W st df0 df1 :
  read_excel W (trace st) input_file = Ok df0 ->
  add_working_columns W df0 = Ok df1 ->
  nrows df0 = 0 ->
  exists post,
    trace (snd (main W st)) =
      trace st ++ [EReadExcel input_file;
                   EPrint "Mulai untuk mendapatkan latitude, longitude, google maps url & image url";
                   EPrint "Selesai mendapatkan latitude, longitude, google maps url & image url";
                   EToExcel first_snapshot df1] ++ post /\
    requests post = [].
Proof.
  intros Hread Hadd Hzero.
  rewrite (main_run W st df0 df1 Hread Hadd). cbv zeta.
  destruct (prepared_frame W df0 df1 Hadd) as (Hn & _).
  destruct (loop_end_requests W st df1) as (evs & Hevs & _ & Hempty).
  destruct Hempty as [-> Hframe]; [rewrite Hn; exact Hzero|].
  cbn [app] in Hevs.
  set (st3 := loop_end W st df1) in *. rewrite Hframe.
  assert (Hfirst : forall r : result unit,
             exists post,
               trace (snd (r, record_event st3 (EToExcel first_snapshot df1)))
               = trace st ++ [EReadExcel input_file;
                   EPrint "Mulai untuk mendapatkan latitude, longitude, google maps url & image url";
                   EPrint "Selesai mendapatkan latitude, longitude, google maps url & image url";
                   EToExcel first_snapshot df1] ++ post /\ requests post = []).
  { intros r. exists []. split; [|reflexivity].
    cbn [snd trace record_event with_trace]. rewrite Hevs, <- app_assoc. reflexivity. }
  destruct (perform W (trace st3) (EToExcel first_snapshot df1)) as [[]|e];
    [|apply Hfirst].
  destruct (drop_columns df1 columns_to_delete) as [dropped|e] eqn:Hdrop;
    [|apply Hfirst].
  destruct (persist_events W (db_url_of W)
              (with_data_frame (record_event st3 (EToExcel first_snapshot df1)) dropped))
    as (Hframe' & pevs & Hptrace & Hpall).
  cbn [data_frame trace with_data_frame record_event with_trace] in Hframe', Hptrace, Hpall.
  pose proof (requests_none _ pevs (persist_event_no_request dropped) Hpall) as Hnone.
  destruct (persist W (db_url_of W)
              (with_data_frame (record_event st3 (EToExcel first_snapshot df1)) dropped))
    as [[[]|e] st6]; cbn [snd] in *.
  - exists (pevs ++ [EToExcel final_export dropped]). split.
    + cbn [trace record_event with_trace]. rewrite Hframe', Hptrace, Hevs.
      rewrite <- !app_assoc. reflexivity.
    + rewrite requests_app, Hnone. reflexivity.
  - exists pevs. split; [|exact Hnone].
    rewrite Hptrace, Hevs. rewrite <- !app_assoc. reflexivity.
Qed.

(** X13: when the first spreadsheet cannot be written, the run ends with
    that fault right there: the loop has run, nothing is pruned, and no
    call to the database is made. *)
Theorem snapshot_failure_ends_the_run W st df0 df1 e :
  read_excel W (trace st) input_file = Ok df0 ->
  add_working_columns W df0 = Ok df1 ->
  (forall t df, perform W t (EToExcel first_snapshot df) = Raise e) ->
  fst (main W st) = Raise e /\
  data_frame (snd (main W st)) = data_frame (loop_end W st df1) /\
  exists pre,
    trace (snd (main W st)) =
      trace st ++ pre ++ [EToExcel first_snapshot (data_frame (loop_end W st df1))] /\
    Forall harmless pre.
Proof.
  intros Hread Hadd Hfail.
  rewrite (main_run W st df0 df1 Hread Hadd). cbv zeta. rewrite Hfail.
  destruct (loop_end_events W st df1) as (_ & _ & _ & _ & _ & pre & Hpre & Hharmless).
  split; [reflexivity|]. split; [reflexivity|].
  exists pre. split; [|exact Hharmless].
  cbn [snd trace record_event with_trace]. rewrite Hpre, app_assoc. reflexivity.
Qed.

(** X14: once both handles exist and can be closed, a failure of the table
    creation, of the commit, of the engine or of the append does not end
    the run: the database step ends normally, and [main] goes on to write
    the pruned table to the final spreadsheet, which is the last thing it
    does. *)
Theorem later_database_failures_keep_the_export W st df0 df1 :
  read_excel W (trace st) input_file = Ok df0 ->
  add_working_columns W df0 = Ok df1 ->
  (forall t df, perform W t (EToExcel first_snapshot df) = Ok tt) ->
  (forall t, perform W t (EConnect (db_url_of W)) = Ok tt) ->
  (forall t, perform W t ECursor = Ok tt) ->
  (forall t, perform W t ECursorClose = Ok tt) ->
  (forall t, perform W t EConnectionClose = Ok tt) ->
  exists dropped evs,
    drop_columns (data_frame (loop_end W st df1)) columns_to_delete = Ok dropped /\
    trace (snd (main W st)) = trace st ++ evs ++ [EToExcel final_export dropped] /\
    fst (main W st) = perform W (trace st ++ evs) (EToExcel final_export dropped).
Proof.
  intros Hread Hadd Hsnapshot Hconn Hcur Hclose1 Hclose2.
  rewrite (main_run W st df0 df1 Hread Hadd). cbv zeta.
  destruct (pruning_succeeds W st df0 df1 Hadd) as [dropped Hdrop].
  destruct (loop_end_events W st df1) as (_ & _ & _ & _ & _ & pre & Hpre & _).
  rewrite Hsnapshot, Hdrop.
  set (st4 := with_data_frame _ dropped).
  pose proof (persist_handles_later_failures W (db_url_of W) st4
                (Hconn _) (Hcur _) Hclose1 Hclose2) as Hok.
  destruct (persist_events W (db_url_of W) st4) as (Hframe & pevs & Hptrace & _).
  destruct (persist W (db_url_of W) st4) as [[[]|e] st6]; cbn [fst snd] in *;
    [|discriminate].
  subst st4. cbn [data_frame trace with_data_frame record_event with_trace] in Hframe, Hptrace.
  exists dropped, (pre ++ EToExcel first_snapshot (data_frame (loop_end W st df1)) :: pevs).
  split; [reflexivity|].
  assert (Htrace : trace st6 = trace st ++ pre
                   ++ EToExcel first_snapshot (data_frame (loop_end W st df1)) :: pevs).
  { rewrite Hptrace, Hpre, <- !app_assoc. reflexivity. }
  split.
  - cbn [trace record_event with_trace]. rewrite Hframe, Htrace, <- !app_assoc. reflexivity.
  - rewrite Hframe, Htrace. reflexivity.
Qed.

(** X15: when the cursor cannot be closed, the cleanup never reaches the
    connection, which stays open, and the fault of the cursor ends the run
    before the final spreadsheet is written. *)
Theorem failed_cursor_close_aborts_the_run W st df0 df1 e :
  read_excel W (trace st) input_file = Ok df0 ->
  add_working_columns W df0 = Ok df1 ->
  (forall t df, perform W t (EToExcel first_snapshot df) = Ok tt) ->
  (forall t, perform W t (EConnect (db_url_of W)) = Ok tt) ->
  (forall t, perform W t ECursor = Ok tt) ->
  (forall t, perform W t ECursorClose = Raise e) ->
  fst (main W st) = Raise e /\
  exists evs,
    trace (snd (main W st)) = trace st ++ evs /\
    In ECursorClose evs /\
    ~ In EConnectionClose evs /\
    forall df, ~ In (EToExcel final_export df) evs.
Proof.
  intros Hread Hadd Hsnapshot Hconn Hcur Hclose.
  rewrite (main_run W st df0 df1 Hread Hadd). cbv zeta.
  destruct (pruning_succeeds W st df0 df1 Hadd) as [dropped Hdrop].
  destruct (loop_end_events W st df1) as (_ & _ & _ & _ & _ & pre & Hpre & Hharmless).
  rewrite Hsnapshot, Hdrop.
  set (st4 := with_data_frame _ dropped).
  destruct (persist_cursor_close_failure W (db_url_of W) st4 e (Hconn _) (Hcur _) Hclose)
    as (Hfst & pevs & Hptrace & Hpall & Hin).
  destruct (persist W (db_url_of W) st4) as [[[]|e'] st6]; cbn [fst snd] in *;
    [discriminate|].
  injection Hfst as ->. split; [reflexivity|].
  subst st4. cbn [trace with_data_frame record_event with_trace] in Hptrace.
  exists (pre ++ EToExcel first_snapshot (data_frame (loop_end W st df1)) :: pevs).
  split; [rewrite Hptrace, Hpre, <- !app_assoc; reflexivity|].
  split; [apply in_or_app; right; right; exact Hin|].
  split.
  - intros H. apply in_app_or in H as [H|[H|H]].
    + apply (Forall_In _ _ _ Hharmless H).
    + discriminate.
    + apply (Forall_In _ _ _ Hpall H).
  - intros df H. apply in_app_or in H as [H|[H|H]].
    + apply (Forall_In _ _ _ Hharmless H).
    + discriminate.
    + apply (Forall_In _ _ _ Hpall H).
Qed.

(** ** The columns of the exported table *)

Lemma set_column_names_absent label cells cols :
  ~ In label (map fst cols) ->
  map fst (set_column label cells cols) = map fst cols ++ [label].
Proof.
  induction cols as [|[k old] rest IH]; cbn; [reflexivity|].
  intros Hno. destruct (String.eqb_spec k label) as [->|Hne]; [tauto|].
  cbn. rewrite IH; [reflexivity|tauto].
Qed.

Lemma column_names_setitem_new df label cells :
  ~ In label (column_names df) ->
  column_names (df_setitem df label cells) = column_names df ++ [label].
Proof. apply set_column_names_absent. Qed.

Lemma drop_columns_names df labels dropped :
  drop_columns df labels = Ok dropped ->
  column_names dropped =
  List.filter (fun k => negb (existsb (String.eqb k) labels)) (column_names df).
Proof.
  unfold drop_columns.
  destruct (List.filter (fun l => negb (has_column df l)) labels); [|discriminate].
  intros H. injection H as <-. unfold column_names. cbn [columns].
  induction (columns df) as [|[k cells] rest IH]; cbn [List.filter map fst]; [reflexivity|].
  destruct (negb (existsb (String.eqb k) labels)); cbn [map fst]; rewrite IH; reflexivity.
Qed.

Lemma filter_all {A} (f : A -> bool) (l : list A) :
  (forall x, In x l -> f x = true) -> List.filter f l = l.
Proof.
  induction l as [|x l IH]; intros H; cbn; [reflexivity|].
  rewrite (H x) by (left; reflexivity). rewrite IH; [reflexivity|].
  intros y Hy. apply H. right. exact Hy.
Qed.

(** X16: for an input table that has none of the six column names that
    [main] adds, the prepared table has the input columns followed by the
    added ones in the order of lines 212-223, and the table that is
    exported has the input columns followed by map_url, latitude, longitude
    and image_url. *)
Theorem exported_columns W st df0 df1 dropped :
  add_working_columns W df0 = Ok df1 ->
  (forall c, In c added_columns -> ~ In c (column_names df0)) ->
  drop_columns (data_frame (loop_end W st df1)) columns_to_delete = Ok dropped ->
  column_names df1 = column_names df0 ++ added_columns /\
  column_names dropped =
    column_names df0 ++ ["map_url"; "latitude"; "longitude"; "image_url"].
Proof.
  intros Hadd Hfresh Hdrop.
  assert (Hnames : column_names df1 = column_names df0 ++ added_columns).
  { apply add_working_columns_inv in Hadd as (names & alamat & _ & ->).
    unfold df_setitem_scalar.
    repeat (rewrite column_names_setitem_new;
            [|repeat (rewrite column_names_setitem_new;
                      [|first [ apply Hfresh; cbn; tauto
                              | idtac ]]);
              first [ apply Hfresh; cbn; tauto
                    | rewrite <- ?app_assoc; cbn [app]; intros Hin;
                      apply in_app_or in Hin as [Hin|Hin];
                      [revert Hin; apply Hfresh; cbn; tauto
                      |cbn in Hin; intuition discriminate] ]]).
    rewrite <- !app_assoc. reflexivity. }
  split; [exact Hnames|].
  destruct (loop_end_events W st df1) as (_ & _ & _ & Hsame & _).
  rewrite (drop_columns_names _ _ _ Hdrop), Hsame, Hnames, List.filter_app.
  rewrite filter_all; [reflexivity|].
  intros k Hk. apply negb_true_iff. apply not_true_is_false. intros Hex.
  apply existsb_exists in Hex as (l & Hl & Heq). apply String.eqb_eq in Heq. subst l.
  apply (Hfresh k); [|exact Hk].
  cbn in Hl. cbn. tauto.
Qed.

(** ** The further properties on the sample runs *)

(** X3 on a row without the derived column and on one that holds [None]
    there. *)
Lemma resolver_needs_a_query_text_witness :
  get_place_id_from_text_query Sample.happy Edge.bare_row Sample.api_key Sample.start =
    (Raise (KeyError "alamat_parameter"), Sample.start) /\
  get_place_id_from_text_query Sample.happy Edge.none_row Sample.api_key Sample.start =
    (Raise (AttributeError "'NoneType' object has no attribute 'status_code'"), Sample.start).
Proof.
  split.
  - apply (resolver_needs_a_query_text Sample.happy Edge.bare_row Sample.api_key Sample.start).
    reflexivity.
  - apply (resolver_needs_a_query_text Sample.happy Edge.none_row Sample.api_key Sample.start).
    reflexivity.
Defined.


(** X5 in the world whose first candidate has no list of types. *)
Lemma malformed_candidate_stops_the_resolver_witness :
  get_place_id_from_text_query Edge.untyped (Edge.nameless_row Edge.untyped)
    Sample.api_key Sample.start =
  (Raise (KeyError "types"),
   record_event Sample.start
     (find_place_call Sample.api_key (PStr "nan, Jl. Kenanga 3, Serang"))).
Proof.
  apply (malformed_candidate_stops_the_resolver Edge.untyped
           (Edge.nameless_row Edge.untyped) Sample.api_key
           (PStr "nan, Jl. Kenanga 3, Serang")
           {| status_code := 200;
              json_body := Some (PDict [("candidates",
                                         PList [PDict [("place_id", PStr "ChIJ-x")];
                                                Sample.candidate "ChIJ-klinik" ["health"]]);
                                        ("status", PStr "OK")]);
              url := "" |}
           (PDict [("candidates",
                    PList [PDict [("place_id", PStr "ChIJ-x")];
                           Sample.candidate "ChIJ-klinik" ["health"]]);
                   ("status", PStr "OK")])
           [] (PDict [("place_id", PStr "ChIJ-x")])
           [Sample.candidate "ChIJ-klinik" ["health"]]
           (KeyError "types") Sample.start).
  - reflexivity.
  - discriminate.
  - reflexivity.
  - reflexivity.
  - reflexivity.
  - reflexivity.
  - constructor.
  - reflexivity.
Defined.

(** X6 on the first sample row, in the world where everything works. *)
Lemma resolved_row_is_filled_witness :
  output_cells
    (data_frame (snd (enrich_all Sample.happy Sample.api_key
                        (Sample.at_loop Sample.happy)))) 0
  = [Some (PStr "ChIJ-klinik"); Some (PStr "https://maps.google.com/?cid=1");
     Some (PStr "-6.2"); Some (PStr "106.8");
     Some (PStr "https://maps.googleapis.com/maps/api/place/photo?maxwidth=400&photo_reference=abc&key=test-key")].
Proof.
  apply (resolved_row_is_filled Sample.happy Sample.api_key
           (Sample.at_loop Sample.happy) 0 (PStr "Klinik Sehat") (PStr "ChIJ-klinik")
           (PDict [("result",
                    PDict [("url", PStr "https://maps.google.com/?cid=1");
                           ("geometry",
                            PDict [("location",
                                    PDict [("lat", PNum "-6.2"); ("lng", PNum "106.8")])]);
                           ("photos", PList [PDict [("photo_reference", PStr "abc")]])]);
                   ("status", PStr "OK")])
           (PStr "https://maps.google.com/?cid=1") (PNum "-6.2") (PNum "106.8")
           (PStr "abc")
           "https://maps.googleapis.com/maps/api/place/photo?maxwidth=400&photo_reference=abc&key=test-key").
  - vm_compute. lia.
  - reflexivity.
  - reflexivity.
  - reflexivity.
  - reflexivity.
  - reflexivity.
  - reflexivity.
  - reflexivity.
  - reflexivity.
  - reflexivity.
Defined.

(** X7 on the provider without a name, with a pandas that renders the
    missing name as text and with one that keeps it missing. *)
Lemma derived_query_renders_cells_witness :
  series_getitem (Edge.nameless_row Sample.happy) "alamat_parameter" =
    Ok (PStr "nan, Jl. Kenanga 3, Serang") /\
  series_getitem (Edge.nameless_row (Edge.keeping_missing Sample.happy)) "alamat_parameter" =
    Ok (PNum "nan") /\
  series_getitem (Edge.nameless_row Sample.happy) "name" = Ok (PNum "nan").
Proof.
  destruct (derived_query_renders_cells Sample.happy Edge.nameless
              (Edge.prepare Sample.happy Edge.nameless) 0
              (PNum "nan") (PStr "Jl. Kenanga 3") (PStr "Serang")
              eq_refl eq_refl eq_refl eq_refl) as (Halamat & Hname & _).
  destruct (derived_query_renders_cells (Edge.keeping_missing Sample.happy) Edge.nameless
              (Edge.prepare (Edge.keeping_missing Sample.happy) Edge.nameless) 0
              (PNum "nan") (PStr "Jl. Kenanga 3") (PStr "Serang")
              eq_refl eq_refl eq_refl eq_refl) as (Hkept & _).
  split; [exact Halamat|]. split; [exact Hkept|exact Hname].
Defined.

(** X9 on the sample table and on a table without the city column. *)
Lemma preparation_needs_three_columns_witness :
  (exists df1, add_working_columns Sample.happy Sample.input = Ok df1) /\
  exists before c after,
    input_columns = before ++ c :: after /\
    KeyError "city" = KeyError c /\
    ~ In c (column_names Edge.no_city) /\
    forall b, In b before -> In b (column_names Edge.no_city).
Proof.
  split.
  - apply (preparation_needs_three_columns Sample.happy Sample.input).
    intros c Hc. cbn in Hc. cbn. intuition.
  - apply (preparation_needs_three_columns Sample.happy Edge.no_city). reflexivity.
Defined.

(** X10 in the world where the database refuses the connection, and in
    the world where everything works. *)
Lemma main_fault_surface_witness :
  main_fault Sample.database_down Sample.start (UnboundLocalError "cursor") /\
  fst (main Sample.happy Sample.start) = Ok tt.
Proof.
  split.
  - apply (main_fault_surface Sample.database_down Sample.start eq_refl eq_refl).
    vm_compute. reflexivity.
  - apply (main_fault_surface Sample.happy Sample.start eq_refl eq_refl).
    + exists Sample.input. split; [reflexivity|].
      intros c Hc. cbn in Hc. cbn. intuition.
    + intros t ev _. reflexivity.
Defined.

(** X11 on the sample table of two rows, and on a table without the city
    column. *)
Lemma request_budget_witness :
  (exists evs,
      trace (snd (main Sample.happy Sample.start)) = trace Sample.start ++ evs /\
      length (calls_to "https://maps.googleapis.com/maps/api/place/findplacefromtext/json" evs)
        <= 6 /\
      length (calls_to "https://maps.googleapis.com/maps/api/place/details/json" evs) <= 2 /\
      length (calls_to "https://maps.googleapis.com/maps/api/place/photo" evs) <= 2 /\
      length (requests evs) <= 10) /\
  (exists evs,
      trace (snd (main (Edge.reading Edge.no_city Sample.happy) Sample.start)) =
        trace Sample.start ++ evs /\
      length (requests evs) <= 0).
Proof.
  split.
  - exact (request_budget Sample.happy Sample.start).
  - destruct (request_budget (Edge.reading Edge.no_city Sample.happy) Sample.start)
      as (evs & Htrace & _ & _ & _ & Hnone).
    exists evs. split; [exact Htrace|exact Hnone].
Defined.

(** X12 on a table without rows. *)
Lemma empty_table_makes_no_request_witness :
  exists post,
    trace (snd (main (Edge.reading Edge.no_rows Sample.happy) Sample.start)) =
      trace Sample.start
      ++ [EReadExcel input_file;
          EPrint "Mulai untuk mendapatkan latitude, longitude, google maps url & image url";
          EPrint "Selesai mendapatkan latitude, longitude, google maps url & image url";
          EToExcel first_snapshot
            (Edge.prepare (Edge.reading Edge.no_rows Sample.happy) Edge.no_rows)]
      ++ post /\
    requests post = [].
Proof.
  apply (empty_table_makes_no_request (Edge.reading Edge.no_rows Sample.happy)
           Sample.start Edge.no_rows).
  - reflexivity.
  - reflexivity.
  - reflexivity.
Defined.

(** X13 in the world where the first spreadsheet cannot be written. *)
Lemma snapshot_failure_ends_the_run_witness :
  fst (main Edge.disk_full Sample.start) = Raise (ExternalError "OperationalError").
Proof.
  apply (snapshot_failure_ends_the_run Edge.disk_full Sample.start Sample.input
           (Sample.prepared Edge.disk_full) (ExternalError "OperationalError")).
  - reflexivity.
  - reflexivity.
  - intros t df. reflexivity.
Defined.

(** X14 in the world where the table cannot be created. *)
Lemma later_database_failures_keep_the_export_witness :
  exists dropped evs,
    drop_columns
      (data_frame (loop_end Edge.no_table Sample.start (Sample.prepared Edge.no_table)))
      columns_to_delete = Ok dropped /\
    trace (snd (main Edge.no_table Sample.start)) =
      trace Sample.start ++ evs ++ [EToExcel final_export dropped] /\
    fst (main Edge.no_table Sample.start) =
      perform Edge.no_table (trace Sample.start ++ evs) (EToExcel final_export dropped).
Proof.
  apply (later_database_failures_keep_the_export Edge.no_table Sample.start Sample.input
           (Sample.prepared Edge.no_table)).
  - reflexivity.
  - reflexivity.
  - intros t df. reflexivity.
  - intros t. reflexivity.
  - intros t. reflexivity.
  - intros t. reflexivity.
  - intros t. reflexivity.
Defined.

(** X15 in the world where the cursor cannot be closed. *)
Lemma failed_cursor_close_aborts_the_run_witness :
  fst (main Edge.stuck_cursor Sample.start) = Raise (ExternalError "OperationalError").
Proof.
  apply (failed_cursor_close_aborts_the_run Edge.stuck_cursor Sample.start Sample.input
           (Sample.prepared Edge.stuck_cursor) (ExternalError "OperationalError")).
  - reflexivity.
  - reflexivity.
  - intros t df. reflexivity.
  - intros t. reflexivity.
  - intros t. reflexivity.
  - intros t. reflexivity.
Defined.

(** X16 on the sample table: the exported columns are those of the
    statement that creates the database table. *)
Lemma exported_columns_witness :
  column_names (Sample.exported Sample.happy) =
  ["id"; "province"; "city"; "name"; "address";
   "map_url"; "latitude"; "longitude"; "image_url"].
Proof.
  apply (exported_columns Sample.happy Sample.start Sample.input
           (Sample.prepared Sample.happy) (Sample.exported Sample.happy)).
  - reflexivity.
  - intros c Hc Hin. cbn in Hc, Hin.
    repeat match goal with
           | H : _ \/ _ |- _ => destruct H
           | H : False |- _ => destruct H
           end; subst; discriminate.
  - vm_compute. reflexivity.
Defined.
